(** * The v85 CSV importer and history collector

  A shallow embedding of [Databas/import_csv_to_db.py] (file-name
  recognition, row normalisation, delete-then-write reconciliation into
  the two SQLite tables, the per-run transaction) and of
  [collect_history_rows] from [get_v85_history.py] (per-horse retention).

  Python [str] values are modelled by [string]; one [ascii] stands for one
  code point in the range 0..255.  On that range the regular-expression
  class [\d] is exactly the ten ASCII digits and [str.strip] removes
  exactly the code points listed in [Py.is_space]. *)

From Stdlib Require Import Ascii String ZArith Lia Permutation Sorted.
From Stdlib Require Import SpecFloat.
From stdpp Require Import gmap strings list sorting.


(** ** Python primitives used by the two scripts *)

Module Py.

Definition code (c : ascii) : nat := nat_of_ascii c.

(** [str.isspace] on code points below 256: TAB..CR, FS..US, SPACE,
    NEL (0x85) and NBSP (0xA0). *)
Definition is_space (c : ascii) : bool :=
  let n := code c in
  (((9 <=? n) && (n <=? 13)) || ((28 <=? n) && (n <=? 32))
  || (n =? 133) || (n =? 160))%nat.

(** Membership in the class [\d]. *)
Definition is_digit (c : ascii) : bool :=
  let n := code c in ((48 <=? n) && (n <=? 57))%nat.

(** Membership in the class [[1-8]]. *)
Definition is_1_8 (c : ascii) : bool :=
  let n := code c in ((49 <=? n) && (n <=? 56))%nat.

Fixpoint lstrip (s : string) : string :=
  match s with
  | EmptyString => EmptyString
  | String c s' => if is_space c then lstrip s' else s
  end.

Fixpoint rstrip (s : string) : string :=
  match s with
  | EmptyString => EmptyString
  | String c s' =>
      match rstrip s' with
      | EmptyString => if is_space c then EmptyString else String c EmptyString
      | r => String c r
      end
  end.

(** [s.strip()] *)
Definition strip (s : string) : string := rstrip (lstrip s).

Fixpoint all_space (s : string) : bool :=
  match s with
  | EmptyString => true
  | String c s' => is_space c && all_space s'
  end.

Definition first_char (s : string) : option ascii :=
  match s with EmptyString => None | String c _ => Some c end.

Fixpoint last_char (s : string) : option ascii :=
  match s with
  | EmptyString => None
  | String c EmptyString => Some c
  | String _ s' => last_char s'
  end.

Fixpoint drop_chars (n : nat) (s : string) : string :=
  match n, s with
  | O, _ => s
  | S n', String _ s' => drop_chars n' s'
  | S _, EmptyString => EmptyString
  end.

(** [s[a:b]] for literal bounds [0 <= a <= b]. *)
Definition slice (a b : nat) (s : string) : string := substring a (b - a) s.

(** [s.startswith(p)], returning what follows the prefix. *)
Fixpoint strip_prefix (p s : string) : option string :=
  match p, s with
  | EmptyString, _ => Some s
  | String a p', String b s' =>
      if Ascii.eqb a b then strip_prefix p' s' else None
  | String _ _, EmptyString => None
  end.

(** [s.replace(old, new, 1)]: the leftmost occurrence of [old] is
    replaced; a string without an occurrence is returned as it is. *)
Fixpoint replace_first (old new s : string) : string :=
  match strip_prefix old s with
  | Some rest => new +:+ rest
  | None =>
      match s with
      | EmptyString => EmptyString
      | String c s' => String c (replace_first old new s')
      end
  end.

Definition digit_char (n : nat) : ascii := ascii_of_nat (48 + n).

Fixpoint digits_of (fuel : nat) (n : N) (acc : string) : string :=
  match fuel with
  | O => acc
  | S fuel' =>
      let acc' := String (digit_char (N.to_nat (n mod 10))) acc in
      if (n <? 10)%N then acc' else digits_of fuel' (n / 10)%N acc'
  end.

(** [str(n)] for an [int]. *)
Definition str_int (z : Z) : string :=
  let n := Z.abs_N z in
  let ds := digits_of (S (N.to_nat (N.log2 n))) n EmptyString in
  if (z <? 0)%Z then String "-" ds else ds.

Definition newline : ascii := ascii_of_nat 10.

(** [fullmatch]-style end test of a pattern ending in [$] (no
    [re.MULTILINE]): the end of the string, or just before a newline that
    is the last character of the string. *)
Definition at_dollar (s : string) : bool :=
  match s with
  | EmptyString => true
  | String c EmptyString => Ascii.eqb c newline
  | _ => false
  end.

Fixpoint all_digits (s : string) : bool :=
  match s with
  | EmptyString => true
  | String c s' => is_digit c && all_digits s'
  end.

(** [(\d{n})] at the start of [s]: the group and what follows it. *)
Definition take_digits (n : nat) (s : string) : option (string * string) :=
  let d := substring 0 n s in
  if (String.length d =? n)%nat && all_digits d then Some (d, drop_chars n s) else None.

(** [([1-8])] at the start of [s]. *)
Definition take_1_8 (s : string) : option (string * string) :=
  match s with
  | String c s' => if is_1_8 c then Some (String c EmptyString, s') else None
  | EmptyString => None
  end.

End Py.

(** ** Naming resolver ([CURRENT_RE], [HISTORY_RE], [yyyymmdd_to_iso]) *)

Module Naming.
Import Py.

(** The tail [(\d{8})_([1-8])\.csv$] shared by both patterns; the result
    is [(m.group(1), m.group(2))]. *)
Definition date_div_csv (s : string) : option (string * string) :=
  '(d, s1) ← take_digits 8 s;
  s2 ← strip_prefix "_" s1;
  '(g, s3) ← take_1_8 s2;
  s4 ← strip_prefix ".csv" s3;
  if at_dollar s4 then Some (d, g) else None.

(** [CURRENT_RE.match(name)] for [^v85_(\d{8})_([1-8])\.csv$]. *)
Definition CURRENT_RE (name : string) : option (string * string) :=
  strip_prefix "v85_" name ≫= date_div_csv.

(** [HISTORY_RE.match(name)] for [^v85_history_(\d{8})_([1-8])\.csv$]. *)
Definition HISTORY_RE (name : string) : option (string * string) :=
  strip_prefix "v85_history_" name ≫= date_div_csv.

Definition yyyymmdd_to_iso (d : string) : string :=
  slice 0 4 d +:+ "-" +:+ slice 4 6 d +:+ "-" +:+ slice 6 8 d.

(** [p.name.replace("v85_", "v86_", 1)] *)
Definition legacy_current (name : string) : string :=
  replace_first "v85_" "v86_" name.

(** [p.name.replace("v85_history_", "v86_history_", 1)] *)
Definition legacy_history (name : string) : string :=
  replace_first "v85_history_" "v86_history_" name.

(** The three-way classification of a file name made by the two loaders. *)
Inductive kind :=
| Current (date : string) (division : string) (legacy_alias : string)
| History (division : string) (legacy_alias : string)
| Unrecognized.

Definition classify (name : string) : kind :=
  match CURRENT_RE name with
  | Some (d, g) => Current (yyyymmdd_to_iso d) g (legacy_current name)
  | None =>
      match HISTORY_RE name with
      | Some (_, g) => History g (legacy_history name)
      | None => Unrecognized
      end
  end.

(** The shape [(\d{8})_([1-8])\.csv$] accepts. *)
Definition tail_shape (d g tail : string) : Prop :=
  String.length d = 8 ∧ all_digits d = true
  ∧ (∃ c, g = String c "" ∧ is_1_8 c = true)
  ∧ (tail = "" ∨ tail = String newline "").

End Naming.

(** ** Exceptions and the state threaded through a run *)

Module Exc.

Inductive exn :=
| AssertionError
| AttributeError   (* a method looked up on a value that lacks it *)
| ReadError.       (* [p.open] or [csv.DictReader] raises: OSError,
                      UnicodeDecodeError, csv.Error *)

Inductive result (A : Type) :=
| Ok (a : A)
| Raise (e : exn).
Arguments Ok {A} a.
Arguments Raise {A} e.


(** A computation over a mutable state [S] that may raise; the state
    reached when the exception is raised is kept. *)
Definition M (S A : Type) : Type := S → S * result A.

Definition ret {S A} (a : A) : M S A := λ s, (s, Ok a).
Definition raise {S A} (e : exn) : M S A := λ s, (s, Raise e).
Definition bind {S A B} (m : M S A) (k : A → M S B) : M S B :=
  λ s, match m s with
       | (s', Ok a) => k a s'
       | (s', Raise e) => (s', Raise e)
       end.
Definition lift {S A} (r : result A) : M S A := λ s, (s, r).
Definition modify {S} (f : S → S) : M S unit := λ s, (f s, Ok tt).

(** [for x in xs: body(x)] *)
Fixpoint for_each {S A} (xs : list A) (body : A → M S unit) : M S unit :=
  match xs with
  | [] => ret tt
  | x :: xs' => bind (body x) (λ _, for_each xs' body)
  end.

End Exc.

Notation "x ←← m ;; k" := (Exc.bind m (λ x, k))
(at level 100, m at next level, right associativity).

(** ** Raw rows and the row normaliser *)

Module Norm.
Import Py Exc.

(** Python values that can sit in a row mapping. *)
Inductive pyval :=
| PNone
| PStr (s : string)
| PInt (z : Z).

(** Truth value of [v] as tested by [or]. *)
Definition truthy (v : pyval) : bool :=
  match v with
  | PNone => false
  | PStr s => negb (String.eqb s "")
  | PInt z => negb (z =? 0)%Z
  end.

(** [v or ""] *)
Definition or_empty (v : pyval) : pyval := if truthy v then v else PStr "".

(** [r.get(k)] *)
Definition get (r : gmap string pyval) (k : string) : pyval :=
  default PNone (r !! k).

(** [v.strip()] *)
Definition strip_method (v : pyval) : result string :=
  match v with
  | PStr s => Ok (strip s)
  | _ => Raise AttributeError
  end.

(** [str(v)] *)
Definition str (v : pyval) : string :=
  match v with
  | PNone => "None"
  | PStr s => s
  | PInt z => str_int z
  end.

(** [(r.get(k) or "").strip()] *)
Definition text_field (r : gmap string pyval) (k : string) : result string :=
  strip_method (or_empty (get r k)).

(** [str(r.get(k) or "").strip()] *)
Definition str_field (r : gmap string pyval) (k : string) : result string :=
  strip_method (PStr (str (or_empty (get r k)))).

(** A row as [csv.DictReader] yields it: every value under a column label
    is a [str], or [None] where the line is shorter than the header. *)
Definition cell (v : option string) : pyval :=
  match v with Some s => PStr s | None => PNone end.

Definition of_csv (r : gmap string (option string)) : gmap string pyval :=
  cell <$> r.

(** Column labels with letters outside ASCII, by code point. *)
Definition a_uml : string := String (ascii_of_nat 228) "".
Definition a_ring : string := String (ascii_of_nat 229) "".
Definition hastnamn_label : string := "h" +:+ a_uml +:+ "stnamn".
Definition tranare_label : string := "tr" +:+ a_uml +:+ "nare".
Definition distans_spar_label : string := "distans:sp" +:+ a_ring +:+ "r".

End Norm.

(** ** The two tables *)

(** Modelled from the spec: the schema of the database (the [CREATE TABLE]
    statements) is not among the sources.  Each table has the columns its
    [INSERT] statement names, all holding text as the spec lays down (values
    are stored as received); the uniqueness constraint on [v85] is the one
    the [ON CONFLICT] clause of the source names. *)

Module V85.

Record row := Row {
  datum : string;
  avd : string;
  startnummer : string;
  hastnamn : string;
  kusk : string;
  tranare : string;
  v85_procent : string;
  v_odds : string;
  vagn : string;
  source_file : string
}.

Global Instance current_row_eq_dec : EqDecision row.
Proof. solve_decision. Defined.

(** The columns of the uniqueness constraint named by
    [ON CONFLICT(datum, avd, hastnamn)]. *)
Definition key (r : row) : string * string * string :=
  (datum r, avd r, hastnamn r).

(** [DO UPDATE SET ... = excluded. ...]: the conflicting row keeps its key
    columns and takes every other column from the proposed row. *)
Definition do_update (old excluded : row) : row :=
  {| datum := datum old;
     avd := avd old;
     hastnamn := hastnamn old;
     startnummer := startnummer excluded;
     kusk := kusk excluded;
     tranare := tranare excluded;
     v85_procent := v85_procent excluded;
     v_odds := v_odds excluded;
     vagn := vagn excluded;
     source_file := source_file excluded |}.

(** [INSERT INTO v85 (...) VALUES (...) ON CONFLICT(datum, avd, hastnamn)
    DO UPDATE SET ...] on a table listed in rowid order. *)
Fixpoint upsert (new : row) (t : list row) : list row :=
  match t with
  | [] => [new]
  | old :: t' =>
      if decide (key old = key new) then do_update old new :: t'
      else old :: upsert new t'
  end.

(** [DELETE FROM v85 WHERE source_file IN (?, ?)] *)
Definition delete_sources (a b : string) (t : list row) : list row :=
  filter (λ r, source_file r ≠ a ∧ source_file r ≠ b) t.

(** Modelled from the spec: the uniqueness constraint on
    (datum, avd, hastnamn), which the schema declares and the database
    enforces on every stored state. *)
Definition unique (t : list row) : Prop := NoDup (key <$> t).

Global Instance unique_dec t : Decision (unique t).
Proof. unfold unique. apply _. Defined.

(** The row stored under a key, if any. *)
Fixpoint find_key (k : string * string * string) (t : list row) : option row :=
  match t with
  | [] => None
  | r :: t' => if decide (key r = k) then Some r else find_key k t'
  end.

(** What the delete statement leaves of the row stored under one key. *)
Definition keep (a b : string) (o : option row) : option row :=
  match o with
  | Some r => if decide (source_file r ≠ a ∧ source_file r ≠ b) then Some r else None
  | None => None
  end.

End V85.

Module V85History.

Record row := Row {
  datum : string;
  avd : string;
  hastnamn : string;
  bana : string;
  kusk : string;
  placering : string;
  distans_spor : string;
  km_tid : string;
  skor : string;
  odds : string;
  pris : string;
  vagn : string;
  source_file : string
}.

Global Instance history_row_eq_dec : EqDecision row.
Proof. solve_decision. Defined.

(** [INSERT INTO v85_history (...) VALUES (...)] *)
Definition insert (new : row) (t : list row) : list row := t ++ [new].

(** [DELETE FROM v85_history WHERE source_file IN (?, ?)] *)
Definition delete_sources (a b : string) (t : list row) : list row :=
  filter (λ r, source_file r ≠ a ∧ source_file r ≠ b) t.

End V85History.

(** ** The importer ([load_current], [load_history], [main]) *)

Module Importer.
Import Py Exc Norm Naming.

(** The state of the SQLite database: the two tables, rows in rowid
    order.  The surrogate [id] column is neither read nor written by the
    importer and is left out. *)
Record db := Db {
  v85 : list V85.row;
  v85_history : list V85History.row
}.

(** What [csv_dir.iterdir()] finds under a name: a directory, or a file.
    A file is given by what happens when it is opened and read through
    [csv.reader]: the records of the file, one list of fields per line (the
    empty list for a blank line), or the exception raised on the way. *)
Inductive entry :=
| Dir
| File (content : result (list (list string))).

(** One row of [csv.DictReader]: [dict(zip(fieldnames, row))], then
    [d[key] = None] for every field name the row is too short for.  The
    fields a row has beyond the header go under the key [None], which no
    lookup by a column label reaches; they are left out. *)
Definition row_dict (fieldnames row : list string)
    : gmap string (option string) :=
  foldl (λ d kv, <[kv.1 := kv.2]> d) ∅
        (zip fieldnames (Some <$> row)
         ++ ((λ key, (key, None)) <$> drop (length row) fieldnames)).

(** [list(csv.DictReader(f))]: the first record names the columns, blank
    lines after it are skipped; a file without any record has no rows. *)
Definition DictReader (records : list (list string))
    : list (gmap string (option string)) :=
  match records with
  | [] => []
  | fieldnames :: rest => row_dict fieldnames <$> filter (λ row, row ≠ []) rest
  end.

Definition is_file (e : entry) : bool :=
  match e with File _ => true | Dir => false end.

(** [sorted(p for p in csv_dir.iterdir() if p.is_file() and RE.match(p.name))] *)
Definition matching_files (re : string → option (string * string))
    (csv_dir : gmap string entry) : list string :=
  merge_sort String.le
    ((filter (λ p, is_file p.2 ∧ is_Some (re p.1)) (map_to_list csv_dir)).*1).

Definition rbind {A B} (r : result A) (k : A → result B) : result B :=
  match r with Ok a => k a | Raise e => Raise e end.

(** [with p.open(...) as f: rows = list(csv.DictReader(f))] *)
Definition read_rows {S} (csv_dir : gmap string entry) (p : string)
    : M S (list (gmap string (option string))) :=
  match csv_dir !! p with
  | Some (File content) => lift (rbind content (λ records, Ok (DictReader records)))
  | _ => raise ReadError
  end.

(** The parameter tuple of the [INSERT INTO v85] statement. *)
Definition current_args (game_date avd name : string)
    (r : gmap string pyval) : result V85.row :=
  rbind (text_field r "startnummer") (λ c3,
  rbind (text_field r hastnamn_label) (λ c4,
  rbind (text_field r "kusk") (λ c5,
  rbind (text_field r tranare_label) (λ c6,
  rbind (text_field r "v85%") (λ c7,
  rbind (text_field r "v-odds") (λ c8,
  rbind (text_field r "vagn") (λ c9,
  Ok (V85.Row game_date avd c3 c4 c5 c6 c7 c8 c9 name)))))))).

(** The parameter tuple of the [INSERT INTO v85_history] statement. *)
Definition history_args (avd name : string)
    (r : gmap string pyval) : result V85History.row :=
  rbind (text_field r "datum") (λ c1,
  rbind (text_field r hastnamn_label) (λ c3,
  rbind (text_field r "bana") (λ c4,
  rbind (text_field r "kusk") (λ c5,
  rbind (str_field r "placering") (λ c6,
  rbind (text_field r distans_spar_label) (λ c7,
  rbind (text_field r "KM-tid") (λ c8,
  rbind (text_field r "skor") (λ c9,
  rbind (str_field r "odds") (λ c10,
  rbind (str_field r "pris") (λ c11,
  rbind (text_field r "vagn") (λ c12,
  Ok (V85History.Row c1 avd c3 c4 c5 c6 c7 c8 c9 c10 c11 c12 name)))))))))))).

(** State of a loader: the connection's view of the database and the
    local counter [imported_rows]. *)
Definition on_v85 (f : list V85.row → list V85.row) (s : db * nat) : db * nat :=
  (Db (f (v85 s.1)) (v85_history s.1), s.2).
Definition on_v85_history (f : list V85History.row → list V85History.row)
    (s : db * nat) : db * nat :=
  (Db (v85 s.1) (f (v85_history s.1)), s.2).
Definition count_row (s : db * nat) : db * nat := (s.1, S s.2).

(** The body of [for p in files] in [load_current]. *)
Definition current_file (csv_dir : gmap string entry) (p : string)
    : M (db * nat) unit :=
  match CURRENT_RE p with
  | None => raise AssertionError
  | Some (d, g) =>
      let game_date := yyyymmdd_to_iso d in
      let avd := g in
      let legacy_name := legacy_current p in
      rows ←← read_rows csv_dir p ;;
      _ ←← modify (on_v85 (V85.delete_sources p legacy_name)) ;;
      for_each rows (λ r,
        args ←← lift (current_args game_date avd p (of_csv r)) ;;
        _ ←← modify (on_v85 (V85.upsert args)) ;;
        modify count_row)
  end.

(** The body of [for p in files] in [load_history]. *)
Definition history_file (csv_dir : gmap string entry) (p : string)
    : M (db * nat) unit :=
  match HISTORY_RE p with
  | None => raise AssertionError
  | Some (_, g) =>
      let avd := g in
      let legacy_name := legacy_history p in
      rows ←← read_rows csv_dir p ;;
      _ ←← modify (on_v85_history (V85History.delete_sources p legacy_name)) ;;
      for_each rows (λ r,
        args ←← lift (history_args avd p (of_csv r)) ;;
        _ ←← modify (on_v85_history (V85History.insert args)) ;;
        modify count_row)
  end.

(** A loader: the loop over [files] with [imported_rows = 0] at the start,
    returning [(len(files), imported_rows)]. *)
Definition loader (files : list string) (body : string → M (db * nat) unit)
    : M db (nat * nat) :=
  λ con,
    match for_each files body (con, 0) with
    | (s, Ok _) => (s.1, Ok (length files, s.2))
    | (s, Raise e) => (s.1, Raise e)
    end.

Definition load_current (csv_dir : gmap string entry) : M db (nat * nat) :=
  loader (matching_files CURRENT_RE csv_dir) (current_file csv_dir).

Definition load_history (csv_dir : gmap string entry) : M db (nat * nat) :=
  loader (matching_files HISTORY_RE csv_dir) (history_file csv_dir).

(** The four counts printed at the end of [main]. *)
Record report := Report {
  cur_files : nat;
  cur_rows : nat;
  hist_files : nat;
  hist_rows : nat
}.

(** The statements under [with sqlite3.connect(db_path) as con]. *)
Definition run (csv_dir : gmap string entry) (skip_history : bool)
    : M db report :=
  c ←← load_current csv_dir ;;
  h ←← (if skip_history then ret (0, 0) else load_history csv_dir) ;;
  ret (Report c.1 c.2 h.1 h.2).

(** [main]: the stored database before the run, and after it together
    with what the run ends in.  All statements run in the transaction the
    connection opens implicitly; [con.commit()] stores the connection's
    view, and leaving the [with] block by an exception rolls it back. *)
Definition main (stored : db) (csv_dir : gmap string entry)
    (skip_history : bool) : db * result report :=
  match run csv_dir skip_history stored with
  | (con, Ok rep) => (con, Ok rep)
  | (_, Raise e) => (stored, Raise e)
  end.

(** *** The loaders on readable directories, as functions on tables *)

(** [(r.get(k) or "").strip()] on a row read from a CSV file. *)
Definition csv_text (r : gmap string (option string)) (k : string) : string :=
  strip (default "" (default None (r !! k))).

Definition current_record (game_date avd name : string)
    (r : gmap string (option string)) : V85.row :=
  V85.Row game_date avd
    (csv_text r "startnummer") (csv_text r hastnamn_label)
    (csv_text r "kusk") (csv_text r tranare_label)
    (csv_text r "v85%") (csv_text r "v-odds") (csv_text r "vagn") name.

Definition history_record (avd name : string)
    (r : gmap string (option string)) : V85History.row :=
  V85History.Row (csv_text r "datum") avd
    (csv_text r hastnamn_label) (csv_text r "bana") (csv_text r "kusk")
    (csv_text r "placering") (csv_text r distans_spar_label)
    (csv_text r "KM-tid") (csv_text r "skor")
    (csv_text r "odds") (csv_text r "pris") (csv_text r "vagn") name.

(** A file whose rows cannot be parsed as a CSV file with a header, in the
    words of the specification: reading it raises, or it has no header
    line. *)
Definition unparsable (e : entry) : Prop :=
  match e with
  | File (Raise _) => True
  | File (Ok []) => True
  | _ => False
  end.

(** A file whose rows can be read. *)
Definition readable (csv_dir : gmap string entry) (p : string) : Prop :=
  ∃ records, csv_dir !! p = Some (File (Ok records)).

Definition file_rows (csv_dir : gmap string entry) (p : string)
    : list (gmap string (option string)) :=
  match csv_dir !! p with
  | Some (File (Ok records)) => DictReader records
  | _ => []
  end.

(** The rows one Current file writes, in the order they are written. *)
Definition current_records (csv_dir : gmap string entry) (p : string)
    : list V85.row :=
  match CURRENT_RE p with
  | Some (d, g) => current_record (yyyymmdd_to_iso d) g p <$> file_rows csv_dir p
  | None => []
  end.

(** The rows one History file writes, in the order they are written. *)
Definition history_records (csv_dir : gmap string entry) (p : string)
    : list V85History.row :=
  match HISTORY_RE p with
  | Some (_, g) => history_record g p <$> file_rows csv_dir p
  | None => []
  end.

(** One file: the delete statement, then one write per row. *)
Definition import_current (csv_dir : gmap string entry) (p : string)
    (t : list V85.row) : list V85.row :=
  foldl (λ t rec, V85.upsert rec t)
        (V85.delete_sources p (legacy_current p) t)
        (current_records csv_dir p).

Definition import_history (csv_dir : gmap string entry) (p : string)
    (t : list V85History.row) : list V85History.row :=
  foldl (λ t rec, V85History.insert rec t)
        (V85History.delete_sources p (legacy_history p) t)
        (history_records csv_dir p).

Definition import_all_current (csv_dir : gmap string entry)
    (files : list string) (t : list V85.row) : list V85.row :=
  foldl (λ t p, import_current csv_dir p t) t files.

Definition import_all_history (csv_dir : gmap string entry)
    (files : list string) (t : list V85History.row) : list V85History.row :=
  foldl (λ t p, import_history csv_dir p t) t files.

(** Everything a run writes into [v85], in the order it is written. *)
Definition written_current (csv_dir : gmap string entry) : list V85.row :=
  matching_files CURRENT_RE csv_dir ≫= current_records csv_dir.

(** Everything a run writes into [v85_history], in the order it is written. *)
Definition written_history (csv_dir : gmap string entry) : list V85History.row :=
  matching_files HISTORY_RE csv_dir ≫= history_records csv_dir.

(** The effect of one file on the row stored under key [k]. *)
Definition key_step (csv_dir : gmap string entry) (k : string * string * string)
    (o : option V85.row) (p : string) : option V85.row :=
  match last (filter (λ r, V85.key r = k) (current_records csv_dir p)) with
  | Some rec => Some rec
  | None => V85.keep p (legacy_current p) o
  end.

(** A row of [v85] that no file of [files] claims, by name or by alias. *)
Definition keep_unclaimed (files : list string) (o : option V85.row)
    : option V85.row :=
  match o with
  | Some r =>
      if decide (Forall (λ p, V85.source_file r ≠ p
                              ∧ V85.source_file r ≠ legacy_current p) files)
      then Some r else None
  | None => None
  end.

(** Rows of [v85_history] no file of [files] claims, by name or by alias. *)
Definition unclaimed (files : list string) (t : list V85History.row)
    : list V85History.row :=
  filter (λ r, Forall (λ p, V85History.source_file r ≠ p
                            ∧ V85History.source_file r ≠ legacy_history p) files) t.

(** The database and the report of a run that reads every file it lists. *)
Definition run_result (stored : db) (csv_dir : gmap string entry)
    (skip_history : bool) : db * report :=
  let cur := matching_files CURRENT_RE csv_dir in
  let hist := matching_files HISTORY_RE csv_dir in
  if skip_history then
    (Db (import_all_current csv_dir cur (v85 stored)) (v85_history stored),
     Report (length cur) (length (written_current csv_dir)) 0 0)
  else
    (Db (import_all_current csv_dir cur (v85 stored))
        (import_all_history csv_dir hist (v85_history stored)),
     Report (length cur) (length (written_current csv_dir))
            (length hist) (length (written_history csv_dir))).

End Importer.

(** ** The history collector ([collect_history_rows]) *)

Module Collector.
Import Py.

(** The parts of a start of the race that the collector reads:
    [start.get("horse")], and in it [horse.get("name")], [horse.get("id")]. *)
Record horse := Horse { name : option string; id : option Z }.
Record start := Start { start_horse : option horse }.

Record row {cells : Type} := Row {
  hastnamn : string;
  datum : string;
  other : cells
}.
Arguments row : clear implicits.
Arguments Row {cells} _ _ _.

(** [l[:n]] *)
Definition slice_to {A} (n : Z) (l : list A) : list A :=
  if (0 <=? n)%Z then take (Z.to_nat n) l
  else take (length l - Z.to_nat (- n)) l.

(** Newest first: no row is followed by a row with a later date. *)
Definition newest_first {cells} (a b : row cells) : Prop :=
  String.le (datum b) (datum a).

Section collect.
(** One element of [results["records"]] with its ["date"]; the nine other
    cells of an output row are formatted from it by the [fmt_*] helpers. *)
Context {record cells : Type}.
Variable date : record → string.
Variable fmt : record → cells.
(** [fetch_json(HORSE_RESULTS_URL.format(horse_id=horse_id)).get("records", [])] *)
Variable fetch_records : Z → list record.

(** Where [x] goes in a list already sorted newest first: before the first
    row that is not strictly newer. *)
Fixpoint insert_desc (x : row cells) (l : list (row cells)) : list (row cells) :=
  match l with
  | [] => [x]
  | y :: l' =>
      if String.ltb (datum x) (datum y) then y :: insert_desc x l' else x :: l
  end.

(** [horse_rows.sort(key=lambda r: r["datum"], reverse=True)]: a stable
    sort, rows with equal dates keep their order. *)
Definition sort_newest_first (l : list (row cells)) : list (row cells) :=
  foldr insert_desc [] l.

(** The name and id under which a start is collected; [None] where the loop
    body ends in [continue]. *)
Definition resolve (st : start) : option (string * Z) :=
  let horse := default (Horse None None) (start_horse st) in
  let horse_name := strip (default "" (name horse)) in
  match id horse with
  | None => None
  | Some horse_id =>
      if (horse_id =? 0)%Z then None
      else Some (if decide (horse_name = "")
                 then "horse_" +:+ str_int horse_id else horse_name,
                 horse_id)
  end.

(** [horse_rows] as filled by the inner loop, before it is sorted. *)
Definition horse_rows (st : start) : option (string * list (row cells)) :=
  '(horse_name, horse_id) ← resolve st;
  Some (horse_name,
        (λ rec, Row horse_name (date rec) (fmt rec)) <$> fetch_records horse_id).

Definition by_horse (race : list start) (max_history_per_horse : Z)
    : gmap string (list (row cells)) :=
  foldl (λ m st,
           match horse_rows st with
           | None => m
           | Some (horse_name, rows) =>
               <[horse_name :=
                   slice_to max_history_per_horse (sort_newest_first rows)]> m
           end) ∅ race.

Definition collect_history_rows (race : list start)
    (max_history_per_horse : Z) : list (row cells) :=
  let m := by_horse race max_history_per_horse in
  merge_sort String.le (map_to_list m).*1 ≫= (λ horse_name, m !!! horse_name).

(** The retention policy in the words of the specification: every horse of
    the race keeps the first [n] of its rows sorted newest first, and the
    horses come in ascending order of name. *)
Definition horses (race : list start) : list (string * list (row cells)) :=
  omap horse_rows race.

Definition retention_policy (race : list start) (n : nat)
    (out : list (row cells)) : Prop :=
  ∃ hs, hs ≡ₚ horses race
        ∧ Sorted (λ a b, String.le a.1 b.1) hs
        ∧ out = hs ≫= (λ h, take n (sort_newest_first h.2)).

End collect.

End Collector.

(** ** Concrete inputs used to exercise the embedding *)

Module Fixture.
Import Py Exc Norm Naming Importer.

Definition current_name : string := "v85_20260101_1.csv".
Definition history_name : string := "v85_history_20260101_1.csv".

(** A name that ends in a line feed after [.csv]. *)
Definition newline_name : string := "v85_20260101_1.csv" +:+ String newline "".

(** A Current file: the header, a row that stops before the last column,
    and a blank line. *)
Definition current_csv : list (list string) :=
  [ [ "startnummer"; hastnamn_label; "kusk"; "v-odds"; "vagn" ];
    [ "1"; " Odin "; "A Kusk"; "3.50" ];
    [] ].

(** A History file with twice the same result. *)
Definition history_csv : list (list string) :=
  [ [ hastnamn_label; "datum"; "placering" ];
    [ "Odin"; "2025-12-24"; "1" ];
    [ "Odin"; "2025-12-24"; "1" ] ].

Definition odin : gmap string (option string) :=
  {[ "startnummer" := Some "1"; hastnamn_label := Some " Odin ";
     "kusk" := Some "A Kusk"; "v-odds" := Some "3.50"; "vagn" := None ]}.


Definition csv_dir : gmap string entry :=
  {[ current_name := File (Ok current_csv);
     history_name := File (Ok history_csv);
     "notes.txt" := File (Raise ReadError);
     "v85_20260101_9.csv" := Dir ]}.

(** A database left by earlier imports: Odin at 3.00 filed under another
    file, Thor filed under the legacy name of [current_name], and one
    history row filed under the legacy name of [history_name]. *)
Definition stored : db :=
  Db [ V85.Row "2026-01-01" "1" "1" "Odin" "" "" "" "3.00" "" "older.csv";
       V85.Row "2026-01-01" "1" "2" "Thor" "" "" "" "9.00" ""
               "v86_20260101_1.csv" ]
     [ V85History.Row "2025-11-01" "1" "Odin" "" "" "3" "" "" "" "" "" ""
                      "v86_history_20260101_1.csv" ].

Definition odin_written : V85.row :=
  V85.Row "2026-01-01" "1" "1" "Odin" "A Kusk" "" "" "3.50" "" current_name.

Definition odin_result_written : V85History.row :=
  V85History.Row "2025-12-24" "1" "Odin" "" "" "1" "" "" "" "" "" ""
                 history_name.

(** Two History files, of two race days, with a result of the same horse. *)
Definition two_history_dir : gmap string entry :=
  {[ history_name := File (Ok history_csv);
     "v85_history_20260108_1.csv" := File (Ok history_csv) ]}.

(** A directory whose only file is recognised and empty. *)
Definition empty_file_dir : gmap string entry :=
  {[ current_name := File (Ok []) ]}.

(** The same directory with a History file that cannot be read. *)
Definition broken_dir : gmap string entry :=
  <[ history_name := File (Raise ReadError) ]> csv_dir.

(** A history row with numbers where the API gave numbers. *)
Definition numeric_result : gmap string pyval :=
  {[ hastnamn_label := PStr "Odin"; "placering" := PInt 2;
     "odds" := PInt 0; "pris" := PInt 50000 ]}.

(** Two starts of different horses (ids 1 and 2) under one name. *)
Definition same_name_race : list Collector.start :=
  [ Collector.Start (Some (Collector.Horse (Some "Ada") (Some 1%Z)));
    Collector.Start (Some (Collector.Horse (Some "Ada") (Some 2%Z))) ].

Definition same_name_fetch (horse_id : Z) : list string :=
  if (horse_id =? 1)%Z then ["2026-01-02"] else ["2026-01-01"].

(** One horse with eight results on eight days, not in order. *)
Definition one_horse_race : list Collector.start :=
  [ Collector.Start (Some (Collector.Horse (Some " Odin ") (Some 7%Z))) ].

Definition eight_days (horse_id : Z) : list string :=
  [ "2026-01-03"; "2026-01-08"; "2026-01-01"; "2026-01-06";
    "2026-01-02"; "2026-01-07"; "2026-01-05"; "2026-01-04" ].

Definition no_cells (rec : string) : unit := tt.

End Fixture.

(** ** Names under which the two fetch scripts write by default *)

Module Fetch.
Import Py.

(** [f"v86_{game_date}_{args.avd}.csv"] in [main] of [get_v85.py]. *)
Definition default_current_name (game_date : string) (avd : Z) : string :=
  "v86_" +:+ game_date +:+ "_" +:+ str_int avd +:+ ".csv".

(** [f"v86_history_{timestamp}.csv"] in [main] of [get_v85_history.py]. *)
Definition default_history_name (timestamp : string) : string :=
  "v86_history_" +:+ timestamp +:+ ".csv".

End Fetch.

(** ** Shapes of the columns the importer fills *)

Module Shape.
Import Py.

(** Ten characters with a hyphen in the fifth and in the eighth place,
    as [yyyymmdd_to_iso] makes them of the eight characters of a date. *)
Definition dashed_date (s : string) : bool :=
  match list_ascii_of_string s with
  | [_; _; _; _; h1; _; _; h2; _; _] => Ascii.eqb h1 "-" && Ascii.eqb h2 "-"
  | _ => false
  end.

(** One character, a digit from 1 to 8. *)
Definition division (s : string) : bool :=
  match s with
  | String c EmptyString => is_1_8 c
  | _ => false
  end.

(** Neither the first nor the last character is white space. *)
Definition trimmed (s : string) : bool :=
  match first_char s, last_char s with
  | Some a, Some b => negb (is_space a) && negb (is_space b)
  | _, _ => true
  end.

(** Two names of which one is the other followed by one line feed. *)
Definition twins (n1 n2 : string) : Prop :=
  n1 = n2 +:+ String newline EmptyString
  ∨ n2 = n1 +:+ String newline EmptyString.

End Shape.

(** ** The order in which the collector returns its rows *)

Module Output.
Import Collector.

(** Names ascending, and newest first within a name. *)
Definition output_order {cells} (a b : row cells) : Prop :=
  String.le (hastnamn a) (hastnamn b)
  ∧ (hastnamn a = hastnamn b → String.le (datum b) (datum a)).

End Output.

(** ** Decimal numerals *)

Module Numeral.
Import Py.

(** The number a string of decimal digits stands for, read from the left
    with [acc] for the digits already read; [None] when another character
    occurs. *)
Fixpoint digits_value (acc : N) (s : string) : option N :=
  match s with
  | EmptyString => Some acc
  | String c s' =>
      if is_digit c
      then digits_value (10 * acc + N.of_nat (code c - 48)) s'
      else None
  end.

Definition value (s : string) : option N :=
  match s with
  | EmptyString => None
  | _ => digits_value 0 s
  end.



End Numeral.

(** ** The normaliser in the words of the specification *)

Module NormClaim.
Import Py Exc Norm Importer.


End NormClaim.

(** ** Races and directories for further checks *)

Module MoreFixture.
Import Py Exc Norm Importer.

(** Two horses, listed [ada] first, with two and three results. *)
Definition two_horse_race : list Collector.start :=
  [ Collector.Start (Some (Collector.Horse (Some "ada") (Some 4%Z)));
    Collector.Start (Some (Collector.Horse (Some "Zeus") (Some 3%Z))) ].

Definition two_horse_fetch (horse_id : Z) : list string :=
  if (horse_id =? 3)%Z then ["2026-01-02"; "2026-01-09"; "2026-01-05"]
  else ["2026-01-03"; "2026-01-10"].

(** A Current file of another race day and division. *)
Definition thor_csv : list (list string) :=
  [ [ "startnummer"; hastnamn_label; "v-odds" ];
    [ "2"; "Thor"; "9.00" ] ].

Definition later_history_csv : list (list string) :=
  [ [ hastnamn_label; "datum"; "placering" ];
    [ "Thor"; "2025-12-31"; "4" ] ].

(** Two Current files and two History files, each with a row. *)
Definition two_by_two_dir : gmap string entry :=
  {[ Fixture.current_name := File (Ok Fixture.current_csv);
     "v85_20260108_2.csv" := File (Ok thor_csv);
     Fixture.history_name := File (Ok Fixture.history_csv);
     "v85_history_20260108_1.csv" := File (Ok later_history_csv) ]}.

(** A history row with a number under a column that is not passed
    through [str]. *)
Definition numeric_driver : gmap string pyval :=
  {[ hastnamn_label := PStr "Odin"; "kusk" := PInt 7 ]}.

End MoreFixture.

(** ** How a call of the fetch and display scripts ends *)

Module Outcome.

Inductive failure :=
| RuntimeError
| ValueError
| TypeError
| IndexError.

Inductive outcome (A : Type) :=
| Returns (a : A)
| Raises (e : failure).
Arguments Returns {A} _.
Arguments Raises {A} _.

Definition obind {A B} (m : outcome A) (k : A → outcome B) : outcome B :=
  match m with Returns a => k a | Raises e => Raises e end.

(** A comprehension whose element expression can raise. *)
Fixpoint mapM {A B} (f : A → outcome B) (l : list A) : outcome (list B) :=
  match l with
  | [] => Returns []
  | x :: l' =>
      obind (f x) (λ y, obind (mapM f l') (λ ys, Returns (y :: ys)))
  end.

(** A loop that updates [s] and whose body can raise. *)
Fixpoint foldM {A S} (f : S → A → outcome S) (l : list A) (s : S) : outcome S :=
  match l with
  | [] => Returns s
  | x :: l' => obind (f s x) (foldM f l')
  end.

End Outcome.

(** ** Values decoded from the JSON answers of the racing API *)

Module Json.

(** What [json.loads] returns: [None], [bool], [int], [float], [str],
    [list], and [dict] given by its items (one per key). *)
#[warnings="-register-all"]
Inductive value :=
| JNull
| JBool (b : bool)
| JInt (z : Z)
| JFloat (f : spec_float)
| JStr (s : string)
| JList (l : list value)
| JDict (d : list (string * value)).

(** Truth value of [v], as tested by [not], [or] and [if]. *)
Definition truthy (v : value) : bool :=
  match v with
  | JNull => false
  | JBool b => b
  | JInt z => negb (z =? 0)%Z
  | JFloat (S754_zero _) => false
  | JFloat _ => true
  | JStr s => negb (String.eqb s "")
  | JList l => match l with [] => false | _ => true end
  | JDict d => match d with [] => false | _ => true end
  end.

Fixpoint assoc (k : string) (d : list (string * value)) : option value :=
  match d with
  | [] => None
  | (k', v) :: d' => if String.eqb k' k then Some v else assoc k d'
  end.

(** [d.get(k)] on a [dict]. *)
Definition get (d : list (string * value)) (k : string) : value :=
  default JNull (assoc k d).

End Json.

(** ** Choosing the game, in both fetch scripts *)

Module Game.
Import Outcome Json.

(** A [datetime]: the microseconds on its wall clock since the start of
    the calendar, and its offset from UTC in microseconds, [None] for a
    naive one. *)
Record datetime := Datetime {
  wall : Z;
  utcoffset : option Z
}.

(** [dt.date()], as a day number. *)
Definition date_of (dt : datetime) : Z := (wall dt / 86400000000)%Z.

(** [a < b]: naive with naive by the wall clock, aware with aware by the
    instant, and a [TypeError] for one of each. *)
Definition lt (a b : datetime) : outcome bool :=
  match utcoffset a, utcoffset b with
  | None, None => Returns (wall a <? wall b)%Z
  | Some oa, Some ob => Returns (wall a - oa <? wall b - ob)%Z
  | _, _ => Raises TypeError
  end.

Definition game : Type := list (string * value).

Section choose.
(** [datetime.fromisoformat], [None] where it raises [ValueError], and
    [date.today()] as a day number. *)
Variable fromisoformat : string → option datetime.
Variable today : Z.

(** One pass of the loop over [upcoming]: what is appended to
    [candidates], if anything. *)
Definition candidate (item : game) : outcome (option (datetime * game)) :=
  let start := get item "startTime" in
  if negb (truthy start) then Returns None
  else
    match start with
    | JStr s =>
        match fromisoformat s with
        | Some dt =>
            Returns (if (today <=? date_of dt)%Z then Some (dt, item) else None)
        | None => Raises ValueError
        end
    | _ => Raises TypeError
    end.

Fixpoint candidates (upcoming : list game) : outcome (list (datetime * game)) :=
  match upcoming with
  | [] => Returns []
  | item :: rest =>
      obind (candidate item) (λ c,
      obind (candidates rest) (λ cs, Returns (option_list c ++ cs)))
  end.

(** Where [x] goes in a list sorted in ascending order, when [x] stood
    before all of it: after the elements smaller than [x]. *)
Fixpoint insert_asc (x : datetime * game) (l : list (datetime * game))
    : outcome (list (datetime * game)) :=
  match l with
  | [] => Returns [x]
  | y :: l' =>
      obind (lt y.1 x.1) (λ smaller,
        if smaller then obind (insert_asc x l') (λ r, Returns (y :: r))
        else Returns (x :: l))
  end.

(** [candidates.sort(key=lambda x: x[0])]: a stable sort by [<] on the
    keys; the exception of a comparison is passed on. *)
Definition sort (l : list (datetime * game)) : outcome (list (datetime * game)) :=
  foldr (λ x acc, obind acc (insert_asc x)) (Returns []) l.

(** A game that starts today or later, with its start time: the items
    the loop appends to [candidates]. *)
Definition from_today (item : game) (dt : datetime) : Prop :=
  ∃ s, get item "startTime" = JStr s ∧ s ≠ ""
       ∧ fromisoformat s = Some dt ∧ (today ≤ date_of dt)%Z.

(** [candidates[0][1]] *)
Definition first_game (l : list (datetime * game)) : outcome game :=
  match l with
  | c :: _ => Returns c.2
  | [] => Raises IndexError
  end.

End choose.

End Game.

Module GetV85.
Import Outcome Json Game.

(** [choose_game_from_today] of [get_v85.py]. *)
Definition choose_game_from_today (fromisoformat : string → option datetime)
    (today : Z) (upcoming : list game) : outcome game :=
  obind (candidates fromisoformat today upcoming) (λ cands,
    match cands with
    | [] => Raises RuntimeError
    | _ => obind (sort cands) first_game
    end).

End GetV85.

Module GetV85History.
Import Outcome Json Game.

(** [choose_game_from_today] of [get_v85_history.py]. *)
Definition choose_game_from_today (fromisoformat : string → option datetime)
    (today : Z) (upcoming : list game) : outcome game :=
  obind (candidates fromisoformat today upcoming) (λ cands,
    match cands with
    | [] =>
        match upcoming with
        | [] => Raises RuntimeError
        | first :: _ => Returns first
        end
    | _ => obind (sort cands) first_game
    end).

End GetV85History.

(** ** Games for the checks of the choice *)

Module GameFixture.
Import Outcome Json Game.

(** The start times the checks use, naive as the API gives them; every
    other text is rejected. *)
Definition fromisoformat (s : string) : option datetime :=
  if String.eqb s "2026-02-14T16:10:00"
  then Some (Datetime 63906768600000000 None)
  else if String.eqb s "2026-02-21T16:10:00"
  then Some (Datetime 63907373400000000 None)
  else if String.eqb s "2026-02-28T16:10:00"
  then Some (Datetime 63907978200000000 None)
  else None.

(** 2026-02-20 as a day number. *)
Definition today : Z := 739667.

Definition past_game : game :=
  [("id", JStr "V85_2026-02-14_7_5"); ("startTime", JStr "2026-02-14T16:10:00")].
Definition next_game : game :=
  [("id", JStr "V85_2026-02-21_5_5"); ("startTime", JStr "2026-02-21T16:10:00")].
Definition later_game : game :=
  [("id", JStr "V85_2026-02-28_8_5"); ("startTime", JStr "2026-02-28T16:10:00")].
Definition broken_game : game :=
  [("id", JStr "V85_2026-03-07_6_5"); ("startTime", JStr "soon")].

End GameFixture.

(** ** The table printed by [show_db.py] *)

Module ShowDb.
Import Py Outcome.

(** [c * n] for a string [c] of one character. *)
Fixpoint repeat_char (c : ascii) (n : nat) : string :=
  match n with
  | O => EmptyString
  | S n' => String c (repeat_char c n')
  end.

(** [s.ljust(w)] *)
Definition ljust (s : string) (w : nat) : string :=
  s +:+ repeat_char " " (w - String.length s).

(** [sep.join(parts)] *)
Fixpoint join (sep : string) (parts : list string) : string :=
  match parts with
  | [] => EmptyString
  | s :: rest =>
      match rest with
      | [] => s
      | _ => s +:+ sep +:+ join sep rest
      end
  end.

Definition nl : string := String newline EmptyString.

Section format_rows.
(** A [sqlite3.Row] through what [format_rows] uses of it: [r.keys()], and
    [r[c]] which gives the value of a column, [None] for NULL, or raises
    [IndexError]; and [str] on the values of the cells. *)
Context {row V : Type}.
Variable keys : row → list string.
Variable item : row → string → outcome (option V).
Variable str : V → string.

(** [str(r[c] if r[c] is not None else "")] *)
Definition cell (r : row) (c : string) : outcome string :=
  obind (item r c) (λ v,
    Returns (match v with Some x => str x | None => EmptyString end)).

(** [widths[c] = max(widths[c], len(str(...)))] *)
Definition widen (r : row) (widths : gmap string nat) (c : string)
    : outcome (gmap string nat) :=
  obind (cell r c) (λ s,
    Returns (<[c := (widths !!! c) `max` String.length s]> widths)).

Definition format_rows (rows : list row) : outcome string :=
  match rows with
  | [] => Returns "(inga rader)"
  | first :: _ =>
      let cols := keys first in
      let widths0 := foldl (λ w c, <[c := String.length c]> w) ∅ cols in
      obind (foldM (λ w r, foldM (widen r) cols w) rows widths0) (λ widths,
      let sep := " | " in
      let header := join sep ((λ c, ljust c (widths !!! c)) <$> cols) in
      let line := join "-+-" ((λ c, repeat_char "-" (widths !!! c)) <$> cols) in
      obind (mapM (λ r,
               obind (mapM (λ c,
                        obind (cell r c) (λ s,
                          Returns (ljust s (widths !!! c)))) cols)
                     (λ parts, Returns (join sep parts))) rows) (λ lines,
      let body := join nl lines in
      Returns (header +:+ nl +:+ line +:+ nl +:+ body)))
  end.

End format_rows.

End ShowDb.

(** ** Rows for the checks of the table *)

Module ShowFixture.
Import Py Outcome ShowDb.

Definition row : Type := list (string * option string).

Definition keys (r : row) : list string := r.*1.

Fixpoint item (r : row) (c : string) : outcome (option string) :=
  match r with
  | [] => Raises IndexError
  | (k, v) :: r' => if String.eqb k c then Returns v else item r' c
  end.

Definition two_rows : list row :=
  [ [("id", Some "2"); ("hastnamn", Some "Odin"); ("vagn", None)];
    [("id", Some "1"); ("hastnamn", Some "Thor"); ("vagn", Some "Vanlig")] ].

Definition two_rows_table : string :=
  "id | hastnamn | vagn  " +:+ nl +:+
  "---+----------+-------" +:+ nl +:+
  "2  | Odin     |       " +:+ nl +:+
  "1  | Thor     | Vanlig".

End ShowFixture.

(** ** Sanity checks of the embedding on concrete inputs *)

Example ex_current_re :
Naming.CURRENT_RE "v85_20260101_1.csv" = Some ("20260101", "1").
Proof. reflexivity. Qed.

Example ex_classify :
Naming.classify "v85_20261399_8.csv" = Naming.Current "2026-13-99" "8" "v86_20261399_8.csv".
Proof. reflexivity. Qed.

Example ex_classify_h :
Naming.classify "v85_history_20260101_3.csv" = Naming.History "3" "v86_history_20260101_3.csv".
Proof. reflexivity. Qed.

Example ex_classify_nl :
Naming.classify ("v85_20260101_1.csv" +:+ String Py.newline "")
= Naming.Current "2026-01-01" "1" ("v86_20260101_1.csv" +:+ String Py.newline "").
Proof. reflexivity. Qed.

Example ex_str_int : Py.str_int 120 = "120" /\ Py.str_int 0 = "0" /\ Py.str_int (-7) = "-7".
Proof. repeat split; reflexivity. Qed.

Example ex_strip : Py.strip "  a b  " = "a b".
Proof. reflexivity. Qed.

(** ** Facts about the string primitives *)

Section py_facts.
Import Py.
Implicit Types s p r : string.

Lemma app_cons c s r : String c s +:+ r = String c (s +:+ r).
Proof. reflexivity. Qed.

Lemma app_empty_l s : "" +:+ s = s.
Proof. reflexivity. Qed.

Lemma strip_prefix_app p r : strip_prefix p (p +:+ r) = Some r.
Proof.
  induction p as [|a p IH]; [done|].
  rewrite app_cons. simpl. by rewrite Ascii.eqb_refl.
Qed.

Lemma strip_prefix_Some p s r : strip_prefix p s = Some r ↔ s = p +:+ r.
Proof.
  split; [|intros ->; apply strip_prefix_app].
  revert s. induction p as [|a p IH]; intros s; simpl.
  - by intros [= ->].
  - destruct s as [|b s]; [done|].
    destruct (Ascii.eqb a b) eqn:E; [|done].
    apply Ascii.eqb_eq in E as ->. intros H%IH. by rewrite H.
Qed.

Lemma substring_drop n s :
  String.length (substring 0 n s) = n → s = substring 0 n s +:+ drop_chars n s.
Proof.
  revert s. induction n as [|n IH]; intros [|c s]; simpl; try done.
  intros [= H]. rewrite app_cons. f_equal. by apply IH.
Qed.

Lemma substring_app_length s r :
  substring 0 (String.length s) (s +:+ r) = s.
Proof.
  induction s as [|c s IH]; simpl.
  - by destruct r.
  - rewrite ?app_cons. by f_equal.
Qed.

Lemma drop_app_length s r : drop_chars (String.length s) (s +:+ r) = r.
Proof. induction s as [|c s IH]; [done|]. by rewrite app_cons. Qed.

Lemma take_digits_Some n s d r :
  take_digits n s = Some (d, r) ↔
  s = d +:+ r ∧ String.length d = n ∧ all_digits d = true.
Proof.
  unfold take_digits. split.
  - destruct (String.length (substring 0 n s) =? n)%nat eqn:E; [|done].
    destruct (all_digits (substring 0 n s)) eqn:E'; [|done].
    apply Nat.eqb_eq in E. intros [= <- <-].
    split_and!; [by apply substring_drop|done..].
  - intros (-> & <- & Hd).
    rewrite substring_app_length, drop_app_length, Nat.eqb_refl, Hd. done.
Qed.

Lemma take_1_8_Some s g r :
  take_1_8 s = Some (g, r) ↔
  ∃ c, g = String c "" ∧ s = g +:+ r ∧ is_1_8 c = true.
Proof.
  unfold take_1_8. split.
  - destruct s as [|c s]; [done|]. destruct (is_1_8 c) eqn:E; [|done].
    intros [= <- <-]. by exists c.
  - intros (c & -> & -> & Hc). rewrite app_cons, app_empty_l. by rewrite Hc.
Qed.

Lemma at_dollar_true s : at_dollar s = true ↔ s = "" ∨ s = String newline "".
Proof.
  destruct s as [|c [|c' s]]; simpl.
  - split; [by left|done].
  - rewrite Ascii.eqb_eq. split; [intros ->; by right|].
    intros [?|[= ->]]; done.
  - split; [done|]. intros [?|?]; done.
Qed.

(** With [old] at the start of [s], [s.replace(old, new, 1)] swaps that
    occurrence and keeps everything after it. *)
Lemma replace_first_prefix old new r :
  replace_first old new (old +:+ r) = new +:+ r.
Proof.
  destruct (old +:+ r) eqn:E; simpl;
    rewrite <- E, strip_prefix_app; done.
Qed.

Lemma is_space_lstrip_head s c r : lstrip s = String c r → is_space c = false.
Proof.
  induction s as [|a s IH]; simpl; [done|].
  destruct (is_space a) eqn:E; [done|]. by intros [= <- <-].
Qed.

Lemma rstrip_last s c : last_char (rstrip s) = Some c → is_space c = false.
Proof.
  induction s as [|a s IH]; simpl; [done|].
  destruct (rstrip s) as [|b r] eqn:E.
  - destruct (is_space a) eqn:Ea; simpl; [done|]. by intros [= <-].
  - simpl in *. done.
Qed.

Lemma rstrip_head s c r :
  first_char s = Some c → is_space c = false → first_char (rstrip s) = Some c.
Proof.
  destruct s as [|a s]; simpl; [done|]. intros [= ->] Hc.
  destruct (rstrip s); by rewrite ?Hc.
Qed.

Lemma lstrip_split s : ∃ w, s = w +:+ lstrip s ∧ all_space w = true.
Proof.
  induction s as [|a s (w & IH & Hw)]; simpl.
  - by exists "".
  - destruct (is_space a) eqn:E.
    + exists (String a w). rewrite app_cons, <- IH. simpl. by rewrite E, Hw.
    + by exists "".
Qed.

Lemma rstrip_split s : ∃ w, s = rstrip s +:+ w ∧ all_space w = true.
Proof.
  induction s as [|a s (w & IH & Hw)]; simpl.
  - by exists "".
  - destruct (rstrip s) as [|b r] eqn:E.
    + destruct (is_space a) eqn:Ea.
      * exists (String a w). rewrite app_empty_l in *. subst s.
        simpl. by rewrite Ea, Hw.
      * exists w. rewrite app_cons, app_empty_l in *. by subst s.
    + exists w. rewrite app_cons, <- IH. done.
Qed.

(** [strip] removes a run of white space at each end and nothing else,
    and what is left neither starts nor ends with white space. *)
Lemma strip_spec s :
  (∃ w1 w2, s = w1 +:+ strip s +:+ w2
            ∧ all_space w1 = true ∧ all_space w2 = true)
  ∧ (∀ c, first_char (strip s) = Some c → is_space c = false)
  ∧ (∀ c, last_char (strip s) = Some c → is_space c = false).
Proof.
  unfold strip. split_and!.
  - destruct (lstrip_split s) as (w1 & H1 & Hw1).
    destruct (rstrip_split (lstrip s)) as (w2 & H2 & Hw2).
    exists w1, w2. by rewrite <- H2, <- H1.
  - intros c Hc. destruct (lstrip s) as [|a r] eqn:E; [done|].
    pose proof (is_space_lstrip_head _ _ _ E) as Ha.
    rewrite (rstrip_head (String a r) a r) in Hc by done.
    by injection Hc as <-.
  - intros c. apply rstrip_last.
Qed.

Lemma strip_empty : strip "" = "".
Proof. reflexivity. Qed.

End py_facts.

(** ** Facts about the naming resolver *)

Section naming_facts.
Import Py Naming.
Implicit Types name d g tail : string.

Lemma date_div_csv_Some s d g :
  date_div_csv s = Some (d, g) ↔
  ∃ tail, s = d +:+ "_" +:+ g +:+ ".csv" +:+ tail ∧ tail_shape d g tail.
Proof.
  unfold date_div_csv, tail_shape. split.
  - intros H.
    apply bind_Some in H as ([d' s1] & E1 & H).
    apply take_digits_Some in E1 as (-> & Hlen & Hd).
    apply bind_Some in H as (s2 & E2 & H).
    apply strip_prefix_Some in E2 as ->.
    apply bind_Some in H as ([g' s3] & E3 & H).
    apply take_1_8_Some in E3 as (c & -> & -> & Hc).
    apply bind_Some in H as (s4 & E4 & H).
    apply strip_prefix_Some in E4 as ->.
    destruct (at_dollar s4) eqn:E5; [|done].
    apply at_dollar_true in E5. injection H as <- <-.
    exists s4. split_and!; eauto.
  - intros (tail & -> & Hlen & Hd & (c & -> & Hc) & Htail).
    apply bind_Some. eexists (d, _). split; [by apply take_digits_Some|].
    apply bind_Some. eexists. split; [apply strip_prefix_app|].
    apply bind_Some. eexists (String c "", _). split.
    { apply take_1_8_Some. by exists c. }
    apply bind_Some. eexists. split; [apply strip_prefix_app|].
    apply at_dollar_true in Htail. by rewrite Htail.
Qed.

Lemma CURRENT_RE_Some name d g :
  CURRENT_RE name = Some (d, g) ↔
  ∃ tail, name = "v85_" +:+ d +:+ "_" +:+ g +:+ ".csv" +:+ tail
          ∧ tail_shape d g tail.
Proof.
  unfold CURRENT_RE. split.
  - destruct (strip_prefix "v85_" name) as [r|] eqn:E; simpl; [|done].
    apply strip_prefix_Some in E as ->.
    intros (tail & -> & H)%date_div_csv_Some. by exists tail.
  - intros (tail & -> & H). rewrite strip_prefix_app. simpl.
    apply date_div_csv_Some. by exists tail.
Qed.

Lemma HISTORY_RE_Some name d g :
  HISTORY_RE name = Some (d, g) ↔
  ∃ tail, name = "v85_history_" +:+ d +:+ "_" +:+ g +:+ ".csv" +:+ tail
          ∧ tail_shape d g tail.
Proof.
  unfold HISTORY_RE. split.
  - destruct (strip_prefix "v85_history_" name) as [r|] eqn:E; simpl; [|done].
    apply strip_prefix_Some in E as ->.
    intros (tail & -> & H)%date_div_csv_Some. by exists tail.
  - intros (tail & -> & H). rewrite strip_prefix_app. simpl.
    apply date_div_csv_Some. by exists tail.
Qed.

Lemma CURRENT_RE_prefix name :
  is_Some (CURRENT_RE name) → ∃ r, name = "v85_" +:+ r.
Proof.
  intros [[d g] (tail & -> & _)%CURRENT_RE_Some]. eauto.
Qed.

Lemma HISTORY_RE_prefix name :
  is_Some (HISTORY_RE name) → ∃ r, name = "v85_history_" +:+ r.
Proof.
  intros [[d g] (tail & -> & _)%HISTORY_RE_Some]. eauto.
Qed.

(** The alias of a recognised name has the legacy token where the name
    has the active one and is the same everywhere else. *)
Lemma legacy_current_prefix r :
  legacy_current ("v85_" +:+ r) = "v86_" +:+ r.
Proof. apply replace_first_prefix. Qed.

Lemma legacy_history_prefix r :
  legacy_history ("v85_history_" +:+ r) = "v86_history_" +:+ r.
Proof. apply replace_first_prefix. Qed.

(** No alias is itself the name of a file a loader picks up. *)
Lemma legacy_current_fresh n1 n2 :
  is_Some (CURRENT_RE n1) → is_Some (CURRENT_RE n2) → legacy_current n2 ≠ n1.
Proof.
  intros [r1 ->]%CURRENT_RE_prefix [r2 ->]%CURRENT_RE_prefix.
  rewrite legacy_current_prefix. discriminate.
Qed.

Lemma legacy_history_fresh n1 n2 :
  is_Some (HISTORY_RE n1) → is_Some (HISTORY_RE n2) → legacy_history n2 ≠ n1.
Proof.
  intros [r1 ->]%HISTORY_RE_prefix [r2 ->]%HISTORY_RE_prefix.
  rewrite legacy_history_prefix. discriminate.
Qed.

(** A name matches at most one of the two patterns. *)
Lemma CURRENT_HISTORY_disjoint name :
  is_Some (CURRENT_RE name) → HISTORY_RE name = None.
Proof.
  intros [[d g] (tail & -> & Hlen & Hd & _)%CURRENT_RE_Some].
  destruct d as [|c d]; [done|].
  unfold HISTORY_RE. simpl.
  destruct c as [[] [] [] [] [] [] [] []]; try done.
Qed.

Lemma yyyymmdd_to_iso_slices (y m dd : string) :
  String.length y = 4 → String.length m = 2 → String.length dd = 2 →
  yyyymmdd_to_iso (y +:+ m +:+ dd) = y +:+ "-" +:+ m +:+ "-" +:+ dd.
Proof.
  intros Hy Hm Hd.
  destruct y as [|y1 [|y2 [|y3 [|y4 [|]]]]]; try done.
  destruct m as [|m1 [|m2 [|]]]; try done.
  destruct dd as [|d1 [|d2 [|]]]; done.
Qed.

End naming_facts.

(** ** Facts about the [v85] table *)

Section v85_facts.
Import V85.
Implicit Types (t : list row) (r new old : row) (k : string * string * string).

Lemma do_update_same_key old new : key old = key new → do_update old new = new.
Proof.
  destruct old, new. unfold key, do_update. simpl. by intros [= -> -> ->].
Qed.

Lemma upsert_keys new t :
  key <$> upsert new t
  = if decide (key new ∈ key <$> t) then key <$> t else (key <$> t) ++ [key new].
Proof.
  induction t as [|old t IH].
  - simpl. destruct (decide (key new ∈ [])) as [H|H]; [|done].
    by apply elem_of_nil in H.
  - cbn [upsert]. destruct (decide (key old = key new)) as [E|E].
    + rewrite decide_True by (rewrite fmap_cons, E; left). done.
    + rewrite !fmap_cons, IH. destruct (decide (key new ∈ key <$> t)) as [H|H].
      * rewrite decide_True by by right. done.
      * rewrite decide_False; [done|].
        intros [?|?]%elem_of_cons; congruence.
Qed.

Lemma unique_upsert new t : unique t → unique (upsert new t).
Proof.
  unfold unique. rewrite upsert_keys. intros H.
  destruct (decide _) as [|Hn]; [done|].
  apply NoDup_app. split_and!; [done| |apply NoDup_singleton].
  intros k Hk ->%list_elem_of_singleton. done.
Qed.

Lemma unique_delete_sources a b t : unique t → unique (delete_sources a b t).
Proof.
  unfold unique, delete_sources. intros H.
  eapply sublist_NoDup; [done|]. apply fmap_sublist, sublist_filter.
Qed.

Lemma find_key_upsert k new t :
  find_key k (upsert new t)
  = if decide (key new = k) then Some new else find_key k t.
Proof.
  induction t as [|old t IH]; simpl.
  - done.
  - destruct (decide (key old = key new)) as [E|E]; simpl.
    + rewrite (do_update_same_key _ _ E), E. by destruct (decide (key new = k)).
    + rewrite IH.
      destruct (decide (key old = k)), (decide (key new = k)); congruence.
Qed.

Lemma find_key_Some k t r : find_key k t = Some r → r ∈ t ∧ key r = k.
Proof.
  induction t as [|x t IH]; simpl; [done|].
  destruct (decide (key x = k)).
  - intros [= <-]. split; [left|done].
  - intros [??]%IH. split; [by right|done].
Qed.

Lemma find_key_None k t : find_key k t = None ↔ k ∉ key <$> t.
Proof.
  induction t as [|x t IH]; simpl.
  - split; [intros _; apply not_elem_of_nil|done].
  - rewrite not_elem_of_cons.
    destruct (decide (key x = k)) as [E|E].
    + split; [done|]. intros [? _]. congruence.
    + rewrite IH. split; [intros ?; split; [congruence|done]|by intros [_ ?]].
Qed.

Lemma find_key_elem_of t r : unique t → r ∈ t → find_key (key r) t = Some r.
Proof.
  unfold unique. induction t as [|x t IH]; simpl.
  - by intros _ ?%elem_of_nil.
  - intros [Hx Ht]%NoDup_cons [->|Hr]%elem_of_cons.
    + by rewrite decide_True.
    + rewrite decide_False; [by apply IH|].
      intros E. apply Hx. rewrite E. by apply list_elem_of_fmap_2.
Qed.

Lemma find_key_delete_sources a b k t :
  unique t → find_key k (delete_sources a b t) = keep a b (find_key k t).
Proof.
  unfold unique, delete_sources. induction t as [|x t IH]; simpl; [done|].
  intros [Hx Ht]%NoDup_cons. rewrite filter_cons.
  destruct (decide (source_file x ≠ a ∧ source_file x ≠ b)) as [Hs|Hs]; simpl.
  - destruct (decide (key x = k)); simpl; [by rewrite decide_True|by apply IH].
  - destruct (decide (key x = k)) as [<-|]; simpl; [|by apply IH].
    rewrite decide_False by done. apply find_key_None.
    intros Hin. apply Hx.
    eapply elem_of_sublist; [exact Hin|]. apply fmap_sublist, sublist_filter.
Qed.

Lemma unique_NoDup t : unique t → NoDup t.
Proof. apply NoDup_fmap_1. Qed.

(** Two tables that obey the constraint and store the same row under every
    key hold the same rows. *)
Lemma table_ext t1 t2 :
  unique t1 → unique t2 → (∀ k, find_key k t1 = find_key k t2) → t1 ≡ₚ t2.
Proof.
  intros H1 H2 H. apply NoDup_Permutation; [by apply unique_NoDup..|].
  intros r. split; intros Hr.
  - apply find_key_elem_of in Hr; [|done]. rewrite H in Hr.
    by apply find_key_Some in Hr as [? _].
  - apply find_key_elem_of in Hr; [|done]. rewrite <- H in Hr.
    by apply find_key_Some in Hr as [? _].
Qed.

(** The rows stored under one key, given the row [find_key] returns. *)
Lemma filter_key_find k t :
  unique t → filter (λ r, key r = k) t = option_list (find_key k t).
Proof.
  unfold unique. induction t as [|x t IH]; simpl; [done|].
  intros [Hx Ht]%NoDup_cons. rewrite filter_cons.
  destruct (decide (key x = k)) as [<-|]; simpl; [|by apply IH].
  f_equal. rewrite IH by done.
  assert (find_key (key x) t = None) as -> by by apply find_key_None.
  done.
Qed.

Lemma find_key_foldl_upsert k recs t :
  find_key k (foldl (λ t rec, upsert rec t) t recs)
  = match last (filter (λ r, key r = k) recs) with
    | Some rec => Some rec
    | None => find_key k t
    end.
Proof.
  revert t. induction recs as [|rec recs IH] using rev_ind; intros t; [done|].
  rewrite foldl_app, filter_app. simpl. rewrite find_key_upsert.
  rewrite filter_cons, filter_nil.
  destruct (decide (key rec = k)); simpl.
  - by rewrite last_snoc.
  - by rewrite app_nil_r, IH.
Qed.

Lemma unique_foldl_upsert recs t :
  unique t → unique (foldl (λ t rec, upsert rec t) t recs).
Proof.
  revert t. induction recs as [|rec recs IH]; intros t Ht; simpl; [done|].
  by apply IH, unique_upsert.
Qed.

End v85_facts.

(** ** Facts about sorting and the listing of a directory *)

Section listing_facts.
Import Py Exc Norm Naming Importer.
Implicit Types (csv_dir : gmap string entry) (p : string).

Lemma merge_sort_proper (l1 l2 : list string) :
  l1 ≡ₚ l2 → merge_sort String.le l1 = merge_sort String.le l2.
Proof.
  intros H. apply (Sorted_unique String.le).
  - apply Sorted_merge_sort, _.
  - apply Sorted_merge_sort, _.
  - by rewrite !merge_sort_Permutation.
Qed.

Lemma matching_files_elem_of re csv_dir p :
  p ∈ matching_files re csv_dir ↔
  (∃ c, csv_dir !! p = Some (File c)) ∧ is_Some (re p).
Proof.
  unfold matching_files. rewrite merge_sort_Permutation, list_elem_of_fmap.
  split.
  - intros ([q e] & -> & [[Hf Hre] Hin%elem_of_map_to_list]%list_elem_of_filter).
    simpl in *. destruct e as [|c]; [done|]. eauto.
  - intros [[c Hc] Hre]. exists (p, File c). split; [done|].
    apply list_elem_of_filter. split; [done|]. by apply elem_of_map_to_list.
Qed.

Lemma matching_files_NoDup re csv_dir : NoDup (matching_files re csv_dir).
Proof.
  unfold matching_files. rewrite merge_sort_Permutation.
  eapply sublist_NoDup; [apply (NoDup_fst_map_to_list csv_dir)|].
  apply fmap_sublist, sublist_filter.
Qed.

Lemma matching_files_sorted re csv_dir :
  Sorted String.le (matching_files re csv_dir).
Proof. apply Sorted_merge_sort, _. Qed.

(** An entry whose name the pattern rejects does not change the listing. *)
Lemma matching_files_insert_unmatched re csv_dir p e :
  re p = None →
  matching_files re (<[p := e]> csv_dir) = matching_files re (delete p csv_dir).
Proof.
  intros Hp. unfold matching_files. apply merge_sort_proper.
  rewrite <- (insert_delete_eq csv_dir).
  rewrite map_to_list_insert by apply lookup_delete_eq.
  rewrite filter_cons. rewrite decide_False; [done|].
  simpl. rewrite Hp. intros [_ []%is_Some_None].
Qed.

End listing_facts.

(** ** The loaders on a directory whose files can be read *)

Section loader_facts.
Import Py Exc Norm Naming Importer.
Implicit Types (csv_dir : gmap string entry) (p : string) (con : db).

Lemma text_field_csv (r : gmap string (option string)) k :
  text_field (of_csv r) k = Ok (csv_text r k).
Proof.
  unfold text_field, csv_text, get, of_csv. rewrite lookup_fmap.
  destruct (r !! k) as [[s|]|]; simpl; try done.
  unfold or_empty. simpl. destruct (String.eqb_spec s ""); by subst.
Qed.

Lemma str_field_csv (r : gmap string (option string)) k :
  str_field (of_csv r) k = Ok (csv_text r k).
Proof.
  unfold str_field, csv_text, get, of_csv. rewrite lookup_fmap.
  destruct (r !! k) as [[s|]|]; simpl; try done.
  unfold or_empty. simpl. destruct (String.eqb_spec s ""); by subst.
Qed.

Lemma current_args_csv game_date avd name r :
  current_args game_date avd name (of_csv r)
  = Ok (current_record game_date avd name r).
Proof. unfold current_args. by rewrite !text_field_csv. Qed.

Lemma history_args_csv avd name r :
  history_args avd name (of_csv r) = Ok (history_record avd name r).
Proof. unfold history_args. by rewrite !text_field_csv, !str_field_csv. Qed.

Lemma current_rows_loop game_date avd p rows (s : db * nat) :
  for_each rows (λ r,
    args ←← lift (current_args game_date avd p (of_csv r)) ;;
    _ ←← modify (on_v85 (V85.upsert args)) ;;
    modify count_row) s
  = ((Db (foldl (λ t rec, V85.upsert rec t) (v85 s.1)
                (current_record game_date avd p <$> rows))
         (v85_history s.1), s.2 + length rows), Ok tt).
Proof.
  revert s. induction rows as [|r rows IH]; intros [con n]; simpl.
  - unfold ret. destruct con. simpl. by rewrite Nat.add_0_r.
  - unfold bind at 1. unfold bind at 1. unfold lift at 1.
    rewrite current_args_csv. unfold bind at 1. unfold modify at 1.
    unfold modify at 1. unfold count_row, on_v85. simpl.
    rewrite IH. simpl. do 2 f_equal. lia.
Qed.

Lemma history_rows_loop avd p rows (s : db * nat) :
  for_each rows (λ r,
    args ←← lift (history_args avd p (of_csv r)) ;;
    _ ←← modify (on_v85_history (V85History.insert args)) ;;
    modify count_row) s
  = ((Db (v85 s.1)
         (foldl (λ t rec, V85History.insert rec t) (v85_history s.1)
                (history_record avd p <$> rows)), s.2 + length rows), Ok tt).
Proof.
  revert s. induction rows as [|r rows IH]; intros [con n]; simpl.
  - unfold ret. destruct con. simpl. by rewrite Nat.add_0_r.
  - unfold bind at 1. unfold bind at 1. unfold lift at 1.
    rewrite history_args_csv. unfold bind at 1. unfold modify at 1.
    unfold modify at 1. unfold count_row, on_v85_history. simpl.
    rewrite IH. simpl. do 2 f_equal. lia.
Qed.

Lemma file_rows_readable csv_dir p records :
  csv_dir !! p = Some (File (Ok records)) →
  file_rows csv_dir p = DictReader records.
Proof. unfold file_rows. by intros ->. Qed.

(** One readable Current file. *)
Lemma current_file_readable csv_dir p con n :
  is_Some (CURRENT_RE p) → readable csv_dir p →
  current_file csv_dir p (con, n)
  = ((Db (import_current csv_dir p (v85 con)) (v85_history con),
      n + length (file_rows csv_dir p)), Ok tt).
Proof.
  intros [[d g] Hre] [rows Hrows].
  unfold current_file, import_current, current_records.
  rewrite Hre, (file_rows_readable _ _ _ Hrows).
  unfold bind at 1. unfold read_rows. rewrite Hrows. unfold lift at 1.
  cbn [rbind].
  unfold bind at 1. unfold modify at 1. 
  rewrite current_rows_loop. done.
Qed.

(** One readable History file. *)
Lemma history_file_readable csv_dir p con n :
  is_Some (HISTORY_RE p) → readable csv_dir p →
  history_file csv_dir p (con, n)
  = ((Db (v85 con) (import_history csv_dir p (v85_history con)),
      n + length (file_rows csv_dir p)), Ok tt).
Proof.
  intros [[d g] Hre] [rows Hrows].
  unfold history_file, import_history, history_records.
  rewrite Hre, (file_rows_readable _ _ _ Hrows).
  unfold bind at 1. unfold read_rows. rewrite Hrows. unfold lift at 1.
  cbn [rbind].
  unfold bind at 1. unfold modify at 1. 
  rewrite history_rows_loop. done.
Qed.

(** A file that cannot be read raises before any statement is run for it. *)
Lemma current_file_unreadable csv_dir p e s :
  csv_dir !! p = Some (File (Raise e)) →
  ∃ e', current_file csv_dir p s = (s, Raise e').
Proof.
  intros Hp. unfold current_file. destruct (CURRENT_RE p) as [[d g]|].
  - unfold bind at 1. unfold read_rows. rewrite Hp. unfold lift. eauto.
  - unfold raise. eauto.
Qed.

Lemma history_file_unreadable csv_dir p e s :
  csv_dir !! p = Some (File (Raise e)) →
  ∃ e', history_file csv_dir p s = (s, Raise e').
Proof.
  intros Hp. unfold history_file. destruct (HISTORY_RE p) as [[d g]|].
  - unfold bind at 1. unfold read_rows. rewrite Hp. unfold lift. eauto.
  - unfold raise. eauto.
Qed.

End loader_facts.

(** ** A whole run *)

Section run_facts.
Import Py Exc Norm Naming Importer.
Implicit Types (csv_dir : gmap string entry) (p : string) (con stored : db).

Lemma current_records_length csv_dir p :
  is_Some (CURRENT_RE p) →
  length (current_records csv_dir p) = length (file_rows csv_dir p).
Proof.
  intros [[d g] H]. unfold current_records. by rewrite H, length_fmap.
Qed.

Lemma history_records_length csv_dir p :
  is_Some (HISTORY_RE p) →
  length (history_records csv_dir p) = length (file_rows csv_dir p).
Proof.
  intros [[d g] H]. unfold history_records. by rewrite H, length_fmap.
Qed.

Lemma for_each_current_readable csv_dir files (s : db * nat) :
  Forall (λ p, is_Some (CURRENT_RE p) ∧ readable csv_dir p) files →
  for_each files (current_file csv_dir) s
  = ((Db (import_all_current csv_dir files (v85 s.1)) (v85_history s.1),
      s.2 + length (files ≫= current_records csv_dir)), Ok tt).
Proof.
  intros H. revert s. induction H as [|p files [Hre Hp] _ IH]; intros [con n].
  - simpl. unfold ret. destruct con. simpl. by rewrite Nat.add_0_r.
  - simpl. unfold bind. rewrite current_file_readable by done.
    rewrite IH. simpl. rewrite length_app, current_records_length by done.
    by rewrite Nat.add_assoc.
Qed.

Lemma for_each_history_readable csv_dir files (s : db * nat) :
  Forall (λ p, is_Some (HISTORY_RE p) ∧ readable csv_dir p) files →
  for_each files (history_file csv_dir) s
  = ((Db (v85 s.1) (import_all_history csv_dir files (v85_history s.1)),
      s.2 + length (files ≫= history_records csv_dir)), Ok tt).
Proof.
  intros H. revert s. induction H as [|p files [Hre Hp] _ IH]; intros [con n].
  - simpl. unfold ret. destruct con. simpl. by rewrite Nat.add_0_r.
  - simpl. unfold bind. rewrite history_file_readable by done.
    rewrite IH. simpl. rewrite length_app, history_records_length by done.
    by rewrite Nat.add_assoc.
Qed.

(** A loop over files one of which cannot be read ends in an exception. *)
Lemma for_each_unreadable (body : string → M (db * nat) unit) csv_dir files p e s :
  (∀ q s, csv_dir !! q = Some (File (Raise e)) → ∃ e', body q s = (s, Raise e')) →
  p ∈ files → csv_dir !! p = Some (File (Raise e)) →
  ∃ s' e', for_each files body s = (s', Raise e').
Proof.
  intros Hbody Hin Hp. revert s.
  induction files as [|q files IH]; intros s; [by apply elem_of_nil in Hin|].
  simpl. unfold bind.
  destruct (decide (q = p)) as [->|Hne].
  - destruct (Hbody p s Hp) as [e' ->]. eauto.
  - apply elem_of_cons in Hin as [->|Hin]; [done|].
    destruct (body q s) as [s1 [[]|e1]]; [by apply IH|eauto].
Qed.

(** Every listed file is a file, readable or not. *)
Lemma listed_readable_or_not re csv_dir p :
  p ∈ matching_files re csv_dir →
  readable csv_dir p ∨ ∃ e, csv_dir !! p = Some (File (Raise e)).
Proof.
  intros [[[rows|e] Hc] _]%matching_files_elem_of; [left|right]; eauto.
  by exists rows.
Qed.

End run_facts.

Section main_facts.
Import Py Exc Norm Naming Importer.
Implicit Types (csv_dir : gmap string entry) (p : string) (con stored : db).

Lemma all_readable_or_not re csv_dir (l : list string) :
  (∀ p, p ∈ l → p ∈ matching_files re csv_dir) →
  Forall (readable csv_dir) l
  ∨ ∃ p e, p ∈ l ∧ csv_dir !! p = Some (File (Raise e)).
Proof.
  induction l as [|q l IH]; intros Hl; [by left|].
  destruct (listed_readable_or_not re csv_dir q) as [Hq|[e He]].
  { apply Hl. left. }
  - destruct IH as [IH|(p & e & Hp & He)].
    { intros p Hp. apply Hl. by right. }
    + left. by constructor.
    + right. exists p, e. split; [by right|done].
  - right. exists q, e. split; [left|done].
Qed.

Lemma listed_Forall re csv_dir :
  Forall (readable csv_dir) (matching_files re csv_dir) →
  Forall (λ p, is_Some (re p) ∧ readable csv_dir p) (matching_files re csv_dir).
Proof.
  rewrite !Forall_forall. intros H p Hp. split; [|by apply H].
  by apply matching_files_elem_of in Hp as [_ ?].
Qed.

Lemma load_current_readable csv_dir con :
  Forall (readable csv_dir) (matching_files CURRENT_RE csv_dir) →
  load_current csv_dir con
  = (Db (import_all_current csv_dir (matching_files CURRENT_RE csv_dir) (v85 con))
        (v85_history con),
     Ok (length (matching_files CURRENT_RE csv_dir),
         length (written_current csv_dir))).
Proof.
  intros H%listed_Forall. unfold load_current, loader.
  by rewrite for_each_current_readable.
Qed.

Lemma load_history_readable csv_dir con :
  Forall (readable csv_dir) (matching_files HISTORY_RE csv_dir) →
  load_history csv_dir con
  = (Db (v85 con)
        (import_all_history csv_dir (matching_files HISTORY_RE csv_dir)
           (v85_history con)),
     Ok (length (matching_files HISTORY_RE csv_dir),
         length (written_history csv_dir))).
Proof.
  intros H%listed_Forall. unfold load_history, loader.
  by rewrite for_each_history_readable.
Qed.

Lemma load_current_unreadable csv_dir con p e :
  p ∈ matching_files CURRENT_RE csv_dir →
  csv_dir !! p = Some (File (Raise e)) →
  ∃ con' e', load_current csv_dir con = (con', Raise e').
Proof.
  intros Hin Hp. unfold load_current, loader.
  destruct (for_each_unreadable (current_file csv_dir) csv_dir
              (matching_files CURRENT_RE csv_dir) p e (con, 0))
    as (s' & e' & ->); [|done..|by eauto].
  intros q s Hq. by eapply current_file_unreadable.
Qed.

Lemma load_history_unreadable csv_dir con p e :
  p ∈ matching_files HISTORY_RE csv_dir →
  csv_dir !! p = Some (File (Raise e)) →
  ∃ con' e', load_history csv_dir con = (con', Raise e').
Proof.
  intros Hin Hp. unfold load_history, loader.
  destruct (for_each_unreadable (history_file csv_dir) csv_dir
              (matching_files HISTORY_RE csv_dir) p e (con, 0))
    as (s' & e' & ->); [|done..|by eauto].
  intros q s Hq. by eapply history_file_unreadable.
Qed.

Lemma main_readable stored csv_dir skip_history :
  Forall (readable csv_dir) (matching_files CURRENT_RE csv_dir) →
  (skip_history = false →
   Forall (readable csv_dir) (matching_files HISTORY_RE csv_dir)) →
  main stored csv_dir skip_history
  = ((run_result stored csv_dir skip_history).1,
     Ok (run_result stored csv_dir skip_history).2).
Proof.
  intros Hc Hh. unfold main, run, run_result. unfold bind at 1.
  rewrite load_current_readable by done. destruct skip_history.
  - unfold bind, ret. done.
  - unfold bind at 1. rewrite load_history_readable by auto. done.
Qed.

Lemma main_unreadable stored csv_dir skip_history p e :
  p ∈ matching_files CURRENT_RE csv_dir
  ∨ (skip_history = false ∧ p ∈ matching_files HISTORY_RE csv_dir) →
  csv_dir !! p = Some (File (Raise e)) →
  ∃ e', main stored csv_dir skip_history = (stored, Raise e').
Proof.
  intros Hin Hp. unfold main, run. unfold bind at 1.
  destruct (all_readable_or_not CURRENT_RE csv_dir
              (matching_files CURRENT_RE csv_dir)) as [Hc|(q & e1 & Hq & He)];
    [done| |].
  - rewrite load_current_readable by done.
    destruct Hin as [Hin|[-> Hin]].
    { rewrite Forall_forall in Hc. destruct (Hc p Hin) as [rows Hrows].
      congruence. }
    unfold bind at 1.
    destruct (load_history_unreadable csv_dir
                (Db (import_all_current csv_dir
                       (matching_files CURRENT_RE csv_dir) (v85 stored))
                    (v85_history stored)) p e Hin Hp) as (con' & e' & ->).
    eauto.
  - destruct (load_current_unreadable csv_dir stored q e1 Hq He)
      as (con' & e' & ->). eauto.
Qed.

Lemma main_Ok_inv stored csv_dir skip_history final rep :
  main stored csv_dir skip_history = (final, Ok rep) →
  Forall (readable csv_dir) (matching_files CURRENT_RE csv_dir)
  ∧ (skip_history = false →
     Forall (readable csv_dir) (matching_files HISTORY_RE csv_dir))
  ∧ (final, rep) = run_result stored csv_dir skip_history.
Proof.
  intros Hmain.
  destruct (all_readable_or_not CURRENT_RE csv_dir
              (matching_files CURRENT_RE csv_dir)) as [Hc|(q & e1 & Hq & He)];
    [done| |].
  2:{ destruct (main_unreadable stored csv_dir skip_history q e1) as [e' He'];
        [by left|done|congruence]. }
  assert (skip_history = false →
          Forall (readable csv_dir) (matching_files HISTORY_RE csv_dir)) as Hh.
  { intros ->.
    destruct (all_readable_or_not HISTORY_RE csv_dir
                (matching_files HISTORY_RE csv_dir)) as [Hh|(q & e1 & Hq & He)];
      [done|done|].
    destruct (main_unreadable stored csv_dir false q e1) as [e' He'];
      [by right|done|congruence]. }
  split_and!; [done..|].
  rewrite main_readable in Hmain by done.
  destruct (run_result stored csv_dir skip_history). simpl in *. congruence.
Qed.

End main_facts.

(** ** The [v85] table over a whole run, key by key *)

Section current_run_facts.
Import Py Exc Norm Naming Importer.
Implicit Types (csv_dir : gmap string entry) (p : string) (t : list V85.row)
  (k : string * string * string) (o : option V85.row).

Lemma current_records_source csv_dir p r :
  r ∈ current_records csv_dir p → V85.source_file r = p.
Proof.
  unfold current_records. destruct (CURRENT_RE p) as [[d g]|].
  - by intros (r0 & -> & _)%list_elem_of_fmap.
  - by intros ?%elem_of_nil.
Qed.

Lemma current_records_key csv_dir p d g r :
  CURRENT_RE p = Some (d, g) → r ∈ current_records csv_dir p →
  V85.datum r = yyyymmdd_to_iso d ∧ V85.avd r = g.
Proof.
  unfold current_records. intros ->.
  by intros (r0 & -> & _)%list_elem_of_fmap.
Qed.

Lemma written_source csv_dir files r :
  r ∈ files ≫= current_records csv_dir → V85.source_file r ∈ files.
Proof.
  intros (p & Hr & Hp)%list_elem_of_bind.
  by rewrite (current_records_source _ _ _ Hr).
Qed.

Lemma unique_import_current csv_dir p t :
  V85.unique t → V85.unique (import_current csv_dir p t).
Proof.
  intros H. unfold import_current.
  by apply unique_foldl_upsert, unique_delete_sources.
Qed.

Lemma unique_import_all_current csv_dir files t :
  V85.unique t → V85.unique (import_all_current csv_dir files t).
Proof.
  unfold import_all_current. revert t.
  induction files as [|p files IH]; intros t Ht; simpl; [done|].
  by apply IH, unique_import_current.
Qed.

Lemma find_key_import_current csv_dir p k t :
  V85.unique t →
  V85.find_key k (import_current csv_dir p t)
  = key_step csv_dir k (V85.find_key k t) p.
Proof.
  intros Ht. unfold import_current, key_step.
  by rewrite find_key_foldl_upsert, find_key_delete_sources.
Qed.

Lemma find_key_import_all_current csv_dir files k t :
  V85.unique t →
  V85.find_key k (import_all_current csv_dir files t)
  = foldl (key_step csv_dir k) (V85.find_key k t) files.
Proof.
  unfold import_all_current. revert t.
  induction files as [|p files IH]; intros t Ht; simpl; [done|].
  rewrite IH by by apply unique_import_current.
  by rewrite find_key_import_current.
Qed.

(** The last write under a key is what the run leaves there: no later file
    deletes it, since files delete only under their own name and alias. *)
Lemma key_fold_written csv_dir files k rec o :
  NoDup files → Forall (λ p, is_Some (CURRENT_RE p)) files →
  last (filter (λ r, V85.key r = k) (files ≫= current_records csv_dir)) = Some rec →
  foldl (key_step csv_dir k) o files = Some rec.
Proof.
  induction files as [|p files IH] using rev_ind; intros Hnd Hre; [done|].
  apply NoDup_app in Hnd as (Hnd & Hp & _).
  apply Forall_app in Hre as [Hre Hp'%Forall_inv].
  rewrite bind_app, filter_app, last_app, foldl_app. simpl.
  rewrite app_nil_r. unfold key_step at 1.
  destruct (last (filter _ (current_records csv_dir p))) as [rec'|]; [done|].
  intros Hlast. rewrite IH by done. simpl.
  apply last_Some_elem_of, list_elem_of_filter in Hlast as [_ Hin].
  apply list_elem_of_bind in Hin as (q & Hr & Hq).
  apply current_records_source in Hr.
  rewrite decide_True; [done|]. rewrite Hr. split.
  - intros ->. apply (Hp p); [done|left].
  - intros Heq. eapply legacy_current_fresh; [|exact Hp'|by symmetry].
    rewrite Forall_forall in Hre. by apply Hre.
Qed.

Lemma keep_unclaimed_snoc files p o :
  V85.keep p (legacy_current p) (keep_unclaimed files o)
  = keep_unclaimed (files ++ [p]) o.
Proof.
  destruct o as [r|]; simpl; [|done].
  destruct (decide (Forall _ files)) as [H|H]; simpl.
  - destruct (decide (_ ∧ _)) as [H'|H'].
    + rewrite decide_True; [done|]. apply Forall_app. split; [done|].
      by apply Forall_singleton.
    + rewrite decide_False; [done|].
      intros [_ ?%Forall_inv]%Forall_app. done.
  - rewrite decide_False; [done|]. by intros [? _]%Forall_app.
Qed.

(** A key the run never writes keeps its row unless a file claims it. *)
Lemma key_fold_unwritten csv_dir files k o :
  filter (λ r, V85.key r = k) (files ≫= current_records csv_dir) = [] →
  foldl (key_step csv_dir k) o files = keep_unclaimed files o.
Proof.
  induction files as [|p files IH] using rev_ind.
  - intros _. destruct o as [r|]; [|done]. unfold keep_unclaimed.
    cbn [foldl]. rewrite decide_True; [done|]. constructor.
  - rewrite bind_app, filter_app, foldl_app. simpl. rewrite app_nil_r.
    intros [H1 H2]%app_eq_nil. rewrite IH by done.
    unfold key_step. rewrite H2. simpl. apply keep_unclaimed_snoc.
Qed.

Lemma keep_unclaimed_idemp files o :
  keep_unclaimed files (keep_unclaimed files o) = keep_unclaimed files o.
Proof.
  destruct o as [r|]; simpl; [|done].
  destruct (decide (Forall _ files)) as [H|H]; simpl; [|done].
  by rewrite decide_True.
Qed.

Lemma key_fold_idemp csv_dir files k o :
  NoDup files → Forall (λ p, is_Some (CURRENT_RE p)) files →
  foldl (key_step csv_dir k) (foldl (key_step csv_dir k) o files) files
  = foldl (key_step csv_dir k) o files.
Proof.
  intros Hnd Hre.
  destruct (last (filter (λ r, V85.key r = k) (files ≫= current_records csv_dir)))
    as [rec|] eqn:E.
  - by rewrite !(key_fold_written _ _ _ rec).
  - apply last_None in E. rewrite !key_fold_unwritten by done.
    apply keep_unclaimed_idemp.
Qed.

(** Running the loop of [load_current] again over the same files leaves
    the rows of the table as they are. *)
Lemma import_all_current_idemp csv_dir files t :
  NoDup files → Forall (λ p, is_Some (CURRENT_RE p)) files → V85.unique t →
  import_all_current csv_dir files (import_all_current csv_dir files t)
  ≡ₚ import_all_current csv_dir files t.
Proof.
  intros Hnd Hre Ht.
  apply table_ext; [by do 2 apply unique_import_all_current
                   |by apply unique_import_all_current|].
  intros k. rewrite !find_key_import_all_current;
    [|done|by apply unique_import_all_current].
  by apply key_fold_idemp.
Qed.

Lemma listed_recognized re csv_dir :
  Forall (λ p, is_Some (re p)) (matching_files re csv_dir).
Proof.
  rewrite Forall_forall. intros p Hp.
  by apply matching_files_elem_of in Hp as [_ ?].
Qed.

End current_run_facts.

(** ** The [v85_history] table over a whole run *)

Section history_run_facts.
Import Py Exc Norm Naming Importer.
Implicit Types (csv_dir : gmap string entry) (p : string)
  (t : list V85History.row).

Lemma filter_all {A} (P : A → Prop) `{!∀ x, Decision (P x)} (l : list A) :
  Forall P l → filter P l = l.
Proof.
  induction 1 as [|x l Hx _ IH]; [done|].
  by rewrite filter_cons, decide_True, IH.
Qed.

Lemma filter_none {A} (P : A → Prop) `{!∀ x, Decision (P x)} (l : list A) :
  Forall (λ x, ¬ P x) l → filter P l = [].
Proof.
  induction 1 as [|x l Hx _ IH]; [done|].
  by rewrite filter_cons, decide_False.
Qed.

Lemma history_records_source csv_dir p r :
  r ∈ history_records csv_dir p → V85History.source_file r = p.
Proof.
  unfold history_records. destruct (HISTORY_RE p) as [[d g]|].
  - by intros (r0 & -> & _)%list_elem_of_fmap.
  - by intros ?%elem_of_nil.
Qed.

Lemma foldl_insert t recs :
  foldl (λ t rec, V85History.insert rec t) t recs = t ++ recs.
Proof.
  revert t. induction recs as [|r recs IH]; intros t; simpl.
  - by rewrite app_nil_r.
  - rewrite IH. unfold V85History.insert. by rewrite <- app_assoc.
Qed.

(** One History file: the rows under its name and alias go, then all of its
    rows are appended. *)
Lemma import_history_eq csv_dir p t :
  import_history csv_dir p t
  = V85History.delete_sources p (legacy_history p) t ++ history_records csv_dir p.
Proof. unfold import_history. apply foldl_insert. Qed.

Lemma unclaimed_snoc files p t :
  V85History.delete_sources p (legacy_history p) (unclaimed files t)
  = unclaimed (files ++ [p]) t.
Proof.
  unfold V85History.delete_sources, unclaimed. rewrite list_filter_filter.
  apply list_filter_iff. intros r. rewrite Forall_app, Forall_singleton.
  tauto.
Qed.

Lemma written_history_source csv_dir files r :
  r ∈ files ≫= history_records csv_dir → V85History.source_file r ∈ files.
Proof.
  intros (p & Hr & Hp)%list_elem_of_bind.
  by rewrite (history_records_source _ _ _ Hr).
Qed.

(** After the loop of [load_history]: the rows no file claims, then the
    rows of every file, file after file. *)
Lemma import_all_history_eq csv_dir files t :
  NoDup files → Forall (λ p, is_Some (HISTORY_RE p)) files →
  import_all_history csv_dir files t
  = unclaimed files t ++ (files ≫= history_records csv_dir).
Proof.
  unfold import_all_history.
  induction files as [|p files IH] using rev_ind; intros Hnd Hre.
  - simpl. unfold unclaimed. rewrite filter_all, app_nil_r; [done|].
    apply Forall_forall. intros r _. constructor.
  - apply NoDup_app in Hnd as (Hnd & Hp & _).
    apply Forall_app in Hre as [Hre Hp'%Forall_inv].
    rewrite foldl_app. simpl. rewrite IH, import_history_eq by done.
    unfold V85History.delete_sources at 1. rewrite filter_app.
    fold (V85History.delete_sources p (legacy_history p) (unclaimed files t)).
    rewrite unclaimed_snoc, bind_app. simpl. rewrite app_nil_r, <- app_assoc.
    do 2 f_equal. apply filter_all, Forall_forall.
    intros r Hr%written_history_source. split.
    + intros E. apply (Hp p); [by rewrite <- E|left].
    + intros Heq. eapply legacy_history_fresh; [|exact Hp'|by symmetry].
      rewrite Forall_forall in Hre. by apply Hre.
Qed.

Lemma unclaimed_idemp files t :
  unclaimed files (unclaimed files t) = unclaimed files t.
Proof.
  unfold unclaimed at 1. apply filter_all, Forall_forall.
  by intros r [? _]%list_elem_of_filter.
Qed.

Lemma unclaimed_written csv_dir files :
  unclaimed files (files ≫= history_records csv_dir) = [].
Proof.
  apply filter_none, Forall_forall.
  intros r Hr%written_history_source H.
  rewrite Forall_forall in H. by destruct (H _ Hr).
Qed.

(** Running the loop of [load_history] again over the same files leaves
    the table as it is. *)
Lemma import_all_history_idemp csv_dir files t :
  NoDup files → Forall (λ p, is_Some (HISTORY_RE p)) files →
  import_all_history csv_dir files (import_all_history csv_dir files t)
  = import_all_history csv_dir files t.
Proof.
  intros Hnd Hre. rewrite !import_all_history_eq by done.
  unfold unclaimed at 1. rewrite filter_app.
  fold (unclaimed files (unclaimed files t)).
  fold (unclaimed files (files ≫= history_records csv_dir)).
  by rewrite unclaimed_idemp, unclaimed_written, app_nil_r.
Qed.

(** The rows filed under the name of one of the files are the rows that
    file wrote. *)
Lemma written_history_of csv_dir files p :
  NoDup files → p ∈ files →
  filter (λ r, V85History.source_file r = p) (files ≫= history_records csv_dir)
  = history_records csv_dir p.
Proof.
  induction files as [|q files IH]; intros Hnd Hp; [by apply elem_of_nil in Hp|].
  apply NoDup_cons in Hnd as [Hq Hnd]. rewrite bind_cons, filter_app.
  apply elem_of_cons in Hp as [->|Hp].
  - rewrite filter_all, filter_none, app_nil_r; [done| |].
    + apply Forall_forall. intros r Hr%written_history_source. congruence.
    + apply Forall_forall. intros r Hr. by apply history_records_source in Hr.
  - rewrite filter_none, IH; [done..|].
    apply Forall_forall. intros r Hr%history_records_source. congruence.
Qed.

Lemma import_all_history_of csv_dir files t p :
  NoDup files → Forall (λ p, is_Some (HISTORY_RE p)) files → p ∈ files →
  filter (λ r, V85History.source_file r = p) (import_all_history csv_dir files t)
  = history_records csv_dir p.
Proof.
  intros Hnd Hre Hp. rewrite import_all_history_eq, filter_app by done.
  rewrite written_history_of by done.
  rewrite filter_none; [done|]. apply Forall_forall.
  intros r [H _]%list_elem_of_filter Hr.
  rewrite Forall_forall in H. destruct (H p Hp) as [? _]. done.
Qed.

End history_run_facts.

(** ** Where the rows of [v85] come from *)

Section provenance_facts.
Import Py Exc Norm Naming Importer.
Implicit Types (csv_dir : gmap string entry) (p : string) (t : list V85.row).

Lemma elem_of_upsert r new t : r ∈ V85.upsert new t → r = new ∨ r ∈ t.
Proof.
  induction t as [|old t IH]; simpl.
  - intros ->%list_elem_of_singleton. by left.
  - destruct (decide (V85.key old = V85.key new)) as [E|E].
    + rewrite (do_update_same_key _ _ E).
      intros [->|?]%elem_of_cons; [by left|]. right. by right.
    + intros [->|[->|?]%IH]%elem_of_cons; [right; left|by left|].
      right. by right.
Qed.

Lemma elem_of_foldl_upsert r recs t :
  r ∈ foldl (λ t rec, V85.upsert rec t) t recs → r ∈ recs ∨ r ∈ t.
Proof.
  revert t. induction recs as [|rec recs IH]; intros t; simpl; [by right|].
  intros [?|[->|?]%elem_of_upsert]%IH.
  - left. by right.
  - left. left.
  - by right.
Qed.

Lemma elem_of_import_current csv_dir p r t :
  r ∈ import_current csv_dir p t →
  r ∈ current_records csv_dir p
  ∨ (r ∈ t ∧ V85.source_file r ≠ p ∧ V85.source_file r ≠ legacy_current p).
Proof.
  unfold import_current, V85.delete_sources.
  intros [?|[[??]?]%list_elem_of_filter]%elem_of_foldl_upsert; [by left|].
  by right.
Qed.

Lemma elem_of_import_all_current csv_dir files r t :
  r ∈ import_all_current csv_dir files t →
  r ∈ files ≫= current_records csv_dir
  ∨ (r ∈ t ∧ Forall (λ p, V85.source_file r ≠ p
                          ∧ V85.source_file r ≠ legacy_current p) files).
Proof.
  unfold import_all_current. revert t.
  induction files as [|p files IH]; intros t; simpl.
  - intros ?. right. split; [done|constructor].
  - intros [?|[[?|(? & ? & ?)]%elem_of_import_current ?]]%IH.
    + left. apply elem_of_app. by right.
    + left. apply elem_of_app. by left.
    + right. split; [done|]. by constructor.
Qed.

Lemma import_all_current_app csv_dir l1 l2 t :
  import_all_current csv_dir (l1 ++ l2) t
  = import_all_current csv_dir l2 (import_all_current csv_dir l1 t).
Proof. unfold import_all_current. apply foldl_app. Qed.

(** No row of the table after the loop is filed under the alias of one of
    the files, and the rows filed under the name of a file were written
    for that file. *)
Lemma import_all_current_sources csv_dir files r t p :
  Forall (λ p, is_Some (CURRENT_RE p)) files → p ∈ files →
  r ∈ import_all_current csv_dir files t →
  V85.source_file r ≠ legacy_current p
  ∧ (V85.source_file r = p → r ∈ current_records csv_dir p).
Proof.
  intros Hre Hp [Hr|[_ Hr]]%elem_of_import_all_current.
  - apply list_elem_of_bind in Hr as (q & Hr & Hq).
    pose proof (current_records_source _ _ _ Hr) as Hs.
    rewrite Forall_forall in Hre. split.
    + rewrite Hs. intros E. by eapply (legacy_current_fresh q p); auto.
    + intros E. congruence.
  - rewrite Forall_forall in Hr. destruct (Hr p Hp). done.
Qed.

End provenance_facts.

(** ** Properties of the importer *)

Section importer_properties.
Import Py Exc Norm Naming Importer.
Implicit Types (csv_dir : gmap string entry) (p : string) (stored final : db).

Lemma main_cases stored csv_dir skip_history :
  (∃ e, main stored csv_dir skip_history = (stored, Raise e))
  ∨ (Forall (readable csv_dir) (matching_files CURRENT_RE csv_dir)
     ∧ (skip_history = false →
        Forall (readable csv_dir) (matching_files HISTORY_RE csv_dir))
     ∧ main stored csv_dir skip_history
       = ((run_result stored csv_dir skip_history).1,
          Ok (run_result stored csv_dir skip_history).2)).
Proof.
  destruct (main stored csv_dir skip_history) as [final [rep|e]] eqn:E.
  - right. apply main_Ok_inv in E as (Hc & Hh & E).
    rewrite <- E. done.
  - left. exists e. unfold main in E.
    destruct (run csv_dir skip_history stored) as [con [rep|e']]; [done|].
    by injection E as <- <-.
Qed.

(** C1. Idempotence of import: running the importer a second time over the
    same unchanged directory leaves both tables with the same rows (the
    same number of rows, with the same values in every column) as the first
    run left, and reports the same counts. *)
Theorem import_twice_same_store stored csv_dir skip_history :
  V85.unique (v85 stored) →
  let first := main stored csv_dir skip_history in
  let second := main first.1 csv_dir skip_history in
  v85 second.1 ≡ₚ v85 first.1
  ∧ length (v85 second.1) = length (v85 first.1)
  ∧ v85_history second.1 = v85_history first.1
  ∧ second.2 = first.2.
Proof.
  intros Hu. simpl.
  assert (v85 (main (main stored csv_dir skip_history).1 csv_dir skip_history).1
          ≡ₚ v85 (main stored csv_dir skip_history).1
          ∧ v85_history
              (main (main stored csv_dir skip_history).1 csv_dir skip_history).1
            = v85_history (main stored csv_dir skip_history).1
          ∧ (main (main stored csv_dir skip_history).1 csv_dir skip_history).2
            = (main stored csv_dir skip_history).2) as (Hp & Hh & Hr).
  { destruct (main_cases stored csv_dir skip_history) as [[e E]|(Hc & Hh & E)].
    - rewrite E. simpl. rewrite E. done.
    - rewrite E. simpl. rewrite main_readable by done.
      unfold run_result. destruct skip_history; simpl.
      + split_and!; [|done..].
        apply import_all_current_idemp;
          [apply matching_files_NoDup|apply listed_recognized|done].
      + split_and!; [| |done].
        * apply import_all_current_idemp;
            [apply matching_files_NoDup|apply listed_recognized|done].
        * apply import_all_history_idemp;
            [apply matching_files_NoDup|apply listed_recognized]. }
  split_and!; [done|by rewrite Hp|done..].
Qed.

(** C2. Upsert correctness for Current: for every key (date, division,
    horse name) written during a run, whether or not the table held a row
    under it and whichever file that row was filed under, the table holds
    exactly one row under the key after the run, and that row is the one
    written last, with all its columns and its [source_file]. *)
Theorem upsert_last_write_wins stored csv_dir skip_history final rep k rec :
  V85.unique (v85 stored) →
  main stored csv_dir skip_history = (final, Ok rep) →
  last (filter (λ r, V85.key r = k) (written_current csv_dir)) = Some rec →
  V85.unique (v85 final)
  ∧ filter (λ r, V85.key r = k) (v85 final) = [rec].
Proof.
  intros Hu (Hc & Hh & E)%main_Ok_inv Hlast.
  assert (v85 final
          = import_all_current csv_dir (matching_files CURRENT_RE csv_dir)
              (v85 stored)) as ->.
  { unfold run_result in E. destruct skip_history; by injection E as -> _. }
  split; [by apply unique_import_all_current|].
  rewrite filter_key_find by by apply unique_import_all_current.
  rewrite find_key_import_all_current by done.
  rewrite (key_fold_written _ _ _ rec);
    [done|apply matching_files_NoDup|apply listed_recognized|done].
Qed.

(** C3. Legacy supersession: the alias of a recognised name is the name
    with the legacy token in place of the leading active token and nothing
    else changed; after a run no row is filed under the alias of a file the
    run processed, every row filed under the name of such a file was
    written by the run for that file, and every key the file wrote holds
    exactly one row, filed under a name the run processed. *)
Theorem legacy_rows_superseded stored csv_dir skip_history final rep :
  V85.unique (v85 stored) →
  main stored csv_dir skip_history = (final, Ok rep) →
  (∀ p, p ∈ matching_files CURRENT_RE csv_dir →
     (∃ rest, p = "v85_" +:+ rest ∧ legacy_current p = "v86_" +:+ rest)
     ∧ (∀ r, r ∈ v85 final →
          V85.source_file r ≠ legacy_current p
          ∧ (V85.source_file r = p → r ∈ current_records csv_dir p))
     ∧ (∀ rec, rec ∈ current_records csv_dir p →
          ∃ r, filter (λ r, V85.key r = V85.key rec) (v85 final) = [r]
               ∧ V85.source_file r ∈ matching_files CURRENT_RE csv_dir))
  ∧ (skip_history = false →
     ∀ p, p ∈ matching_files HISTORY_RE csv_dir →
       (∃ rest, p = "v85_history_" +:+ rest
                ∧ legacy_history p = "v86_history_" +:+ rest)
       ∧ (∀ r, r ∈ v85_history final →
            V85History.source_file r ≠ legacy_history p)
       ∧ filter (λ r, V85History.source_file r = p) (v85_history final)
         = history_records csv_dir p).
Proof.
  intros Hu (Hc & Hh & E)%main_Ok_inv.
  pose proof (matching_files_NoDup CURRENT_RE csv_dir) as Hnd.
  pose proof (listed_recognized CURRENT_RE csv_dir) as Hre.
  pose proof (matching_files_NoDup HISTORY_RE csv_dir) as Hnd'.
  pose proof (listed_recognized HISTORY_RE csv_dir) as Hre'.
  split.
  - assert (v85 final
            = import_all_current csv_dir (matching_files CURRENT_RE csv_dir)
                (v85 stored)) as ->.
    { unfold run_result in E. destruct skip_history; by injection E as -> _. }
    intros p Hp. split_and!.
    + rewrite Forall_forall in Hre.
      destruct (CURRENT_RE_prefix p (Hre p Hp)) as [rest ->].
      exists rest. by rewrite legacy_current_prefix.
    + intros r Hr. by eapply import_all_current_sources.
    + intros rec Hrec.
      assert (rec ∈ filter (λ r, V85.key r = V85.key rec)
                      (matching_files CURRENT_RE csv_dir
                         ≫= current_records csv_dir)) as Hin.
      { apply list_elem_of_filter. split; [done|].
        apply list_elem_of_bind. eauto. }
      destruct (last (filter (λ r, V85.key r = V85.key rec)
                        (matching_files CURRENT_RE csv_dir
                           ≫= current_records csv_dir))) as [r|] eqn:El.
      2:{ apply last_None in El. rewrite El in Hin. by apply elem_of_nil in Hin. }
      exists r. split.
      * rewrite filter_key_find by by apply unique_import_all_current.
        rewrite find_key_import_all_current by done.
        by rewrite (key_fold_written _ _ _ r).
      * apply last_Some_elem_of, list_elem_of_filter in El as [_ El].
        by apply written_source in El.
  - intros ->. unfold run_result in E. injection E as -> _. simpl.
    intros p Hp. split_and!.
    + rewrite Forall_forall in Hre'.
      destruct (HISTORY_RE_prefix p (Hre' p Hp)) as [rest ->].
      exists rest. by rewrite legacy_history_prefix.
    + intros r. rewrite import_all_history_eq by done.
      intros [[Hr _]%list_elem_of_filter|Hr%written_history_source]%elem_of_app.
      * rewrite Forall_forall in Hr. by destruct (Hr p Hp).
      * rewrite Forall_forall in Hre'.
        intros Heq. eapply (legacy_history_fresh _ p); eauto.
    + by apply import_all_history_of.
Qed.

(** C4. History append semantics: a run puts every row of every History
    file into [v85_history], one row per row of the file and in file order,
    after the rows no file claims; the rows filed under a file's name are
    then exactly the rows of that file, next to the rows of every other
    file; and a second run over the same files leaves the table, and so
    the number of rows filed under each file, as it was. *)
Theorem history_rows_appended stored csv_dir final rep :
  main stored csv_dir false = (final, Ok rep) →
  let files := matching_files HISTORY_RE csv_dir in
  v85_history final
  = unclaimed files (v85_history stored) ++ (files ≫= history_records csv_dir)
  ∧ (∀ p, p ∈ files →
       filter (λ r, V85History.source_file r = p) (v85_history final)
       = history_records csv_dir p
       ∧ length (history_records csv_dir p) = length (file_rows csv_dir p))
  ∧ v85_history (main final csv_dir false).1 = v85_history final.
Proof.
  intros Hmain. pose proof Hmain as (Hc & Hh & E)%main_Ok_inv. simpl.
  pose proof (matching_files_NoDup HISTORY_RE csv_dir) as Hnd.
  pose proof (listed_recognized HISTORY_RE csv_dir) as Hre.
  unfold run_result in E. injection E as -> _. simpl.
  split_and!.
  - by apply import_all_history_eq.
  - intros p Hp. split.
    + by apply import_all_history_of.
    + apply history_records_length.
      rewrite Forall_forall in Hre. by apply Hre.
  - rewrite main_readable by auto. unfold run_result. simpl.
    by apply import_all_history_idemp.
Qed.

(** C6. Atomicity on parse failure: when reading a file the run reads (a
    Current file, or a History file unless history is skipped) raises, the
    run ends in an exception and the stored database is what it was before
    the run, whatever the statements run up to that point did to the
    connection's view.  A file without a header line raises nothing: its
    pass of the loop runs the delete statement and writes no row. *)
Theorem parse_failure_leaves_store stored csv_dir skip_history p :
  p ∈ matching_files CURRENT_RE csv_dir
  ∨ (skip_history = false ∧ p ∈ matching_files HISTORY_RE csv_dir) →
  (∀ e, csv_dir !! p = Some (File (Raise e)) →
     ∃ con e', run csv_dir skip_history stored = (con, Raise e')
               ∧ main stored csv_dir skip_history = (stored, Raise e'))
  ∧ (csv_dir !! p = Some (File (Ok [])) →
     (is_Some (CURRENT_RE p) →
      ∀ con n, current_file csv_dir p (con, n)
               = ((Db (V85.delete_sources p (legacy_current p) (v85 con))
                      (v85_history con), n), Ok tt))
     ∧ (is_Some (HISTORY_RE p) →
        ∀ con n, history_file csv_dir p (con, n)
                 = ((Db (v85 con)
                        (V85History.delete_sources p (legacy_history p)
                           (v85_history con)), n), Ok tt))).
Proof.
  intros Hin. split.
  - intros e Hp.
    destruct (main_unreadable stored csv_dir skip_history p e Hin Hp) as [e' E].
    unfold main in *.
    destruct (run csv_dir skip_history stored) as [con [rep|e'']]; [done|].
    injection E as <-. by exists con, e''.
  - intros Hp. split.
    + intros [[d g] Hre] con n.
      rewrite current_file_readable; [|by eexists|by exists []].
      unfold import_current, current_records.
      rewrite Hre, (file_rows_readable _ _ _ Hp). simpl.
      by rewrite Nat.add_0_r.
    + intros [[d g] Hre] con n.
      rewrite history_file_readable; [|by eexists|by exists []].
      unfold import_history, history_records.
      rewrite Hre, (file_rows_readable _ _ _ Hp). simpl.
      by rewrite Nat.add_0_r.
Qed.

End importer_properties.

(** ** Entries the loaders do not pick up *)

Section unrecognized_facts.
Import Py Exc Norm Naming Importer.
Implicit Types (csv_dir : gmap string entry) (p q : string) (stored con : db).

Lemma for_each_ext {S A} (xs : list A) (f g : A → M S unit) s :
  (∀ x, x ∈ xs → ∀ s, f x s = g x s) → for_each xs f s = for_each xs g s.
Proof.
  revert s. induction xs as [|x xs IH]; intros s H; [done|].
  simpl. unfold bind. rewrite H by left.
  destruct (g x s) as [s' [[]|e]]; [|done].
  apply IH. intros y Hy. apply H. by right.
Qed.

Lemma current_file_lookup d1 d2 q s :
  d1 !! q = d2 !! q → current_file d1 q s = current_file d2 q s.
Proof.
  intros H. unfold current_file, read_rows. by rewrite H.
Qed.

Lemma history_file_lookup d1 d2 q s :
  d1 !! q = d2 !! q → history_file d1 q s = history_file d2 q s.
Proof.
  intros H. unfold history_file, read_rows. by rewrite H.
Qed.

Lemma insert_delete_lookup csv_dir p q e :
  q ≠ p → <[p := e]> csv_dir !! q = delete p csv_dir !! q.
Proof.
  intros H. by rewrite lookup_insert_ne, lookup_delete_ne.
Qed.

Lemma load_current_insert_unmatched csv_dir p e con :
  CURRENT_RE p = None →
  load_current (<[p := e]> csv_dir) con = load_current (delete p csv_dir) con.
Proof.
  intros Hp. unfold load_current, loader.
  rewrite matching_files_insert_unmatched by done.
  rewrite (for_each_ext _ _ (current_file (delete p csv_dir))); [done|].
  intros q [_ Hq]%matching_files_elem_of s.
  apply current_file_lookup, insert_delete_lookup.
  intros ->. rewrite Hp in Hq. by apply is_Some_None in Hq.
Qed.

Lemma load_history_insert_unmatched csv_dir p e con :
  HISTORY_RE p = None →
  load_history (<[p := e]> csv_dir) con = load_history (delete p csv_dir) con.
Proof.
  intros Hp. unfold load_history, loader.
  rewrite matching_files_insert_unmatched by done.
  rewrite (for_each_ext _ _ (history_file (delete p csv_dir))); [done|].
  intros q [_ Hq]%matching_files_elem_of s.
  apply history_file_lookup, insert_delete_lookup.
  intros ->. rewrite Hp in Hq. by apply is_Some_None in Hq.
Qed.

Lemma classify_Unrecognized p :
  classify p = Unrecognized ↔ CURRENT_RE p = None ∧ HISTORY_RE p = None.
Proof.
  unfold classify.
  destruct (CURRENT_RE p) as [[d g]|], (HISTORY_RE p) as [[d' g']|];
    split; intros H; try done; by destruct H.
Qed.

Lemma main_insert_unrecognized stored csv_dir skip_history p e :
  classify p = Unrecognized →
  main stored (<[p := e]> csv_dir) skip_history
  = main stored (delete p csv_dir) skip_history.
Proof.
  intros [Hc Hh]%classify_Unrecognized. unfold main, run, bind.
  rewrite load_current_insert_unmatched by done.
  destruct (load_current (delete p csv_dir) stored) as [con [c|e']]; [|done].
  destruct skip_history; [done|].
  by rewrite load_history_insert_unmatched.
Qed.

Lemma matching_files_singleton re p x :
  matching_files re {[p := x]}
  = if decide (is_file x ∧ is_Some (re p)) then [p] else [].
Proof.
  unfold matching_files. rewrite map_to_list_singleton, filter_cons, filter_nil.
  simpl. by destruct (decide _).
Qed.

(** C8. Unrecognised files ignored: an entry whose name matches neither
    pattern makes no difference to a run, whatever it holds (it is never
    read, so even an unreadable one raises nothing); the database and the
    reported counts are those of the run without it.  With one Current
    file next to it, one file is reported. *)
Theorem unrecognized_entry_ignored stored csv_dir skip_history p e :
  classify p = Unrecognized →
  main stored (<[p := e]> csv_dir) skip_history
  = main stored (delete p csv_dir) skip_history
  ∧ ∀ q records, is_Some (CURRENT_RE q) →
      (main stored (<[p := e]> {[q := File (Ok records)]}) skip_history).2
      = Ok (Report 1 (length (DictReader records)) 0 0).
Proof.
  intros Hp. split; [by apply main_insert_unrecognized|].
  intros q records Hq. rewrite main_insert_unrecognized by done.
  assert (q ≠ p) as Hne.
  { intros ->. apply classify_Unrecognized in Hp as [Hp _].
    rewrite Hp in Hq. by apply is_Some_None in Hq. }
  rewrite delete_singleton_ne by done.
  assert (matching_files CURRENT_RE {[q := File (Ok records)]} = [q]) as Hc.
  { rewrite matching_files_singleton. by rewrite decide_True. }
  assert (matching_files HISTORY_RE ({[q := File (Ok records)]} : gmap string entry)
          = []) as Hh.
  { rewrite matching_files_singleton. rewrite decide_False; [done|].
    rewrite (CURRENT_HISTORY_disjoint q Hq). by intros [_ ?%is_Some_None]. }
  assert (readable ({[q := File (Ok records)]} : gmap string entry) q) as Hr.
  { exists records. apply lookup_singleton_eq. }
  rewrite main_readable.
  - unfold run_result, written_current, written_history. rewrite Hc, Hh.
    simpl. rewrite app_nil_r, current_records_length by done.
    rewrite (file_rows_readable _ _ records) by apply lookup_singleton_eq.
    by destruct skip_history.
  - rewrite Hc. by constructor.
  - intros _. rewrite Hh. constructor.
Qed.

End unrecognized_facts.

(** ** Attribution of the rows a run writes *)

Section attribution_facts.
Import Py Exc Norm Naming Importer.
Implicit Types (csv_dir : gmap string entry) (p q : string) (stored con : db).

Lemma current_file_Ok_inv csv_dir p s s' :
  current_file csv_dir p s = (s', Ok tt) →
  is_Some (CURRENT_RE p) ∧ readable csv_dir p.
Proof.
  unfold current_file. destruct (CURRENT_RE p) as [[d g]|] eqn:Hre; [|done].
  unfold bind at 1. unfold read_rows.
  destruct (csv_dir !! p) as [[|[rows|e]]|] eqn:Hp; try done.
  intros _. split; [done|by exists rows].
Qed.

Lemma history_file_Ok_inv csv_dir p s s' :
  history_file csv_dir p s = (s', Ok tt) →
  is_Some (HISTORY_RE p) ∧ readable csv_dir p.
Proof.
  unfold history_file. destruct (HISTORY_RE p) as [[d g]|] eqn:Hre; [|done].
  unfold bind at 1. unfold read_rows.
  destruct (csv_dir !! p) as [[|[rows|e]]|] eqn:Hp; try done.
  intros _. split; [done|by exists rows].
Qed.

Lemma for_each_Ok_inv {S A} (xs : list A) (body : A → M S unit)
    (P : A → Prop) s s' :
  (∀ x s s', body x s = (s', Ok tt) → P x) →
  for_each xs body s = (s', Ok tt) → Forall P xs.
Proof.
  intros HP. revert s. induction xs as [|x xs IH]; intros s; [by constructor|].
  simpl. unfold bind. destruct (body x s) as [s1 [[]|e]] eqn:E; [|done].
  intros H. constructor; [by eapply HP|by eapply IH].
Qed.


(** C10. Attribution invariant: one pass of a loader's loop leaves every
    row it did not write as it found it and files every row it wrote under
    the name of the file, never under the alias, so that no row is filed
    under the alias afterwards; and within a run, the rows a file's delete
    statement finds under the file's alias were in the database before the
    run began. *)
Theorem rows_filed_under_own_name csv_dir :
  (∀ p con n s',
     current_file csv_dir p (con, n) = (s', Ok tt) →
     ∀ r, r ∈ v85 s'.1 →
       V85.source_file r ≠ legacy_current p
       ∧ ((V85.source_file r = p ∧ r ∈ current_records csv_dir p)
          ∨ (V85.source_file r ≠ p ∧ r ∈ v85 con)))
  ∧ (∀ p con n s',
     history_file csv_dir p (con, n) = (s', Ok tt) →
     ∀ r, r ∈ v85_history s'.1 →
       V85History.source_file r ≠ legacy_history p
       ∧ ((V85History.source_file r = p ∧ r ∈ history_records csv_dir p)
          ∨ (V85History.source_file r ≠ p ∧ r ∈ v85_history con)))
  ∧ (∀ stored before p rest s,
     matching_files CURRENT_RE csv_dir = before ++ p :: rest →
     for_each before (current_file csv_dir) (stored, 0) = (s, Ok tt) →
     ∀ r, r ∈ v85 s.1 →
       V85.source_file r = legacy_current p → r ∈ v85 stored)
  ∧ (∀ con before p rest s,
     matching_files HISTORY_RE csv_dir = before ++ p :: rest →
     for_each before (history_file csv_dir) (con, 0) = (s, Ok tt) →
     ∀ r, r ∈ v85_history s.1 →
       V85History.source_file r = legacy_history p → r ∈ v85_history con).
Proof.
  split_and!.
  - intros p con n s' H r Hr.
    pose proof (current_file_Ok_inv _ _ _ _ H) as [Hre Hp].
    rewrite current_file_readable in H by done. injection H as <-.
    simpl in Hr. apply elem_of_import_current in Hr as [Hr|(Hr & H1 & H2)].
    + pose proof (current_records_source _ _ _ Hr) as Hs. split; [|by left].
      rewrite Hs. intros E. by eapply (legacy_current_fresh p p).
    + split; [done|by right].
  - intros p con n s' H r Hr.
    pose proof (history_file_Ok_inv _ _ _ _ H) as [Hre Hp].
    rewrite history_file_readable in H by done. injection H as <-.
    simpl in Hr. rewrite import_history_eq in Hr.
    apply elem_of_app in Hr as [[[H1 H2] Hr]%list_elem_of_filter|Hr].
    + split; [done|by right].
    + pose proof (history_records_source _ _ _ Hr) as Hs. split; [|by left].
      rewrite Hs. intros E. by eapply (legacy_history_fresh p p).
  - intros stored before p rest s Hfiles H r Hr Hleg.
    pose proof (listed_recognized CURRENT_RE csv_dir) as Hrec.
    rewrite Hfiles in Hrec. apply Forall_app in Hrec as [Hb Hp%Forall_inv].
    pose proof (for_each_Ok_inv _ _ _ _ _ (current_file_Ok_inv csv_dir) H) as Hok.
    rewrite for_each_current_readable in H by done. injection H as <-.
    simpl in Hr. apply elem_of_import_all_current in Hr as [Hr|[Hr _]]; [|done].
    apply written_source in Hr. rewrite Forall_forall in Hb.
    destruct (legacy_current_fresh (V85.source_file r) p); auto.
  - intros con before p rest s Hfiles H r Hr Hleg.
    pose proof (listed_recognized HISTORY_RE csv_dir) as Hrec.
    pose proof (matching_files_NoDup HISTORY_RE csv_dir) as Hnd.
    rewrite Hfiles in Hrec, Hnd.
    apply Forall_app in Hrec as [Hb Hp%Forall_inv].
    apply NoDup_app in Hnd as (Hnd & _ & _).
    pose proof (for_each_Ok_inv _ _ _ _ _ (history_file_Ok_inv csv_dir) H) as Hok.
    rewrite for_each_history_readable in H by done. injection H as <-.
    simpl in Hr. rewrite import_all_history_eq in Hr by done.
    apply elem_of_app in Hr as [[_ Hr]%list_elem_of_filter|Hr]; [done|].
    apply written_history_source in Hr. rewrite Forall_forall in Hb.
    destruct (legacy_history_fresh (V85History.source_file r) p); auto.
Qed.

End attribution_facts.

(** ** Facts about the history collector *)

Section collector_facts.
Import Py Collector.
Context {record cells : Type}.
Variable date : record → string.
Variable fmt : record → cells.
Variable fetch_records : Z → list record.
Implicit Types (l : list (row cells)) (x y : row cells) (race : list start).

Lemma ltb_true_le (a b : string) : String.ltb a b = true → String.le a b.
Proof.
  unfold String.le, String.ltb, String.leb.
  by destruct (String.compare a b).
Qed.

Lemma ltb_false_le (a b : string) : String.ltb a b = false → String.le b a.
Proof.
  unfold String.le, String.ltb, String.leb.
  rewrite (String.compare_antisym b a).
  by destruct (String.compare a b).
Qed.

Lemma ltb_irrefl (a : string) : String.ltb a a = false.
Proof.
  unfold String.ltb. pose proof (String.compare_antisym a a) as H.
  destruct (String.compare a a); simpl in H; done.
Qed.

Lemma insert_desc_Permutation x l : insert_desc x l ≡ₚ x :: l.
Proof.
  induction l as [|y l IH]; simpl; [done|].
  destruct (String.ltb (datum x) (datum y)); [|done].
  by rewrite IH, Permutation_swap.
Qed.

Lemma sort_newest_first_Permutation l : sort_newest_first l ≡ₚ l.
Proof.
  induction l as [|x l IH]; simpl; [done|].
  by rewrite insert_desc_Permutation, IH.
Qed.

Lemma insert_desc_HdRel a x l :
  newest_first a x → HdRel newest_first a l →
  HdRel newest_first a (insert_desc x l).
Proof.
  intros Hax Hl. destruct l as [|y l]; simpl; [by constructor|].
  destruct (String.ltb (datum x) (datum y)); [|by constructor].
  inversion Hl; subst. by constructor.
Qed.

Lemma insert_desc_Sorted x l :
  Sorted newest_first l → Sorted newest_first (insert_desc x l).
Proof.
  induction 1 as [|y l Hs IH Hhd]; simpl; [by repeat constructor|].
  destruct (String.ltb (datum x) (datum y)) eqn:E.
  - constructor; [done|]. apply insert_desc_HdRel; [|done].
    by apply ltb_true_le.
  - constructor; [by constructor|]. constructor. by apply ltb_false_le.
Qed.

Lemma sort_newest_first_Sorted l : Sorted newest_first (sort_newest_first l).
Proof.
  induction l as [|x l IH]; simpl; [constructor|].
  by apply insert_desc_Sorted.
Qed.

Lemma insert_desc_stable d x l :
  filter (λ r, datum r = d) (insert_desc x l)
  = filter (λ r, datum r = d) (x :: l).
Proof.
  induction l as [|y l IH]; simpl; [done|].
  destruct (String.ltb (datum x) (datum y)) eqn:E; [|done].
  rewrite filter_cons, IH, !filter_cons.
  destruct (decide (datum y = d)) as [Hy|Hy], (decide (datum x = d)) as [Hx|Hx];
    try done.
  rewrite Hy, Hx, ltb_irrefl in E. done.
Qed.

(** Rows with the same date leave the sort in the order they entered it. *)
Lemma sort_newest_first_stable d l :
  filter (λ r, datum r = d) (sort_newest_first l) = filter (λ r, datum r = d) l.
Proof.
  induction l as [|x l IH]; simpl; [done|].
  by rewrite insert_desc_stable, !filter_cons, IH.
Qed.

Lemma slice_to_take {A} (n : Z) (l : list A) :
  (0 ≤ n)%Z → slice_to n l = take (Z.to_nat n) l.
Proof.
  intros H. unfold slice_to. by rewrite (proj2 (Z.leb_le 0 n) H).
Qed.

Lemma horses_snoc race st :
  horses date fmt fetch_records (race ++ [st])
  = horses date fmt fetch_records race
    ++ option_list (horse_rows date fmt fetch_records st).
Proof.
  unfold horses. rewrite omap_app. simpl.
  by destruct (horse_rows date fmt fetch_records st).
Qed.

Lemma by_horse_snoc race st n :
  by_horse date fmt fetch_records (race ++ [st]) n
  = match horse_rows date fmt fetch_records st with
    | None => by_horse date fmt fetch_records race n
    | Some (horse_name, rows) =>
        <[horse_name := slice_to n (sort_newest_first rows)]>
          (by_horse date fmt fetch_records race n)
    end.
Proof. unfold by_horse. by rewrite foldl_app. Qed.

(** With one start per name, [by_horse] holds under every name the capped,
    sorted rows of the start of that name. *)
Lemma by_horse_lookup race n name v :
  NoDup (horses date fmt fetch_records race).*1 →
  by_horse date fmt fetch_records race n !! name = Some v ↔
  ∃ rows, (name, rows) ∈ horses date fmt fetch_records race
          ∧ v = slice_to n (sort_newest_first rows).
Proof.
  induction race as [|st race IH] using rev_ind; intros Hnd.
  - unfold by_horse, horses. simpl. rewrite lookup_empty. split; [done|].
    by intros (rows & ?%elem_of_nil & _).
  - rewrite horses_snoc in Hnd. rewrite horses_snoc, by_horse_snoc.
    rewrite fmap_app in Hnd. apply NoDup_app in Hnd as (Hnd & Hfresh & _).
    destruct (horse_rows date fmt fetch_records st) as [[hn rows]|]; simpl.
    + destruct (decide (hn = name)) as [->|Hne].
      * rewrite lookup_insert_eq. split.
        -- intros [= <-]. exists rows. split; [|done].
           apply elem_of_app. right. left.
        -- intros (rows' & [Hin|Hin%list_elem_of_singleton]%elem_of_app & ->).
           ++ exfalso. apply (Hfresh name); [|left].
              apply list_elem_of_fmap. by exists (name, rows').
           ++ by injection Hin as ->.
      * rewrite lookup_insert_ne by done. rewrite IH by done.
        split; intros (rows' & Hin & ->); exists rows'; split; try done.
        -- apply elem_of_app. by left.
        -- apply elem_of_app in Hin as [?|Hin%list_elem_of_singleton]; [done|].
           congruence.
    + rewrite app_nil_r. by apply IH.
Qed.

Lemma by_horse_to_list race n :
  NoDup (horses date fmt fetch_records race).*1 →
  map_to_list (by_horse date fmt fetch_records race n)
  ≡ₚ (λ h, (h.1, slice_to n (sort_newest_first h.2)))
       <$> horses date fmt fetch_records race.
Proof.
  intros Hnd. apply NoDup_Permutation.
  - apply NoDup_map_to_list.
  - apply (NoDup_fmap_1 fst). by rewrite <- list_fmap_compose.
  - intros [name v]. rewrite elem_of_map_to_list, by_horse_lookup by done.
    rewrite list_elem_of_fmap. split.
    + intros (rows & Hin & ->). by exists (name, rows).
    + intros ([name' rows] & [= -> ->] & Hin). by exists rows.
Qed.

Local Instance name_le_total {A} :
  Total (λ a b : string * A, String.le a.1 b.1).
Proof. intros a b. apply (total String.le). Qed.

Lemma collect_sorted_names race n :
  NoDup (horses date fmt fetch_records race).*1 →
  merge_sort String.le
    (map_to_list (by_horse date fmt fetch_records race n)).*1
  = (merge_sort (λ a b, String.le a.1 b.1)
       (horses date fmt fetch_records race)).*1.
Proof.
  intros Hnd. apply (Sorted_unique String.le).
  - apply Sorted_merge_sort, _.
  - eapply Sorted_fmap; [|apply Sorted_merge_sort, _]. done.
  - rewrite !merge_sort_Permutation, by_horse_to_list by done.
    by rewrite <- list_fmap_compose.
Qed.

(** One pass of the loop of [load_history] files every row of the file:
    nothing is cut after the collector. *)
Lemma history_file_keeps_all csv_dir p con k s' :
  Importer.history_file csv_dir p (con, k) = (s', Exc.Ok tt) →
  filter (λ r, V85History.source_file r = p) (Importer.v85_history s'.1)
  = Importer.history_records csv_dir p
  ∧ length (Importer.history_records csv_dir p)
    = length (Importer.file_rows csv_dir p).
Proof.
  intros H. pose proof (history_file_Ok_inv _ _ _ _ H) as [Hre Hp].
  rewrite history_file_readable in H by done. injection H as <-. simpl.
  split; [|by apply history_records_length].
  rewrite import_history_eq, filter_app.
  rewrite filter_none, filter_all; [done| |].
  - apply Forall_forall. intros r Hr. by apply history_records_source in Hr.
  - apply Forall_forall. intros r [[H _] _]%list_elem_of_filter. done.
Qed.

(** The retention policy where it holds, that is for races in which no two
    collected starts share a name: with a cap of at least one, every horse
    keeps the first [n] of its rows sorted newest first, the sort being
    stable, and the horses come in ascending order of name as [sorted]
    orders [str] values, by code point ([Zeus] before [ada]); the importer
    then files every row of a History file it reads. *)
Theorem retention_keeps_newest race n :
  (1 ≤ n)%Z →
  NoDup (horses date fmt fetch_records race).*1 →
  retention_policy date fmt fetch_records race (Z.to_nat n)
    (collect_history_rows date fmt fetch_records race n)
  ∧ (∀ l : list (row cells),
       sort_newest_first l ≡ₚ l
       ∧ Sorted newest_first (sort_newest_first l)
       ∧ ∀ d, filter (λ r, datum r = d) (sort_newest_first l)
              = filter (λ r, datum r = d) l)
  ∧ (∀ csv_dir p con k s',
       Importer.history_file csv_dir p (con, k) = (s', Exc.Ok tt) →
       filter (λ r, V85History.source_file r = p) (Importer.v85_history s'.1)
       = Importer.history_records csv_dir p
       ∧ length (Importer.history_records csv_dir p)
         = length (Importer.file_rows csv_dir p)).
Proof.
  intros Hn Hnd. split_and!.
  - exists (merge_sort (λ a b, String.le a.1 b.1)
              (horses date fmt fetch_records race)).
    split_and!.
    + apply merge_sort_Permutation.
    + apply Sorted_merge_sort, _.
    + unfold collect_history_rows. rewrite collect_sorted_names by done.
      rewrite list_fmap_bind. apply Forall_bind_ext, Forall_forall.
      intros [name rows] Hin. simpl.
      rewrite merge_sort_Permutation in Hin.
      apply lookup_total_correct. rewrite by_horse_lookup by done.
      exists rows. split; [done|]. symmetry. apply slice_to_take. lia.
  - intros l. split_and!.
    + apply sort_newest_first_Permutation.
    + apply sort_newest_first_Sorted.
    + intros d. apply sort_newest_first_stable.
  - apply history_file_keeps_all.
Qed.

End collector_facts.

(** ** Properties of the row normaliser *)

Section normaliser_properties.
Import Py Exc Norm Naming Importer.
Implicit Types (m : gmap string pyval) (r : gmap string (option string)).




End normaliser_properties.

(** ** Properties of the naming resolver *)

Section naming_properties.
Import Py Exc Norm Naming Importer.

(** Every name of the documented shape is a Current file, whatever its
    eight digits are, and its date is the three slices of the digits. *)
Lemma documented_current_name_accepted (y m dd : string) (c : ascii) :
  String.length y = 4 → String.length m = 2 → String.length dd = 2 →
  all_digits (y +:+ m +:+ dd) = true → is_1_8 c = true →
  classify ("v85_" +:+ (y +:+ m +:+ dd) +:+ "_" +:+ String c "" +:+ ".csv")
  = Current (y +:+ "-" +:+ m +:+ "-" +:+ dd) (String c "")
      ("v86_" +:+ (y +:+ m +:+ dd) +:+ "_" +:+ String c "" +:+ ".csv").
Proof.
  intros Hy Hm Hd Hdig Hc. unfold classify.
  assert (CURRENT_RE ("v85_" +:+ (y +:+ m +:+ dd) +:+ "_" +:+ String c ""
                        +:+ ".csv")
          = Some (y +:+ m +:+ dd, String c "")) as ->.
  { apply CURRENT_RE_Some. exists "". split; [done|].
    split_and!; [|done|by exists c|by left].
    destruct y as [|y1 [|y2 [|y3 [|y4 [|]]]]]; try done.
    destruct m as [|m1 [|m2 [|]]]; try done.
    destruct dd as [|d1 [|d2 [|]]]; done. }
  by rewrite yyyymmdd_to_iso_slices, legacy_current_prefix.
Qed.

(** What the Current pattern accepts: the documented shape, or that shape
    followed by one line feed. *)
Lemma current_name_shape name date division legacy_alias :
  classify name = Current date division legacy_alias ↔
  ∃ d tail, name = "v85_" +:+ d +:+ "_" +:+ division +:+ ".csv" +:+ tail
            ∧ tail_shape d division tail
            ∧ date = yyyymmdd_to_iso d
            ∧ legacy_alias
              = "v86_" +:+ d +:+ "_" +:+ division +:+ ".csv" +:+ tail.
Proof.
  unfold classify. split.
  - destruct (CURRENT_RE name) as [[d g]|] eqn:E.
    + intros [= <- <- <-]. apply CURRENT_RE_Some in E as (tail & -> & H).
      exists d, tail. by rewrite legacy_current_prefix.
    + by destruct (HISTORY_RE name) as [[d g]|].
  - intros (d & tail & -> & H & -> & ->).
    assert (CURRENT_RE ("v85_" +:+ d +:+ "_" +:+ division +:+ ".csv" +:+ tail)
            = Some (d, division)) as ->.
    { apply CURRENT_RE_Some. by exists tail. }
    by rewrite legacy_current_prefix.
Qed.

(** C7, at the name that ends in a line feed: the name is not of the
    documented shape, yet it is classified as the Current file of
    2026-01-01, division 1, and [load_current] lists it for import; the
    History pattern accepts a line feed after [.csv] in the same way. *)
Theorem trailing_line_feed_accepted :
  Fixture.newline_name ≠ "v85_" +:+ "20260101" +:+ "_" +:+ "1" +:+ ".csv"
  ∧ classify Fixture.newline_name
    = Current "2026-01-01" "1" ("v86_20260101_1.csv" +:+ String newline "")
  ∧ matching_files CURRENT_RE
      {[ Fixture.newline_name := File (Ok [["startnummer"]]) ]}
    = [Fixture.newline_name]
  ∧ classify ("v85_history_20260101_1.csv" +:+ String newline "")
    = History "1" ("v86_history_20260101_1.csv" +:+ String newline "").
Proof. split_and!; [done|reflexivity|by vm_compute|reflexivity]. Qed.

End naming_properties.

(** ** The properties on the concrete inputs *)

Section concrete.
Import Py Exc Norm Naming Importer Fixture.

(** C5, at a race with two horses of one name, ids 1 and 2, one result
    each and a cap of five: both starts are collected, but the second
    start replaces the rows of the first in [by_horse], so the output
    holds the one row of the second horse and the result of the first
    horse, well within the cap, is lost; the retention policy does not
    describe this output. *)
Theorem shared_name_drops_a_horse :
  Collector.horses id no_cells same_name_fetch same_name_race
  = [ ("Ada", [Collector.Row "Ada" "2026-01-02" tt]);
      ("Ada", [Collector.Row "Ada" "2026-01-01" tt]) ]
  ∧ Collector.collect_history_rows id no_cells same_name_fetch
      same_name_race 5
    = [Collector.Row "Ada" "2026-01-01" tt]
  ∧ ¬ Collector.retention_policy id no_cells same_name_fetch same_name_race
        (Z.to_nat 5)
        (Collector.collect_history_rows id no_cells same_name_fetch
           same_name_race 5).
Proof.
  split_and!; [by vm_compute..|].
  intros (hs & Hperm & _ & Hout).
  apply (f_equal length) in Hout.
  rewrite Hperm in Hout. vm_compute in Hout. discriminate.
Qed.

(** The retention example: eight results on eight days, cap five. *)
Example retention_eight_days_cap_five :
  Collector.datum
    <$> Collector.collect_history_rows id no_cells eight_days one_horse_race 5
  = ["2026-01-08"; "2026-01-07"; "2026-01-06"; "2026-01-05"; "2026-01-04"]
  ∧ Collector.hastnamn
      <$> Collector.collect_history_rows id no_cells eight_days one_horse_race 5
    = ["Odin"; "Odin"; "Odin"; "Odin"; "Odin"].
Proof. split; reflexivity. Qed.

(** A run over [csv_dir]: Odin is overwritten, the rows filed under the two
    legacy names are gone, [notes.txt] is not read. *)
Example run_over_fixture :
  main stored csv_dir false
  = (Db [odin_written] [odin_result_written; odin_result_written],
     Ok (Report 1 1 1 2)).
Proof. by vm_compute. Qed.

(** With the unreadable History file the statements of [load_current] have
    run on the connection, and the stored database is unchanged. *)
Example run_over_broken_fixture :
  run broken_dir false stored
  = (Db [odin_written] (v85_history stored), Raise ReadError)
  ∧ main stored broken_dir false = (stored, Raise ReadError)
  ∧ main stored broken_dir true
    = (Db [odin_written] (v85_history stored), Ok (Report 1 1 0 0)).
Proof. split_and!; by vm_compute. Qed.

(** A recognised file without a header line raises nothing: the run
    commits, the file counts as processed with no rows, and the row filed
    under its alias is deleted. *)
Lemma headerless_file_is_not_fatal :
  ¬ (∀ stored csv_dir skip_history p e,
       p ∈ matching_files CURRENT_RE csv_dir →
       csv_dir !! p = Some e → unparsable e →
       ∃ e', main stored csv_dir skip_history = (stored, Raise e')).
Proof.
  intros H.
  destruct (H stored empty_file_dir false current_name (File (Ok [])))
    as [e' He']; [compute_done|by vm_compute|exact I|].
  vm_compute in He'. discriminate.
Qed.

Example run_over_empty_file :
  main stored empty_file_dir false
  = (Db [V85.Row "2026-01-01" "1" "1" "Odin" "" "" "" "3.00" "" "older.csv"]
        (v85_history stored),
     Ok (Report 1 0 0 0)).
Proof. by vm_compute. Qed.

(** Two History files with rows of the same horse: the rows of both stay,
    and a second run leaves two rows under each file. *)
Example two_history_files_keep_both :
  V85History.source_file
    <$> v85_history (main stored two_history_dir false).1
  = [ history_name; history_name;
      "v85_history_20260108_1.csv"; "v85_history_20260108_1.csv" ]
  ∧ main (main stored two_history_dir false).1 two_history_dir false
    = main stored two_history_dir false.
Proof. split; by vm_compute. Qed.

Lemma import_twice_same_store_witness :
  V85.unique (v85 stored)
  ∧ v85 (main (main stored csv_dir false).1 csv_dir false).1
    ≡ₚ v85 (main stored csv_dir false).1
  ∧ length (v85 (main (main stored csv_dir false).1 csv_dir false).1)
    = length (v85 (main stored csv_dir false).1)
  ∧ v85_history (main (main stored csv_dir false).1 csv_dir false).1
    = v85_history (main stored csv_dir false).1
  ∧ (main (main stored csv_dir false).1 csv_dir false).2
    = (main stored csv_dir false).2.
Proof.
  assert (V85.unique (v85 stored)) as Hu by compute_done.
  split; [exact Hu|].
  exact (import_twice_same_store stored csv_dir false Hu).
Defined.

Lemma upsert_last_write_wins_witness :
  V85.unique (v85 stored)
  ∧ main stored csv_dir false
    = (Db [odin_written] [odin_result_written; odin_result_written],
       Ok (Report 1 1 1 2))
  ∧ last (filter (λ r, V85.key r = ("2026-01-01", "1", "Odin"))
            (written_current csv_dir)) = Some odin_written
  ∧ V85.unique [odin_written]
  ∧ filter (λ r, V85.key r = ("2026-01-01", "1", "Odin")) [odin_written]
    = [odin_written].
Proof.
  assert (V85.unique (v85 stored)) as Hu by compute_done.
  assert (main stored csv_dir false
          = (Db [odin_written] [odin_result_written; odin_result_written],
             Ok (Report 1 1 1 2))) as Hm by (by vm_compute).
  assert (last (filter (λ r, V85.key r = ("2026-01-01", "1", "Odin"))
                  (written_current csv_dir)) = Some odin_written) as Hl
    by (by vm_compute).
  split; [exact Hu|]. split; [exact Hm|]. split; [exact Hl|].
  exact (upsert_last_write_wins stored csv_dir false _ _ _ _ Hu Hm Hl).
Defined.

Lemma legacy_rows_superseded_witness :
  V85.unique (v85 stored)
  ∧ main stored csv_dir false
    = (Db [odin_written] [odin_result_written; odin_result_written],
       Ok (Report 1 1 1 2))
  ∧ (∃ rest, current_name = "v85_" +:+ rest
             ∧ legacy_current current_name = "v86_" +:+ rest)
  ∧ (∀ r, r ∈ [odin_written] →
       V85.source_file r ≠ legacy_current current_name
       ∧ (V85.source_file r = current_name →
          r ∈ current_records csv_dir current_name)).
Proof.
  assert (V85.unique (v85 stored)) as Hu by compute_done.
  assert (main stored csv_dir false
          = (Db [odin_written] [odin_result_written; odin_result_written],
             Ok (Report 1 1 1 2))) as Hm by (by vm_compute).
  assert (current_name ∈ matching_files CURRENT_RE csv_dir) as Hin
    by compute_done.
  split; [exact Hu|]. split; [exact Hm|].
  destruct (legacy_rows_superseded stored csv_dir false _ _ Hu Hm) as [Hc _].
  destruct (Hc current_name Hin) as (Hshape & Hrows & _).
  split; [exact Hshape|exact Hrows].
Defined.

Lemma history_rows_appended_witness :
  main stored csv_dir false
  = (Db [odin_written] [odin_result_written; odin_result_written],
     Ok (Report 1 1 1 2))
  ∧ [odin_result_written; odin_result_written]
    = unclaimed (matching_files HISTORY_RE csv_dir) (v85_history stored)
      ++ (matching_files HISTORY_RE csv_dir ≫= history_records csv_dir)
  ∧ v85_history
      (main (Db [odin_written] [odin_result_written; odin_result_written])
         csv_dir false).1
    = [odin_result_written; odin_result_written].
Proof.
  assert (main stored csv_dir false
          = (Db [odin_written] [odin_result_written; odin_result_written],
             Ok (Report 1 1 1 2))) as Hm by (by vm_compute).
  split; [exact Hm|].
  destruct (history_rows_appended stored csv_dir _ _ Hm) as (H1 & _ & H3).
  split; [exact H1|exact H3].
Defined.

Lemma parse_failure_leaves_store_witness :
  (history_name ∈ matching_files CURRENT_RE broken_dir
   ∨ (false = false ∧ history_name ∈ matching_files HISTORY_RE broken_dir))
  ∧ broken_dir !! history_name = Some (File (Raise ReadError))
  ∧ ∃ con e', run broken_dir false stored = (con, Raise e')
              ∧ main stored broken_dir false = (stored, Raise e').
Proof.
  assert (history_name ∈ matching_files HISTORY_RE broken_dir) as Hin
    by compute_done.
  assert (broken_dir !! history_name = Some (File (Raise ReadError))) as Hp
    by (by vm_compute).
  split; [right; split; [reflexivity|exact Hin]|]. split; [exact Hp|].
  exact (proj1 (parse_failure_leaves_store stored broken_dir false history_name
                  (or_intror (conj eq_refl Hin))) ReadError Hp).
Defined.

Lemma unrecognized_entry_ignored_witness :
  classify "notes.txt" = Unrecognized
  ∧ main stored (<["notes.txt" := File (Raise ReadError)]> csv_dir) false
    = main stored (delete "notes.txt" csv_dir) false
  ∧ (main stored
       (<["notes.txt" := File (Raise ReadError)]>
          {[ current_name := File (Ok current_csv) ]}) false).2
    = Ok (Report 1 1 0 0).
Proof.
  assert (classify "notes.txt" = Unrecognized) as Hp by reflexivity.
  assert (is_Some (CURRENT_RE current_name)) as Hq by (by eexists).
  split; [exact Hp|].
  destruct (unrecognized_entry_ignored stored csv_dir false "notes.txt"
              (File (Raise ReadError)) Hp) as [H1 _].
  destruct (unrecognized_entry_ignored stored csv_dir false "notes.txt"
              (File (Raise ReadError)) Hp) as [_ H2].
  split; [exact H1|exact (H2 current_name current_csv Hq)].
Defined.

Lemma rows_filed_under_own_name_witness :
  current_file csv_dir current_name (stored, 0)
  = ((Db [odin_written] (v85_history stored), 1), Ok tt)
  ∧ odin_written ∈ [odin_written]
  ∧ V85.source_file odin_written ≠ legacy_current current_name
  ∧ ((V85.source_file odin_written = current_name
      ∧ odin_written ∈ current_records csv_dir current_name)
     ∨ (V85.source_file odin_written ≠ current_name
        ∧ odin_written ∈ v85 stored)).
Proof.
  assert (current_file csv_dir current_name (stored, 0)
          = ((Db [odin_written] (v85_history stored), 1), Ok tt)) as Hf
    by (by vm_compute).
  assert (odin_written ∈ [odin_written]) as Hr by compute_done.
  split; [exact Hf|]. split; [exact Hr|].
  destruct (rows_filed_under_own_name csv_dir) as (Hc & _).
  exact (Hc current_name stored 0 _ Hf odin_written Hr).
Defined.

End concrete.

(** ** Further properties of the importer *)

Section importer_extras.
Import Py Exc Norm Naming Importer.
Implicit Types (csv_dir : gmap string entry) (p : string) (stored final con : db).

(** X1. The files a loader processes are exactly the regular files of the
    directory whose names match its pattern, each once, in ascending order
    of name; a directory with a matching name is not among them. *)
Theorem listing_exact_and_ascending re csv_dir :
  Sorted String.le (matching_files re csv_dir)
  ∧ NoDup (matching_files re csv_dir)
  ∧ (∀ p, p ∈ matching_files re csv_dir ↔
          (∃ content, csv_dir !! p = Some (File content)) ∧ is_Some (re p))
  ∧ (∀ p, csv_dir !! p = Some Dir → p ∉ matching_files re csv_dir).
Proof.
  split_and!.
  - apply matching_files_sorted.
  - apply matching_files_NoDup.
  - apply matching_files_elem_of.
  - intros p Hp [[c Hc] _]%matching_files_elem_of. congruence.
Qed.

Lemma for_each_preserves {S A} (P : S → Prop) (xs : list A)
    (body : A → M S unit) s :
  (∀ x s, P s → P (body x s).1) → P s → P (for_each xs body s).1.
Proof.
  intros Hbody. revert s. induction xs as [|x xs IH]; intros s Hs; [done|].
  simpl. unfold bind. pose proof (Hbody x s Hs) as Hx.
  destruct (body x s) as [s1 [[]|e]]; [by apply IH|done].
Qed.

Lemma current_file_keeps_history csv_dir p (s : db * nat) :
  v85_history (current_file csv_dir p s).1.1 = v85_history s.1.
Proof.
  unfold current_file. destruct (CURRENT_RE p) as [[d g]|]; [|done].
  unfold bind at 1. unfold read_rows.
  destruct (csv_dir !! p) as [[|[records|e]]|]; try done.
  unfold lift at 1. cbn [rbind]. unfold bind at 1. unfold modify at 1.
  apply (for_each_preserves
           (λ s' : db * nat, v85_history s'.1 = v85_history s.1)); [|done].
  intros r s' Hs'. unfold bind at 1. unfold lift at 1.
  destruct (current_args _ _ _ _) as [args|e]; [|done].
  unfold bind, modify. done.
Qed.

Lemma history_file_keeps_current csv_dir p (s : db * nat) :
  v85 (history_file csv_dir p s).1.1 = v85 s.1.
Proof.
  unfold history_file. destruct (HISTORY_RE p) as [[d g]|]; [|done].
  unfold bind at 1. unfold read_rows.
  destruct (csv_dir !! p) as [[|[records|e]]|]; try done.
  unfold lift at 1. cbn [rbind]. unfold bind at 1. unfold modify at 1.
  apply (for_each_preserves
           (λ s' : db * nat, v85 s'.1 = v85 s.1)); [|done].
  intros r s' Hs'. unfold bind at 1. unfold lift at 1.
  destruct (history_args _ _ _) as [args|e]; [|done].
  unfold bind, modify. done.
Qed.

(** X2. Each loader works on its own table only: whatever the directory
    holds and however the loop ends, an exception included, [load_current]
    leaves [v85_history] as it found it and [load_history] leaves [v85]. *)
Theorem loaders_keep_the_other_table csv_dir con :
  v85_history (load_current csv_dir con).1 = v85_history con
  ∧ v85 (load_history csv_dir con).1 = v85 con.
Proof.
  split.
  - unfold load_current, loader.
    pose proof (for_each_preserves
                  (λ s : db * nat, v85_history s.1 = v85_history con)
                  (matching_files CURRENT_RE csv_dir)
                  (current_file csv_dir) (con, 0)) as H.
    destruct (for_each _ _ _) as [s [[]|e]]; simpl in *; apply H; try done.
    all: intros p s0 Hs0; by rewrite current_file_keeps_history.
  - unfold load_history, loader.
    pose proof (for_each_preserves
                  (λ s : db * nat, v85 s.1 = v85 con)
                  (matching_files HISTORY_RE csv_dir)
                  (history_file csv_dir) (con, 0)) as H.
    destruct (for_each _ _ _) as [s [[]|e]]; simpl in *; apply H; try done.
    all: intros p s0 Hs0; by rewrite history_file_keeps_current.
Qed.

(** X3. With [--skip-history] no History file is read: the run's outcome
    does not depend on whether they can be read, [v85_history] is left as
    stored and zero History files and rows are reported; and when the run
    without the flag succeeds, the run with it succeeds with the same
    [v85] table and the same Current counts. *)
Theorem skip_history_leaves_history stored csv_dir :
  v85_history (main stored csv_dir true).1 = v85_history stored
  ∧ (∀ final rep, main stored csv_dir true = (final, Ok rep) →
       hist_files rep = 0 ∧ hist_rows rep = 0)
  ∧ (∀ final rep, main stored csv_dir false = (final, Ok rep) →
       main stored csv_dir true
       = (Db (v85 final) (v85_history stored),
          Ok (Report (cur_files rep) (cur_rows rep) 0 0))).
Proof.
  split_and!.
  - destruct (main_cases stored csv_dir true) as [[e E]|(_ & _ & E)];
      by rewrite E.
  - intros final rep (_ & _ & E)%main_Ok_inv. unfold run_result in E.
    by injection E as -> ->.
  - intros final rep (Hc & _ & E)%main_Ok_inv. unfold run_result in E.
    injection E as -> ->. by rewrite main_readable.
Qed.

(** X4. What a successful run reports: the number of files each loader
    listed, and for each loader one count per data row of those files.  For
    History that is the number of rows stored under the names of the files;
    for Current it is an upper bound of it, since rows of one file with the
    same horse name are counted one by one and stored as one. *)
Theorem report_counts_rows_read stored csv_dir skip_history final rep :
  V85.unique (v85 stored) →
  main stored csv_dir skip_history = (final, Ok rep) →
  cur_files rep = length (matching_files CURRENT_RE csv_dir)
  ∧ cur_rows rep
    = length (matching_files CURRENT_RE csv_dir ≫= file_rows csv_dir)
  ∧ length (filter (λ r, V85.source_file r ∈ matching_files CURRENT_RE csv_dir)
              (v85 final)) ≤ cur_rows rep
  ∧ (skip_history = false →
     hist_files rep = length (matching_files HISTORY_RE csv_dir)
     ∧ hist_rows rep
       = length (matching_files HISTORY_RE csv_dir ≫= file_rows csv_dir)
     ∧ hist_rows rep
       = length (filter (λ r, V85History.source_file r
                              ∈ matching_files HISTORY_RE csv_dir)
                   (v85_history final))).
Proof.
  intros Hu (Hc & Hh & E)%main_Ok_inv.
  pose proof (matching_files_NoDup CURRENT_RE csv_dir) as Hnd.
  pose proof (listed_recognized CURRENT_RE csv_dir) as Hre.
  pose proof (matching_files_NoDup HISTORY_RE csv_dir) as Hnd'.
  pose proof (listed_recognized HISTORY_RE csv_dir) as Hre'.
  assert (∀ files, Forall (λ p, is_Some (CURRENT_RE p)) files →
            length (files ≫= current_records csv_dir)
            = length (files ≫= file_rows csv_dir)) as Hlen.
  { induction 1 as [|p files Hp _ IH]; [done|].
    by rewrite !bind_cons, !length_app, IH, current_records_length. }
  assert (∀ files, Forall (λ p, is_Some (HISTORY_RE p)) files →
            length (files ≫= history_records csv_dir)
            = length (files ≫= file_rows csv_dir)) as Hlen'.
  { induction 1 as [|p files Hp _ IH]; [done|].
    by rewrite !bind_cons, !length_app, IH, history_records_length. }
  assert (v85 final
          = import_all_current csv_dir (matching_files CURRENT_RE csv_dir)
              (v85 stored)
          ∧ cur_files rep = length (matching_files CURRENT_RE csv_dir)
          ∧ cur_rows rep = length (written_current csv_dir)) as (Ev & Ef & Er).
  { unfold run_result in E. destruct skip_history; by injection E as -> ->. }
  split_and!.
  - done.
  - rewrite Er. by apply Hlen.
  - rewrite Er, Ev. apply submseteq_length, NoDup_submseteq.
    + apply NoDup_filter, unique_NoDup. by apply unique_import_all_current.
    + intros r [Hs Hr]%list_elem_of_filter.
      apply elem_of_import_all_current in Hr as [Hr|[_ Hr]]; [done|].
      rewrite Forall_forall in Hr. by destruct (Hr _ Hs).
  - intros ->. unfold run_result in E. injection E as -> ->. simpl.
    split_and!; [done|by apply Hlen'|].
    rewrite import_all_history_eq, filter_app by done.
    rewrite filter_none, filter_all; [done| |].
    + apply Forall_forall. intros r. apply written_history_source.
    + apply Forall_forall. intros r [Hr _]%list_elem_of_filter Hs.
      rewrite Forall_forall in Hr. by destruct (Hr _ Hs).
Qed.

Lemma upsert_length new (t : list V85.row) :
  length (V85.upsert new t)
  = if decide (V85.key new ∈ V85.key <$> t) then length t else S (length t).
Proof.
  rewrite <- (length_fmap V85.key), upsert_keys.
  destruct (decide _); rewrite ?length_app, length_fmap; simpl; lia.
Qed.

(** X5. The insert statement of [load_current] on a table that obeys the
    uniqueness constraint: afterwards the key of the new row holds the new
    row, every other key holds what it held, the table has one row more
    when the key was absent and as many as before when it was present, and
    the constraint still holds. *)
Theorem upsert_statement new (t : list V85.row) :
  V85.unique t →
  V85.find_key (V85.key new) (V85.upsert new t) = Some new
  ∧ (∀ k, k ≠ V85.key new →
          V85.find_key k (V85.upsert new t) = V85.find_key k t)
  ∧ length (V85.upsert new t)
    = (if decide (V85.key new ∈ V85.key <$> t) then length t
       else S (length t))
  ∧ V85.unique (V85.upsert new t).
Proof.
  intros Hu. split_and!.
  - rewrite find_key_upsert. by rewrite decide_True.
  - intros k Hk. rewrite find_key_upsert. by rewrite decide_False.
  - apply upsert_length.
  - by apply unique_upsert.
Qed.

(** X6. What a run does not touch: a stored row of [v85] filed under a name
    that is neither the name nor the alias of a listed file, with a key no
    listed file writes, is in the table after the run; so is every stored
    row of [v85_history] filed under such a name. *)
Theorem unrelated_rows_survive stored csv_dir skip_history final rep :
  V85.unique (v85 stored) →
  main stored csv_dir skip_history = (final, Ok rep) →
  (∀ r, r ∈ v85 stored →
     (∀ p, p ∈ matching_files CURRENT_RE csv_dir →
           V85.source_file r ≠ p ∧ V85.source_file r ≠ legacy_current p) →
     V85.key r ∉ V85.key <$> written_current csv_dir →
     r ∈ v85 final)
  ∧ (∀ r, r ∈ v85_history stored →
     (∀ p, p ∈ matching_files HISTORY_RE csv_dir →
           V85History.source_file r ≠ p
           ∧ V85History.source_file r ≠ legacy_history p) →
     r ∈ v85_history final).
Proof.
  intros Hu (Hc & Hh & E)%main_Ok_inv. split.
  - assert (v85 final
            = import_all_current csv_dir (matching_files CURRENT_RE csv_dir)
                (v85 stored)) as ->.
    { unfold run_result in E. destruct skip_history; by injection E as -> _. }
    intros r Hr Hsrc Hkey.
    apply (find_key_Some (V85.key r)).
    rewrite find_key_import_all_current by done.
    rewrite key_fold_unwritten.
    + rewrite (find_key_elem_of _ _ Hu Hr). simpl.
      rewrite decide_True; [done|]. by apply Forall_forall.
    + apply filter_none, Forall_forall. intros r' Hr' Hk. apply Hkey.
      rewrite <- Hk. by apply list_elem_of_fmap_2.
  - intros r Hr Hsrc. unfold run_result in E.
    destruct skip_history; injection E as -> _; simpl; [done|].
    rewrite import_all_history_eq
      by (apply matching_files_NoDup || apply listed_recognized).
    apply elem_of_app. left. apply list_elem_of_filter. split; [|done].
    by apply Forall_forall.
Qed.

(** X7. A directory in which no name matches either pattern, an empty one
    included: the run succeeds, changes nothing and reports zeros, whatever
    the entries hold. *)
Theorem nothing_recognized_nothing_done stored csv_dir skip_history :
  (∀ p, is_Some (csv_dir !! p) → classify p = Unrecognized) →
  main stored csv_dir skip_history = (stored, Ok (Report 0 0 0 0)).
Proof.
  intros H.
  assert (∀ re, (re = CURRENT_RE ∨ re = HISTORY_RE) →
                matching_files re csv_dir = []) as Hnil.
  { intros re Hre. destruct (matching_files re csv_dir) as [|p l] eqn:E; [done|].
    assert (p ∈ matching_files re csv_dir) as Hp by (rewrite E; left).
    apply matching_files_elem_of in Hp as [[c Hc] Hm].
    assert (classify p = Unrecognized) as [H1 H2]%classify_Unrecognized.
    { apply H. by rewrite Hc. }
    destruct Hre as [-> | ->]; [rewrite H1 in Hm|rewrite H2 in Hm];
      by apply is_Some_None in Hm. }
  rewrite main_readable.
  - unfold run_result, written_current, written_history.
    rewrite !Hnil by auto. destruct stored, skip_history; done.
  - rewrite Hnil by auto. constructor.
  - intros _. rewrite Hnil by auto. constructor.
Qed.

Lemma app_empty_r (s : string) : s +:+ "" = s.
Proof. induction s as [|x s IH]; [done|]. by rewrite app_cons, IH. Qed.

Lemma app_assoc_str (a b c : string) : (a +:+ b) +:+ c = a +:+ (b +:+ c).
Proof. induction a as [|x a IH]; [done|]. by rewrite !app_cons, IH. Qed.

Lemma iso_length (d : string) :
  String.length d = 8 → String.length (yyyymmdd_to_iso d) = 10.
Proof.
  intros Hd.
  do 8 (destruct d as [|? d]; [by simpl in Hd|]).
  destruct d; [reflexivity|by simpl in Hd].
Qed.

Lemma iso_back (d : string) :
  String.length d = 8 →
  slice 0 4 (yyyymmdd_to_iso d) +:+ slice 5 7 (yyyymmdd_to_iso d)
  +:+ slice 8 10 (yyyymmdd_to_iso d) = d.
Proof.
  intros Hd.
  do 8 (destruct d as [|? d]; [by simpl in Hd|]).
  destruct d; [reflexivity|by simpl in Hd].
Qed.

Lemma iso_inj (d d' : string) :
  String.length d = 8 → String.length d' = 8 →
  yyyymmdd_to_iso d' = yyyymmdd_to_iso d → d' = d.
Proof.
  intros Hd Hd' E. rewrite <- (iso_back d' Hd'), <- (iso_back d Hd).
  by rewrite E.
Qed.

(** X8. The date column is the eight digits of the file name with two
    hyphens put in and nothing lost: the result has ten characters, taking
    the hyphens out gives the digits back, so two different groups of
    eight characters never give the same date. *)
Theorem yyyymmdd_to_iso_round_trip (d : string) :
  String.length d = 8 →
  String.length (yyyymmdd_to_iso d) = 10
  ∧ slice 0 4 (yyyymmdd_to_iso d) +:+ slice 5 7 (yyyymmdd_to_iso d)
    +:+ slice 8 10 (yyyymmdd_to_iso d) = d
  ∧ (∀ d', String.length d' = 8 →
           yyyymmdd_to_iso d' = yyyymmdd_to_iso d → d' = d).
Proof.
  intros Hd. split_and!.
  - by apply iso_length.
  - by apply iso_back.
  - intros d' Hd'. by apply iso_inj.
Qed.

Lemma tail_newline_or_equal (r t1 t2 : string) :
  (t1 = "" ∨ t1 = String newline "") → (t2 = "" ∨ t2 = String newline "") →
  r +:+ t1 = r +:+ t2
  ∨ r +:+ t1 = (r +:+ t2) +:+ String newline ""
  ∨ r +:+ t2 = (r +:+ t1) +:+ String newline "".
Proof.
  intros [-> | ->] [-> | ->]; rewrite ?app_empty_r; auto.
Qed.

(** X9. The date and division read from a Current file name determine the
    name up to a line feed at its end: two recognised names that give the
    same date and division are equal or differ by one final line feed.  So
    files of different race days or divisions never write the same key. *)
Theorem current_name_determined_by_key n1 n2 date g a1 a2 :
  classify n1 = Current date g a1 →
  classify n2 = Current date g a2 →
  n1 = n2 ∨ n1 = n2 +:+ String newline "" ∨ n2 = n1 +:+ String newline "".
Proof.
  unfold classify. intros H1 H2.
  destruct (CURRENT_RE n1) as [[d1 g1]|] eqn:E1;
    [|destruct (HISTORY_RE n1) as [[? ?]|]; discriminate H1].
  destruct (CURRENT_RE n2) as [[d2 g2]|] eqn:E2;
    [|destruct (HISTORY_RE n2) as [[? ?]|]; discriminate H2].
  injection H1 as Hd1 -> _. injection H2 as Hd2 -> _.
  apply CURRENT_RE_Some in E1 as (t1 & -> & L1 & _ & _ & T1).
  apply CURRENT_RE_Some in E2 as (t2 & -> & L2 & _ & _ & T2).
  assert (d1 = d2) as -> by (apply iso_inj; congruence).
  pose proof (tail_newline_or_equal
                ("v85_" +:+ d2 +:+ "_" +:+ g +:+ ".csv") t1 t2 T1 T2) as H.
  rewrite !app_assoc_str in H. rewrite !app_assoc_str. exact H.
Qed.

Lemma str_int_1_8 (avd : Z) :
  (1 ≤ avd ≤ 8)%Z → ∃ c, str_int avd = String c "" ∧ is_1_8 c = true.
Proof.
  intros H.
  assert (avd = 1 ∨ avd = 2 ∨ avd = 3 ∨ avd = 4 ∨ avd = 5 ∨ avd = 6
          ∨ avd = 7 ∨ avd = 8)%Z as Hc by lia.
  repeat destruct Hc as [-> | Hc]; try subst avd; by eexists.
Qed.

(** X10. The name [get_v85.py] gives its output by default is not a name
    the importer reads; it is the legacy alias of the name with [v85_] in
    place of [v86_], and that name is read as a Current file of the date
    and division the fetch script put into it. *)
Theorem default_current_name_is_an_alias (game_date : string) (avd : Z) :
  String.length game_date = 8 → all_digits game_date = true →
  (1 ≤ avd ≤ 8)%Z →
  classify (Fetch.default_current_name game_date avd) = Unrecognized
  ∧ classify ("v85_" +:+ game_date +:+ "_" +:+ str_int avd +:+ ".csv")
    = Current (yyyymmdd_to_iso game_date) (str_int avd)
              (Fetch.default_current_name game_date avd).
Proof.
  intros Hl Hd Ha. split; [done|].
  destruct (str_int_1_8 avd Ha) as (c & Hc & Hc').
  assert (CURRENT_RE ("v85_" +:+ game_date +:+ "_" +:+ str_int avd +:+ ".csv")
          = Some (game_date, str_int avd)) as E.
  { apply CURRENT_RE_Some. exists "". rewrite app_empty_r.
    split; [done|]. split_and!; [done|done|by exists c|by left]. }
  unfold classify. rewrite E. by rewrite legacy_current_prefix.
Qed.

(** X11. The name [get_v85_history.py] gives its output by default ends in
    a time stamp [YYYYMMDD_HHMMSS], not in a division: the importer does not
    read it, and does not read it either with [v85_history_] in place of
    [v86_history_]. *)
Theorem default_history_name_never_read (d t : string) :
  String.length d = 8 → String.length t = 6 → all_digits t = true →
  classify (Fetch.default_history_name (d +:+ "_" +:+ t)) = Unrecognized
  ∧ classify ("v85_history_" +:+ (d +:+ "_" +:+ t) +:+ ".csv") = Unrecognized.
Proof.
  intros Hd Ht Hdig. split; [done|].
  do 8 (destruct d as [|? d]; [by simpl in Hd|]).
  destruct d; [|by simpl in Hd].
  destruct t as [|t1 [|t2 t]]; [by simpl in Ht..|].
  assert (is_digit t2 = true) as H2.
  { simpl in Hdig. by apply andb_prop in Hdig as [_ [H2 _]%andb_prop]. }
  unfold classify, CURRENT_RE, HISTORY_RE, date_div_csv, take_digits, take_1_8.
  simpl. destruct (_ && _); simpl; [|done].
  destruct (is_1_8 t1); simpl; [|done].
  destruct t2 as [[] [] [] [] [] [] [] []]; (by vm_compute in H2) || done.
Qed.

Lemma dashed_date_iso (d : string) :
  String.length d = 8 → Shape.dashed_date (yyyymmdd_to_iso d) = true.
Proof.
  intros Hd.
  do 8 (destruct d as [|? d]; [by simpl in Hd|]).
  destruct d; [reflexivity|by simpl in Hd].
Qed.

Lemma trimmed_strip (s : string) : Shape.trimmed (strip s) = true.
Proof.
  destruct (strip_spec s) as (_ & Hf & Hl). unfold Shape.trimmed.
  destruct (first_char (strip s)) as [a|]; [|done].
  destruct (last_char (strip s)) as [b|]; [|done].
  by rewrite (Hf a), (Hl b).
Qed.

Lemma current_record_shape (d g tail p : string) r :
  tail_shape d g tail →
  let rec := current_record (yyyymmdd_to_iso d) g p r in
  Shape.dashed_date (V85.datum rec) = true
  ∧ Shape.division (V85.avd rec) = true
  ∧ Forall (λ c, Shape.trimmed c = true)
      [V85.startnummer rec; V85.hastnamn rec; V85.kusk rec; V85.tranare rec;
       V85.v85_procent rec; V85.v_odds rec; V85.vagn rec].
Proof.
  intros H. simpl.
  destruct H as (Hl & Hd & (c & -> & Hc) & _).
  split_and!; [by apply dashed_date_iso|done|].
  repeat constructor; apply trimmed_strip.
Qed.

(** X12. What a successful run leaves under the names of the files it
    listed: every row of [v85] filed under a listed Current file carries
    the date and division of that file's name, the date being the eight
    characters of the name with a hyphen put in after the fourth and the
    sixth, ten characters in all, the division one digit from 1 to 8, and
    its seven text columns without white space at either end; every row of
    [v85_history] filed under a listed History file carries the division
    of that file's name and has its eleven text columns without white
    space at either end. *)
Theorem imported_rows_well_formed stored csv_dir skip_history final rep :
  main stored csv_dir skip_history = (final, Ok rep) →
  (∀ r, r ∈ v85 final →
        V85.source_file r ∈ matching_files CURRENT_RE csv_dir →
        classify (V85.source_file r)
        = Current (V85.datum r) (V85.avd r)
                  (legacy_current (V85.source_file r))
        ∧ Shape.dashed_date (V85.datum r) = true
        ∧ Shape.division (V85.avd r) = true
        ∧ Forall (λ c, Shape.trimmed c = true)
            [V85.startnummer r; V85.hastnamn r; V85.kusk r; V85.tranare r;
             V85.v85_procent r; V85.v_odds r; V85.vagn r])
  ∧ (skip_history = false →
     ∀ r, r ∈ v85_history final →
          V85History.source_file r ∈ matching_files HISTORY_RE csv_dir →
          classify (V85History.source_file r)
          = History (V85History.avd r)
                    (legacy_history (V85History.source_file r))
          ∧ Shape.division (V85History.avd r) = true
          ∧ Forall (λ c, Shape.trimmed c = true)
              [V85History.datum r; V85History.hastnamn r; V85History.bana r;
               V85History.kusk r; V85History.placering r;
               V85History.distans_spor r; V85History.km_tid r;
               V85History.skor r; V85History.odds r; V85History.pris r;
               V85History.vagn r]).
Proof.
  intros (Hc & Hh & E)%main_Ok_inv. split.
  - assert (v85 final
            = import_all_current csv_dir (matching_files CURRENT_RE csv_dir)
                (v85 stored)) as ->.
    { unfold run_result in E. destruct skip_history; by injection E as -> _. }
    intros r Hr Hs.
    apply elem_of_import_all_current in Hr as [Hr|[_ Hr]]; last first.
    { rewrite Forall_forall in Hr. by destruct (Hr _ Hs). }
    apply list_elem_of_bind in Hr as (p & Hr & Hp).
    unfold current_records in Hr.
    destruct (CURRENT_RE p) as [[d g]|] eqn:Ep; [|by apply elem_of_nil in Hr].
    apply list_elem_of_fmap in Hr as (row & -> & _).
    pose proof Ep as (tail & _ & Hshape)%CURRENT_RE_Some.
    split; [|by apply (current_record_shape d g tail)].
    unfold classify. simpl. by rewrite Ep.
  - intros ->. unfold run_result in E. injection E as -> _. simpl.
    intros r Hr Hs.
    rewrite import_all_history_eq in Hr
      by (apply matching_files_NoDup || apply listed_recognized).
    apply elem_of_app in Hr as [[Hr _]%list_elem_of_filter|Hr].
    { rewrite Forall_forall in Hr. by destruct (Hr _ Hs). }
    apply list_elem_of_bind in Hr as (p & Hr & Hp).
    unfold history_records in Hr.
    destruct (HISTORY_RE p) as [[d g]|] eqn:Ep; [|by apply elem_of_nil in Hr].
    apply list_elem_of_fmap in Hr as (row & -> & _).
    pose proof Ep as (tail & _ & _ & _ & (c & -> & Hcc) & _)%HISTORY_RE_Some.
    split_and!.
    + unfold classify. simpl. rewrite Ep.
      destruct (CURRENT_RE p) as [[d' g']|] eqn:Ec; [|done].
      assert (is_Some (CURRENT_RE p)) as Hsome by (by eexists).
      apply CURRENT_HISTORY_disjoint in Hsome. congruence.
    + done.
    + simpl. repeat constructor; apply trimmed_strip.
Qed.

End importer_extras.


(** ** The order in which the files are processed *)

Section order_extras.
Import Py Exc Norm Naming Importer.
Implicit Types (csv_dir : gmap string entry) (p : string).

Lemma same_key_names n1 n2 d1 d2 g :
  CURRENT_RE n1 = Some (d1, g) → CURRENT_RE n2 = Some (d2, g) →
  yyyymmdd_to_iso d1 = yyyymmdd_to_iso d2 →
  n1 = n2 ∨ Shape.twins n1 n2.
Proof.
  intros (t1 & -> & L1 & _ & _ & T1)%CURRENT_RE_Some
         (t2 & -> & L2 & _ & _ & T2)%CURRENT_RE_Some E.
  assert (d1 = d2) as -> by (by apply iso_inj).
  pose proof (tail_newline_or_equal
                ("v85_" +:+ d2 +:+ "_" +:+ g +:+ ".csv") t1 t2 T1 T2) as H.
  rewrite !app_assoc_str in H. unfold Shape.twins.
  rewrite !app_assoc_str. tauto.
Qed.

Lemma filter_bind_only {A B} `{!EqDecision A} (P : B → Prop)
    `{!∀ x, Decision (P x)} (f : A → list B) (l : list A) (a : A) :
  NoDup l → a ∈ l →
  (∀ b, b ∈ l → b ≠ a → filter P (f b) = []) →
  filter P (l ≫= f) = filter P (f a).
Proof.
  intros Hnd. induction Hnd as [|x l Hx Hnd IH]; [by intros ?%elem_of_nil|].
  intros Ha Hother. rewrite bind_cons, filter_app.
  destruct (decide (x = a)) as [->|Hne].
  - assert (filter P (l ≫= f) = []) as ->; [|by rewrite app_nil_r].
    apply filter_none, Forall_forall.
    intros y (b & Hy & Hb)%list_elem_of_bind Hp.
    assert (y ∈ filter P (f b)) as Hin by (by apply list_elem_of_filter).
    rewrite Hother in Hin; [by apply elem_of_nil in Hin|by right|].
    by intros ->.
  - rewrite Hother by (left || done). simpl. apply IH.
    + by apply elem_of_cons in Ha as [->|?].
    + intros b Hb. apply Hother. by right.
Qed.

(** The rows a set of files without twins writes under one key come from
    one file. *)
Lemma one_writer csv_dir files k rec :
  NoDup files → Forall (λ p, is_Some (CURRENT_RE p)) files →
  (∀ p p', p ∈ files → p' ∈ files → ¬ Shape.twins p p') →
  rec ∈ files ≫= current_records csv_dir → V85.key rec = k →
  ∃ p, p ∈ files
       ∧ filter (λ r, V85.key r = k) (files ≫= current_records csv_dir)
         = filter (λ r, V85.key r = k) (current_records csv_dir p).
Proof.
  intros Hnd Hre Htw (p & Hrec & Hp)%list_elem_of_bind Hk.
  exists p. split; [done|]. apply filter_bind_only; [done..|].
  intros q Hq Hne. apply filter_none, Forall_forall. intros r Hr Hkr.
  rewrite Forall_forall in Hre.
  destruct (Hre p Hp) as [[d g] Ep]. destruct (Hre q Hq) as [[d' g'] Eq].
  destruct (current_records_key _ _ _ _ _ Ep Hrec) as [Hd Hg].
  destruct (current_records_key _ _ _ _ _ Eq Hr) as [Hd' Hg'].
  assert (V85.key r = V85.key rec) as Hsame by congruence.
  unfold V85.key in Hsame. injection Hsame as H1 H2 _.
  rewrite Hd, Hd' in H1. rewrite Hg, Hg' in H2. rewrite H2 in Eq.
  destruct (same_key_names q p d' d g Eq Ep H1) as [?|Ht]; [done|].
  by apply (Htw q p).
Qed.

Lemma keep_unclaimed_Permutation files files' o :
  files ≡ₚ files' → keep_unclaimed files o = keep_unclaimed files' o.
Proof.
  intros Hp. destruct o as [r|]; [|done]. simpl.
  destruct (decide _) as [H|H]; destruct (decide _) as [H'|H']; try done.
  - destruct H'. by rewrite <- Hp.
  - destruct H. by rewrite Hp.
Qed.

Lemma key_fold_Permutation csv_dir files files' k o :
  NoDup files → Forall (λ p, is_Some (CURRENT_RE p)) files →
  (∀ p p', p ∈ files → p' ∈ files → ¬ Shape.twins p p') →
  files ≡ₚ files' →
  foldl (key_step csv_dir k) o files = foldl (key_step csv_dir k) o files'.
Proof.
  intros Hnd Hre Htw Hp.
  assert (NoDup files') as Hnd' by (by rewrite <- Hp).
  assert (Forall (λ p, is_Some (CURRENT_RE p)) files') as Hre'
    by (by rewrite <- Hp).
  assert (∀ p p', p ∈ files' → p' ∈ files' → ¬ Shape.twins p p') as Htw'.
  { intros p p'. rewrite <- !Hp. apply Htw. }
  destruct (filter (λ r, V85.key r = k) (files ≫= current_records csv_dir))
    as [|r0 w] eqn:Ew.
  - rewrite !key_fold_unwritten; [by apply keep_unclaimed_Permutation| |done].
    apply Permutation_nil_r. rewrite <- Ew. by rewrite Hp.
  - assert (V85.key r0 = k ∧ r0 ∈ files ≫= current_records csv_dir)
      as [Hk Hin].
    { apply (list_elem_of_filter (λ r, V85.key r = k)). rewrite Ew. left. }
    destruct (one_writer csv_dir files k r0 Hnd Hre Htw Hin Hk)
      as (p & Hpin & E).
    assert (r0 ∈ files' ≫= current_records csv_dir) as Hin'
      by (by rewrite <- Hp).
    destruct (one_writer csv_dir files' k r0 Hnd' Hre' Htw' Hin' Hk)
      as (p' & Hpin' & E').
    assert (p' = p) as ->.
    { apply list_elem_of_bind in Hin as (q & Hq & _).
      assert (r0 ∈ filter (λ r, V85.key r = k) (current_records csv_dir p))
        as [_ H1]%list_elem_of_filter by (rewrite <- E, Ew; left).
      assert (r0 ∈ filter (λ r, V85.key r = k) (files' ≫= current_records csv_dir))
        as H2 by (by apply list_elem_of_filter).
      rewrite E' in H2. apply list_elem_of_filter in H2 as [_ H2].
      apply current_records_source in H1, H2. congruence. }
    destruct (last (filter (λ r, V85.key r = k) (current_records csv_dir p)))
      as [rec|] eqn:El.
    + rewrite (key_fold_written csv_dir files k rec) by (by rewrite ?E).
      by rewrite (key_fold_written csv_dir files' k rec) by (by rewrite ?E').
    + apply last_None in El. rewrite <- E, Ew in El. done.
Qed.

(** X23. The order in which the listed files are processed does not
    matter for the rows a run leaves, unless two Current names differ by
    a final line feed only: processed in any other order, the files give
    the same rows in [v85] and in [v85_history], in another order of rows
    at most. *)
Theorem processing_order_is_immaterial csv_dir cur cur' hist hist' t h :
  V85.unique t →
  NoDup cur → Forall (λ p, is_Some (CURRENT_RE p)) cur →
  (∀ p p', p ∈ cur → p' ∈ cur → ¬ Shape.twins p p') →
  cur ≡ₚ cur' →
  NoDup hist → Forall (λ p, is_Some (HISTORY_RE p)) hist →
  hist ≡ₚ hist' →
  import_all_current csv_dir cur t ≡ₚ import_all_current csv_dir cur' t
  ∧ import_all_history csv_dir hist h ≡ₚ import_all_history csv_dir hist' h.
Proof.
  intros Hu Hnd Hre Htw Hp Hndh Hreh Hph. split.
  - apply table_ext; [by apply unique_import_all_current..|].
    intros k. rewrite !find_key_import_all_current by done.
    by apply key_fold_Permutation.
  - assert (NoDup hist') as Hndh' by (by rewrite <- Hph).
    assert (Forall (λ p, is_Some (HISTORY_RE p)) hist') as Hreh'
      by (by rewrite <- Hph).
    rewrite !import_all_history_eq by done.
    apply Permutation_app; [|by rewrite Hph].
    unfold unclaimed. erewrite list_filter_iff; [done|].
    intros r. by rewrite Hph.
Qed.

End order_extras.


(** ** Further properties of the history collector *)

Section collector_extras.
Import Py Collector Output.
Context {record cells : Type}.
Variable date : record → string.
Variable fmt : record → cells.
Variable fetch_records : Z → list record.


(** The rows kept for a name: those of the last start of the race that
    resolves to the name. *)
Lemma by_horse_lookup_last race n name :
  by_horse date fmt fetch_records race n !! name
  = (λ h, slice_to n (sort_newest_first h.2))
      <$> last (filter (λ h, h.1 = name) (horses date fmt fetch_records race)).
Proof.
  induction race as [|st race IH] using rev_ind; [done|].
  rewrite by_horse_snoc, horses_snoc, filter_app.
  destruct (horse_rows date fmt fetch_records st) as [[hn rows]|]; simpl.
  - destruct (decide (hn = name)) as [->|Hne].
    + rewrite lookup_insert_eq, filter_cons_True by done.
      rewrite filter_nil. by rewrite last_snoc.
    + rewrite lookup_insert_ne, filter_cons_False by done.
      rewrite filter_nil. by rewrite app_nil_r.
  - by rewrite app_nil_r.
Qed.

Lemma slice_to_is_take {A} (n : Z) (l : list A) : ∃ k, slice_to n l = take k l.
Proof. unfold slice_to. destruct (0 <=? n)%Z; eauto. Qed.

Lemma slice_to_elem_of {A} (n : Z) (l : list A) x : x ∈ slice_to n l → x ∈ l.
Proof.
  destruct (slice_to_is_take n l) as [k ->]. apply elem_of_subseteq.
  apply sublist_subseteq, sublist_take.
Qed.

Lemma horses_elem_of race name rows :
  (name, rows) ∈ horses date fmt fetch_records race ↔
  ∃ st, st ∈ race ∧ horse_rows date fmt fetch_records st = Some (name, rows).
Proof. apply list_elem_of_omap. Qed.

Lemma horse_rows_Some st name rows :
  horse_rows date fmt fetch_records st = Some (name, rows) ↔
  ∃ horse_id, resolve st = Some (name, horse_id)
              ∧ rows = (λ rec, Row name (date rec) (fmt rec))
                         <$> fetch_records horse_id.
Proof.
  unfold Collector.horse_rows. destruct (resolve st) as [[hn hid]|]; simpl.
  - split.
    + intros [= -> <-]. by exists hid.
    + by intros (hid' & [= -> ->] & ->).
  - split; [done|]. by intros (? & ? & _).
Qed.

(** Where a kept row comes from. *)
Lemma by_horse_row race n name v r :
  by_horse date fmt fetch_records race n !! name = Some v → r ∈ v →
  ∃ st horse_id rec,
    st ∈ race ∧ resolve st = Some (name, horse_id)
    ∧ rec ∈ fetch_records horse_id
    ∧ r = Row name (date rec) (fmt rec).
Proof.
  rewrite by_horse_lookup_last. intros Hv Hr.
  apply fmap_Some in Hv as ([hn rows] & Hlast & ->). simpl in Hr.
  apply last_Some in Hlast as [l' Hl].
  assert ((hn, rows) ∈ filter (λ h, h.1 = name) (horses date fmt fetch_records race)) as Hin.
  { rewrite Hl. apply elem_of_app. right. by left. }
  apply list_elem_of_filter in Hin as [Hn Hin]. simpl in Hn. subst hn.
  apply horses_elem_of in Hin as (st & Hst & Hrows).
  apply horse_rows_Some in Hrows as (horse_id & Hres & ->).
  apply slice_to_elem_of in Hr.
  rewrite sort_newest_first_Permutation in Hr.
  apply list_elem_of_fmap in Hr as (rec & -> & Hrec).
  by exists st, horse_id, rec.
Qed.

Lemma filter_bind_key (ks : list string) (f : string → list (row cells)) name :
  NoDup ks →
  (∀ k r, k ∈ ks → r ∈ f k → hastnamn r = k) →
  filter (λ r, hastnamn r = name) (ks ≫= f)
  = if decide (name ∈ ks) then f name else [].
Proof.
  intros Hnd Hf. induction Hnd as [|k ks Hk Hnd IH]; [done|].
  rewrite bind_cons, filter_app, IH
    by (intros k' r Hk'; apply Hf; by right).
  destruct (decide (k = name)) as [->|Hne].
  - rewrite (decide_False (P := name ∈ ks)) by done.
    rewrite (decide_True (P := name ∈ name :: ks)) by left.
    rewrite app_nil_r. apply filter_all, Forall_forall.
    intros r Hr. apply (Hf name r); [left|done].
  - rewrite (filter_none _ (f k)).
    + simpl. destruct (decide (name ∈ ks)) as [Hin|Hnin].
      * by rewrite (decide_True (P := name ∈ k :: ks)) by (by right).
      * rewrite (decide_False (P := name ∈ k :: ks)); [done|].
        by intros [->|?]%elem_of_cons.
    + apply Forall_forall. intros r Hr Hn.
      rewrite (Hf k r) in Hn; [done|left|done].
Qed.

Lemma collect_keys race n :
  let ks := merge_sort String.le (map_to_list (by_horse date fmt fetch_records race n)).*1 in
  NoDup ks ∧ StronglySorted String.le ks
  ∧ ∀ k, k ∈ ks ↔ is_Some (by_horse date fmt fetch_records race n !! k).
Proof.
  simpl. split_and!.
  - rewrite merge_sort_Permutation. apply NoDup_fst_map_to_list.
  - apply StronglySorted_merge_sort; apply _.
  - intros k. rewrite merge_sort_Permutation, list_elem_of_fmap. split.
    + intros ([k' v] & -> & Hin%elem_of_map_to_list). by exists v.
    + intros [v Hv]. exists (k, v). by rewrite elem_of_map_to_list.
Qed.

Lemma block_names race n k r :
  r ∈ by_horse date fmt fetch_records race n !!! k → hastnamn r = k.
Proof.
  rewrite lookup_total_alt.
  destruct (by_horse date fmt fetch_records race n !! k) as [v|] eqn:E; simpl.
  - intros Hr. by destruct (by_horse_row _ _ _ _ _ E Hr)
      as (? & ? & ? & _ & _ & _ & ->).
  - by intros ?%elem_of_nil.
Qed.

(** X13. What the collector returns for a name, whatever the race: the
    rows of the last start that resolves to the name, sorted newest first
    and cut at the cap; the rows of earlier starts with the same name are
    not returned, and a name no start resolves to has no rows. *)
Theorem last_start_of_a_name_is_kept race n name :
  filter (λ r, hastnamn r = name) (collect_history_rows date fmt fetch_records race n)
  = match last (filter (λ h, h.1 = name) (horses date fmt fetch_records race)) with
    | Some h => slice_to n (sort_newest_first h.2)
    | None => []
    end.
Proof.
  destruct (collect_keys race n) as (Hnd & _ & Hks).
  unfold Collector.collect_history_rows.
  rewrite filter_bind_key; [|done|].
  - rewrite lookup_total_alt.
    destruct (decide _) as [Hin|Hnin].
    + rewrite by_horse_lookup_last.
      by destruct (last _).
    + assert (by_horse date fmt fetch_records race n !! name = None) as E.
      { apply eq_None_not_Some. by rewrite <- Hks. }
      rewrite by_horse_lookup_last in E.
      by destruct (last _).
  - intros k r _. apply block_names.
Qed.

(** X14. With a cap that is not negative no name has more than [N] rows
    in the output, also when several starts share the name; a cap of zero
    gives no rows at all. *)
Theorem at_most_cap_rows_per_name race n name :
  (0 ≤ n)%Z →
  length (filter (λ r, hastnamn r = name) (collect_history_rows date fmt fetch_records race n))
  ≤ Z.to_nat n
  ∧ (n = 0%Z → collect_history_rows date fmt fetch_records race n = []).
Proof.
  intros Hn.
  assert (∀ k, length (by_horse date fmt fetch_records race n !!! k) ≤ Z.to_nat n) as Hlen.
  { intros k. rewrite lookup_total_alt, by_horse_lookup_last.
    destruct (last _) as [h|]; simpl; [|lia].
    rewrite slice_to_take by done. rewrite length_take. lia. }
  split.
  - destruct (collect_keys race n) as (Hnd & _ & Hks).
    unfold Collector.collect_history_rows.
    rewrite filter_bind_key; [|done|].
    + destruct (decide _); [apply Hlen|simpl; lia].
    + intros k r _. apply block_names.
  - intros ->. unfold Collector.collect_history_rows.
    induction (merge_sort _ _) as [|k ks IH]; [done|].
    rewrite bind_cons, IH, app_nil_r.
    apply length_zero_iff_nil. specialize (Hlen k). simpl in Hlen. lia.
Qed.

Lemma take_StronglySorted {A} (R : relation A) k (l : list A) :
  StronglySorted R l → StronglySorted R (take k l).
Proof.
  intros H. rewrite <- (take_drop k l) in H.
  by apply StronglySorted_app_1_l in H.
Qed.

Lemma same_name_order (k : string) (l : list (row cells)) :
  (∀ r, r ∈ l → hastnamn r = k) →
  StronglySorted newest_first l → StronglySorted output_order l.
Proof.
  intros Hname Hs. induction Hs as [|a l Hs IH Hall]; constructor.
  - apply IH. intros r Hr. apply Hname. by right.
  - apply Forall_forall. intros b Hb. rewrite Forall_forall in Hall.
    split; [|intros _; by apply Hall].
    rewrite (Hname a), (Hname b); [done|by right|left].
Qed.

Local Instance newest_first_trans : Transitive (@newest_first cells).
Proof. intros a b c Hab Hbc. unfold newest_first in *. by etrans. Qed.

Lemma block_order race n k :
  StronglySorted output_order (by_horse date fmt fetch_records race n !!! k).
Proof.
  rewrite lookup_total_alt.
  destruct (by_horse date fmt fetch_records race n !! k) as [v|] eqn:E;
    simpl; [|constructor].
  apply (same_name_order k).
  { intros r Hr. by destruct (by_horse_row _ _ _ _ _ E Hr)
      as (? & ? & ? & _ & _ & _ & ->). }
  rewrite by_horse_lookup_last in E.
  apply fmap_Some in E as (h & _ & ->).
  destruct (slice_to_is_take n (sort_newest_first h.2)) as [j ->].
  apply take_StronglySorted.
  apply (Sorted_StronglySorted newest_first), sort_newest_first_Sorted.
Qed.

(** X15. The order of the output, whatever the race and the cap: a row is
    never followed, at any distance, by a row of a name that sorts before
    its own, nor by a row of the same name with a later date. *)
Theorem output_by_name_then_newest race n :
  StronglySorted output_order (collect_history_rows date fmt fetch_records race n).
Proof.
  destruct (collect_keys race n) as (Hnd & Hs & _).
  unfold Collector.collect_history_rows.
  induction Hs as [|k ks Hs IH Hall]; [constructor|].
  apply NoDup_cons in Hnd as [Hk Hnd].
  rewrite bind_cons. apply StronglySorted_app_2.
  - intros a b Ha Hb. apply block_names in Ha.
    apply list_elem_of_bind in Hb as (k' & Hb & Hk').
    apply block_names in Hb. rewrite Forall_forall in Hall.
    split.
    + rewrite Ha, Hb. by apply Hall.
    + intros E. destruct Hk. by rewrite <- Ha, E, Hb.
  - apply block_order.
  - by apply IH.
Qed.

Lemma digits_of_not_empty fuel (m : N) c acc :
  digits_of fuel m (String c acc) ≠ "".
Proof.
  revert m c acc. induction fuel as [|fuel IH]; intros m c acc; [done|].
  simpl. destruct (m <? 10)%N; [done|apply IH].
Qed.

Lemma str_int_not_empty (z : Z) : str_int z ≠ "".
Proof.
  unfold str_int. destruct (z <? 0)%Z; [done|].
  generalize (Z.abs_N z). intros m. cbn [digits_of].
  destruct (m <? 10)%N; [done|apply digits_of_not_empty].
Qed.

Lemma resolve_name st name horse_id :
  resolve st = Some (name, horse_id) →
  name ≠ "" ∧ horse_id ≠ 0%Z
  ∧ ∃ h, start_horse st = Some h ∧ id h = Some horse_id
         ∧ name = (if decide (strip (default "" (Collector.name h)) = "")
                   then "horse_" +:+ str_int horse_id
                   else strip (default "" (Collector.name h))).
Proof.
  unfold resolve. destruct (start_horse st) as [h|]; simpl; [|done].
  destruct (id h) as [i|] eqn:Eh; [|done].
  destruct (i =? 0)%Z eqn:Ei; [done|]. apply Z.eqb_neq in Ei.
  intros [= <- <-]. split_and!; [|done|by exists h].
  destruct (decide _) as [?|Hne]; [|done].
  intros [=].
Qed.

(** X16. Where an output row comes from, and that its name is never
    empty: every row of the output is the row of one fetched record of a
    start of the race that carries a horse id other than zero; the name in
    it is the name of that start's horse without the white space around
    it, or [horse_<id>] when that is empty. *)
Theorem output_rows_come_from_the_race race n r :
  r ∈ collect_history_rows date fmt fetch_records race n →
  hastnamn r ≠ ""
  ∧ ∃ st h horse_id rec,
      st ∈ race ∧ start_horse st = Some h ∧ id h = Some horse_id
      ∧ horse_id ≠ 0%Z
      ∧ rec ∈ fetch_records horse_id
      ∧ r = Row (if decide (strip (default "" (name h)) = "")
                 then "horse_" +:+ str_int horse_id
                 else strip (default "" (name h)))
                (date rec) (fmt rec).
Proof.
  unfold Collector.collect_history_rows.
  intros (k & Hr & _)%list_elem_of_bind.
  rewrite lookup_total_alt in Hr.
  destruct (by_horse date fmt fetch_records race n !! k) as [v|] eqn:E; simpl in Hr;
    [|by apply elem_of_nil in Hr].
  destruct (by_horse_row _ _ _ _ _ E Hr)
    as (st & horse_id & rec & Hst & Hres & Hrec & ->).
  destruct (resolve_name _ _ _ Hres) as (Hne & Hid & h & Hh & Hi & Hk).
  split; [done|]. exists st, h, horse_id, rec. by rewrite <- Hk.
Qed.

End collector_extras.


(** ** Which game the fetch scripts choose *)

Section game_extras.
Import Outcome Json Game.
Variable fromisoformat : string → option datetime.
Variable today : Z.

Lemma lt_irrefl (a : datetime) : lt a a = Returns false.
Proof.
  unfold lt. destruct (utcoffset a); f_equal; apply Z.ltb_irrefl.
Qed.

Lemma lt_asym (a b : datetime) :
  lt a b = Returns true → lt b a = Returns false.
Proof.
  unfold lt. destruct (utcoffset a), (utcoffset b); intros [= H];
    f_equal; apply Z.ltb_lt in H; apply Z.ltb_ge; lia.
Qed.

Lemma lt_le_trans (x m c : datetime) :
  lt m x = Returns false → lt c m = Returns false → lt c x = Returns false.
Proof.
  unfold lt. destruct (utcoffset x), (utcoffset m), (utcoffset c);
    intros [= H1] [= H2]; f_equal;
    apply Z.ltb_ge in H1; apply Z.ltb_ge in H2; apply Z.ltb_ge; lia.
Qed.

Lemma lt_lt_le (x m c : datetime) :
  lt m x = Returns false → lt m c = Returns true → lt c x = Returns false.
Proof.
  unfold lt. destruct (utcoffset x), (utcoffset m), (utcoffset c);
    intros [= H1] [= H2]; f_equal;
    apply Z.ltb_ge in H1; apply Z.ltb_lt in H2; apply Z.ltb_ge; lia.
Qed.

Lemma obind_Returns {A B} (m : outcome A) (k : A → outcome B) b :
  obind m k = Returns b ↔ ∃ a, m = Returns a ∧ k a = Returns b.
Proof.
  destruct m as [a|e]; simpl.
  - split; [by exists a|]. by intros (a' & [= ->] & H).
  - split; [done|]. by intros (? & ? & _).
Qed.

Lemma insert_asc_not_nil x l r : insert_asc x l = Returns r → r ≠ [].
Proof.
  destruct l as [|y l]; simpl; [by intros [= <-]|].
  intros (b & _ & H)%obind_Returns. destruct b.
  - by apply obind_Returns in H as (r' & _ & [= <-]).
  - by injection H as <-.
Qed.

Lemma sort_nil l : sort l = Returns [] → l = [].
Proof.
  destruct l as [|x l]; [done|]. simpl.
  intros (r & _ & H)%obind_Returns. by apply insert_asc_not_nil in H.
Qed.

(** The first element of the sorted list is the leftmost of the smallest
    elements of the list. *)
Lemma sort_first l c rest :
  sort l = Returns (c :: rest) →
  ∃ l1 l2, l = l1 ++ c :: l2
           ∧ Forall (λ c', lt c.1 c'.1 = Returns true) l1
           ∧ Forall (λ c', lt c'.1 c.1 = Returns false) l2.
Proof.
  revert c rest. induction l as [|x l IH]; intros c rest; [done|].
  simpl. intros (r & Hr & H)%obind_Returns.
  destruct r as [|m r'].
  { apply sort_nil in Hr as ->. injection H as <- <-.
    exists [], []. by repeat constructor. }
  destruct (IH _ _ Hr) as (l1 & l2 & -> & H1 & H2).
  simpl in H. apply obind_Returns in H as (b & Hb & H). destruct b.
  - apply obind_Returns in H as (r'' & _ & [= <- <-]).
    exists (x :: l1), l2. split_and!; [done| |done].
    by constructor.
  - injection H as <- <-. exists [], (l1 ++ m :: l2).
    split_and!; [done|constructor|].
    rewrite Forall_app, Forall_cons. split_and!.
    + eapply Forall_impl; [exact H1|]. simpl. intros c' Hc'.
      by apply (lt_lt_le _ m.1).
    + done.
    + eapply Forall_impl; [exact H2|]. simpl. intros c' Hc'.
      by apply (lt_le_trans _ m.1).
Qed.

Lemma truthy_JStr s : truthy (JStr s) = true ↔ s ≠ "".
Proof.
  simpl. destruct (String.eqb_spec s ""); simpl; split; congruence.
Qed.

Lemma candidate_Some item c :
  candidate fromisoformat today item = Returns (Some c) ↔
  c.2 = item ∧ from_today fromisoformat today item c.1.
Proof.
  unfold candidate, from_today. split.
  - destruct (truthy (get item "startTime")) eqn:Et; simpl; [|done].
    destruct (get item "startTime") as [| | | |s| |]; try done.
    apply truthy_JStr in Et.
    destruct (fromisoformat s) as [dt|] eqn:Ep; [|done].
    destruct (today <=? date_of dt)%Z eqn:Ed; [|done].
    intros [= <-]. split; [done|]. exists s. split_and!; try done.
    by apply Z.leb_le.
  - intros (<- & s & -> & Hs & -> & Hd).
    apply truthy_JStr in Hs. rewrite Hs. simpl.
    apply Z.leb_le in Hd. rewrite Hd. by destruct c.
Qed.

(** The candidates, split at one of them. *)
Lemma candidates_split upcoming l1 c l2 :
  candidates fromisoformat today upcoming = Returns (l1 ++ c :: l2) →
  ∃ before after,
    upcoming = before ++ c.2 :: after
    ∧ from_today fromisoformat today c.2 c.1
    ∧ (∀ g dt, g ∈ before → from_today fromisoformat today g dt → (dt, g) ∈ l1)
    ∧ (∀ g dt, g ∈ after → from_today fromisoformat today g dt → (dt, g) ∈ l2).
Proof.
  revert l1. induction upcoming as [|item rest IH]; intros l1.
  { simpl. intros [= H]. by destruct l1. }
  simpl. intros (o & Ho & (cs & Hcs & [= H])%obind_Returns)%obind_Returns.
  destruct o as [c'|]; simpl in H.
  - destruct l1 as [|c1 l1]; simpl in H.
    + injection H as -> ->.
      apply candidate_Some in Ho as [Hi Hf].
      exists [], rest. rewrite Hi. split_and!; [done|done| |].
      * by intros g dt ?%elem_of_nil.
      * clear IH. revert l2 Hcs.
        induction rest as [|it rest IH]; intros l2 Hcs g dt Hg Hfrom.
        { by apply elem_of_nil in Hg. }
        simpl in Hcs.
        apply obind_Returns in Hcs as (o & Ho & (cs & Hcs & [= <-])%obind_Returns).
        apply elem_of_cons in Hg as [->|Hg].
        -- assert (candidate fromisoformat today it = Returns (Some (dt, it)))
             as Hc by (by apply candidate_Some).
           rewrite Hc in Ho. injection Ho as <-. by left.
        -- apply elem_of_app. right. by apply (IH cs).
    + injection H as -> ->.
      destruct (IH l1 Hcs) as (before & after & -> & Hf & Hb & Ha).
      apply candidate_Some in Ho as [Hi Hf'].
      exists (item :: before), after. split_and!; [done|done| |done].
      intros g dt [->|Hg]%elem_of_cons Hfrom.
      * assert (candidate fromisoformat today item = Returns (Some (dt, item)))
          as Hc by (by apply candidate_Some).
        assert (candidate fromisoformat today item = Returns (Some c1))
          as Hc' by (by apply candidate_Some).
        rewrite Hc in Hc'. injection Hc' as <-. by left.
      * right. by apply Hb.
  - subst cs. destruct (IH l1 Hcs) as (before & after & -> & Hf & Hb & Ha).
    exists (item :: before), after. split_and!; [done|done| |done].
    intros g dt [->|Hg]%elem_of_cons Hfrom.
    + assert (candidate fromisoformat today item = Returns (Some (dt, item)))
        as Hc by (by apply candidate_Some).
      by rewrite Hc in Ho.
    + by apply Hb.
Qed.

Lemma candidates_nil upcoming g dt :
  candidates fromisoformat today upcoming = Returns [] →
  g ∈ upcoming → ¬ from_today fromisoformat today g dt.
Proof.
  induction upcoming as [|item rest IH]; [by intros _ ?%elem_of_nil|].
  simpl. intros (o & Ho & (cs & Hcs & [= H])%obind_Returns)%obind_Returns.
  apply app_eq_nil in H as [Ho' ->].
  intros [->|Hg]%elem_of_cons Hfrom; [|by apply IH].
  assert (candidate fromisoformat today item = Returns (Some (dt, item)))
    as Hc by (by apply candidate_Some).
  rewrite Hc in Ho. injection Ho as <-. done.
Qed.

(** The game both scripts return when some game starts today or later. *)
Lemma earliest_of_the_candidates upcoming cands g :
  candidates fromisoformat today upcoming = Returns cands →
  obind (sort cands) first_game = Returns g →
  ∃ dt before after,
    upcoming = before ++ g :: after
    ∧ from_today fromisoformat today g dt
    ∧ (∀ g' dt', g' ∈ before → from_today fromisoformat today g' dt' →
                 lt dt dt' = Returns true)
    ∧ (∀ g' dt', g' ∈ after → from_today fromisoformat today g' dt' →
                 lt dt' dt = Returns false).
Proof.
  intros Hc (sorted & Hs & Hf)%obind_Returns.
  destruct sorted as [|c rest]; [done|]. injection Hf as <-.
  apply sort_first in Hs as (l1 & l2 & -> & H1 & H2).
  apply candidates_split in Hc as (before & after & -> & Hfrom & Hb & Ha).
  exists c.1, before, after. split_and!; [done|done| |].
  - intros g' dt' Hg Hf'. rewrite Forall_forall in H1.
    apply (H1 (dt', g')). by apply Hb.
  - intros g' dt' Hg Hf'. rewrite Forall_forall in H2.
    apply (H2 (dt', g')). by apply Ha.
Qed.

(** X17. The game [get_v85.py] chooses: a game whose start time parses to
    a date not before today; no listed game that starts today or later
    starts before it, and those listed before it start strictly later, so
    of several games with the earliest start the first listed is taken. *)
Theorem chosen_game_is_the_earliest upcoming g :
  GetV85.choose_game_from_today fromisoformat today upcoming = Returns g →
  ∃ dt before after,
    upcoming = before ++ g :: after
    ∧ from_today fromisoformat today g dt
    ∧ (∀ g' dt', g' ∈ before → from_today fromisoformat today g' dt' →
                 lt dt dt' = Returns true)
    ∧ (∀ g' dt', g' ∈ after → from_today fromisoformat today g' dt' →
                 lt dt' dt = Returns false).
Proof.
  unfold GetV85.choose_game_from_today.
  intros (cands & Hc & H)%obind_Returns.
  destruct cands as [|c cands]; [done|].
  by apply (earliest_of_the_candidates upcoming (c :: cands)).
Qed.

(** X18. The game [get_v85_history.py] chooses: the earliest of the games
    that start today or later, the first listed of several; and when no
    listed game starts today or later, the first listed game, whatever
    its start time. *)
Theorem chosen_game_or_first_listed upcoming g :
  GetV85History.choose_game_from_today fromisoformat today upcoming
  = Returns g →
  (∃ dt before after,
     upcoming = before ++ g :: after
     ∧ from_today fromisoformat today g dt
     ∧ (∀ g' dt', g' ∈ before → from_today fromisoformat today g' dt' →
                  lt dt dt' = Returns true)
     ∧ (∀ g' dt', g' ∈ after → from_today fromisoformat today g' dt' →
                  lt dt' dt = Returns false))
  ∨ (head upcoming = Some g
     ∧ ∀ g' dt', g' ∈ upcoming → ¬ from_today fromisoformat today g' dt').
Proof.
  unfold GetV85History.choose_game_from_today.
  intros (cands & Hc & H)%obind_Returns.
  destruct cands as [|c cands].
  - right. destruct upcoming as [|first rest]; [done|].
    injection H as <-. split; [done|].
    intros g' dt' Hg. by apply (candidates_nil (first :: rest)).
  - left. by apply (earliest_of_the_candidates upcoming (c :: cands)).
Qed.

(** X19. The two scripts choose alike but for one case: when no listed
    game starts today or later, [get_v85.py] raises [RuntimeError] and
    [get_v85_history.py] takes the first listed game; in every other
    case, an exception included, both end the same way. *)
Theorem both_scripts_choose_alike upcoming :
  GetV85History.choose_game_from_today fromisoformat today upcoming
  = match GetV85.choose_game_from_today fromisoformat today upcoming with
    | Raises RuntimeError =>
        match upcoming with
        | [] => Raises RuntimeError
        | first :: _ => Returns first
        end
    | r => r
    end.
Proof.
  unfold GetV85History.choose_game_from_today,
    GetV85.choose_game_from_today.
  destruct (candidates fromisoformat today upcoming) as [cands|e] eqn:Hc;
    simpl.
  - destruct cands as [|c cands]; [done|].
    destruct (sort (c :: cands)) as [sorted|e] eqn:Hs; simpl.
    + destruct sorted as [|c' rest]; [|done].
      by apply sort_nil in Hs.
    + assert (e = TypeError) as ->; [|done].
      clear Hc. revert e Hs. generalize (c :: cands). intros l.
      induction l as [|x l IH]; intros e; [done|]. simpl.
      destruct (sort l) as [r|e'] eqn:Hr; simpl; [|intros [= <-]; by apply IH].
      clear IH Hr. induction r as [|y r IH]; [done|]. simpl.
      unfold lt at 1.
      destruct (utcoffset y.1), (utcoffset x.1); simpl;
        try (by intros [= <-]);
        (destruct (_ <? _)%Z; [|done]);
        (destruct (insert_asc x r) as [r'|e'] eqn:Hi; simpl; [done|]);
        intros [= <-]; by apply IH.
  - assert (e ≠ RuntimeError); [|by destruct e].
    clear -Hc. revert e Hc. induction upcoming as [|item rest IH]; [done|].
    intros e. simpl.
    destruct (candidate fromisoformat today item) as [o|e'] eqn:Ho; simpl.
    + destruct (candidates fromisoformat today rest) as [cs|e'']; [done|].
      simpl. intros [= <-]. by apply IH.
    + intros [= <-]. unfold candidate in Ho.
      destruct (negb _); [done|].
      destruct (get item "startTime"); try (by injection Ho as <-).
      destruct (fromisoformat s); [done|]. by injection Ho as <-.
Qed.

(** X20. A start time that [datetime.fromisoformat] rejects, in any
    listed game, also one that lies in the past or comes after the game
    that would be chosen, makes both scripts raise: neither returns a
    game. *)
Theorem unparsable_start_time_is_fatal upcoming g s :
  g ∈ upcoming → get g "startTime" = JStr s → s ≠ "" →
  fromisoformat s = None →
  (∃ e, GetV85.choose_game_from_today fromisoformat today upcoming = Raises e)
  ∧ (∃ e, GetV85History.choose_game_from_today fromisoformat today upcoming
          = Raises e).
Proof.
  intros Hg Hs Hne Hp.
  assert (∃ e, candidates fromisoformat today upcoming = Raises e) as [e He].
  { induction upcoming as [|item rest IH]; [by apply elem_of_nil in Hg|].
    simpl. destruct (candidate fromisoformat today item) as [o|e] eqn:Ho;
      simpl; [|by exists e].
    apply elem_of_cons in Hg as [<-|Hg].
    - unfold candidate in Ho. rewrite Hs in Ho.
      apply truthy_JStr in Hne. rewrite Hne, Hp in Ho. done.
    - destruct (IH Hg) as [e ->]. by exists e. }
  unfold GetV85.choose_game_from_today,
    GetV85History.choose_game_from_today.
  rewrite He. split; by exists e.
Qed.

End game_extras.


(** ** Further properties of the normaliser *)

Section normaliser_extras.
Import Py Exc Norm.

Lemma lstrip_id (s : string) :
  (∀ c, first_char s = Some c → is_space c = false) → lstrip s = s.
Proof.
  destruct s as [|a s]; [done|]. intros H. simpl. by rewrite (H a).
Qed.

Lemma rstrip_id (s : string) :
  (∀ c, last_char s = Some c → is_space c = false) → rstrip s = s.
Proof.
  induction s as [|a s IH]; [done|]. intros H.
  destruct s as [|b s].
  - simpl. by rewrite (H a).
  - change (rstrip (String a (String b s)))
      with (match rstrip (String b s) with
            | EmptyString =>
                if is_space a then EmptyString else String a EmptyString
            | r => String a r
            end).
    rewrite IH; [done|]. intros c Hc. by apply H.
Qed.

Lemma strip_idemp (s : string) : strip (strip s) = strip s.
Proof.
  destruct (strip_spec s) as (_ & Hf & Hl).
  unfold strip at 1. rewrite lstrip_id by done. by apply rstrip_id.
Qed.

Lemma text_field_stripped (r : gmap string pyval) k v :
  text_field r k = Ok v → ∃ s, v = strip s.
Proof.
  unfold text_field, strip_method.
  destruct (or_empty (get r k)) as [|s|z]; [done| |done].
  intros [= <-]. by exists s.
Qed.

Lemma str_field_stripped (r : gmap string pyval) k v :
  str_field r k = Ok v → ∃ s, v = strip s.
Proof.
  unfold str_field, strip_method. intros [= <-]. by eexists.
Qed.

(** X21. Normalising is idempotent: a value either normaliser has
    returned for a column is returned unchanged by both when it is the
    cell of a row, so a file written from stored values is stored with
    the same values. *)
Theorem normalised_value_is_kept (r r' : gmap string pyval) k k' v :
  text_field r k = Ok v ∨ str_field r k = Ok v →
  text_field (<[k' := PStr v]> r') k' = Ok v
  ∧ str_field (<[k' := PStr v]> r') k' = Ok v.
Proof.
  intros H.
  assert (∃ s, v = strip s) as [s ->].
  { destruct H as [H|H];
      [by apply text_field_stripped in H|by apply str_field_stripped in H]. }
  unfold text_field, str_field, get. rewrite lookup_insert_eq. simpl.
  unfold or_empty, truthy.
  destruct (String.eqb (strip s) "") eqn:E; simpl.
  - apply String.eqb_eq in E. by rewrite E.
  - by rewrite strip_idemp.
Qed.

End normaliser_extras.


(** ** The table printed by [show_db.py] *)

Section showdb_extras.
Import Py Outcome ShowDb.
Context {row V : Type}.
Variable keys : row → list string.
Variable item : row → string → outcome (option V).
Variable str : V → string.

Lemma length_app_str (a b : string) :
  String.length (a +:+ b) = String.length a + String.length b.
Proof. induction a as [|x a IH]; [done|]. rewrite app_cons. simpl. by rewrite IH. Qed.

Lemma length_repeat_char c n : String.length (repeat_char c n) = n.
Proof. induction n as [|n IH]; simpl; [done|]. by rewrite IH. Qed.

Lemma length_ljust s w :
  String.length s ≤ w → String.length (ljust s w) = w.
Proof.
  intros H. unfold ljust. rewrite length_app_str, length_repeat_char. lia.
Qed.

Lemma join_length sep1 sep2 (l1 l2 : list string) :
  String.length sep1 = String.length sep2 →
  Forall2 (λ a b, String.length a = String.length b) l1 l2 →
  String.length (join sep1 l1) = String.length (join sep2 l2).
Proof.
  intros Hsep H. induction H as [|a b l1 l2 Hab H IH]; [done|].
  destruct H as [|a' b' l1 l2 Hab' H]; [done|].
  change (join sep1 (a :: a' :: l1)) with (a +:+ sep1 +:+ join sep1 (a' :: l1)).
  change (join sep2 (b :: b' :: l2)) with (b +:+ sep2 +:+ join sep2 (b' :: l2)).
  rewrite !length_app_str, IH. lia.
Qed.

Lemma mapM_Returns {A B} (f : A → outcome B) l ys :
  mapM f l = Returns ys → Forall2 (λ x y, f x = Returns y) l ys.
Proof.
  revert ys. induction l as [|x l IH]; intros ys; simpl.
  - intros [= <-]. constructor.
  - intros (y & Hy & (ys' & Hys & [= <-])%obind_Returns)%obind_Returns.
    constructor; [done|by apply IH].
Qed.

Lemma widths0_lookup (cols : list string) (w : gmap string nat) c :
  foldl (λ w c, <[c := String.length c]> w) w cols !!! c
  = if decide (c ∈ cols) then String.length c else w !!! c.
Proof.
  revert w. induction cols as [|c0 cols IH]; intros w.
  - destruct (decide (c ∈ [])) as [?%elem_of_nil|]; done.
  - cbn [foldl]. rewrite IH.
    destruct (decide (c ∈ cols)) as [Hin|Hnin];
      destruct (decide (c ∈ c0 :: cols)) as [Hin'|Hnin']; try done.
    + destruct Hnin'. by right.
    + apply elem_of_cons in Hin' as [->|?]; [|done].
      by rewrite lookup_total_insert_eq.
    + rewrite lookup_total_insert_ne; [done|].
      intros <-. apply Hnin'. left.
Qed.

Lemma widen_Returns r (w w' : gmap string nat) c :
  widen item str r w c = Returns w' →
  ∃ s, cell item str r c = Returns s
       ∧ (∀ c', w !!! c' ≤ w' !!! c')
       ∧ String.length s ≤ w' !!! c.
Proof.
  unfold widen. intros (s & Hs & [= <-])%obind_Returns. exists s.
  split_and!; [done| |].
  - intros c'. destruct (decide (c' = c)) as [->|Hne].
    + rewrite lookup_total_insert_eq. lia.
    + by rewrite lookup_total_insert_ne.
  - rewrite lookup_total_insert_eq. lia.
Qed.

Lemma row_loop r cols (w w' : gmap string nat) :
  foldM (widen item str r) cols w = Returns w' →
  (∀ c, w !!! c ≤ w' !!! c)
  ∧ (∀ c s, c ∈ cols → cell item str r c = Returns s →
            String.length s ≤ w' !!! c).
Proof.
  revert w. induction cols as [|c0 cols IH]; intros w; simpl.
  - intros [= <-]. split; [done|]. by intros c s ?%elem_of_nil.
  - intros (w1 & (s0 & Hs0 & Hm & Hl)%widen_Returns & H)%obind_Returns.
    destruct (IH _ H) as [Hm' Hl']. split.
    + intros c. etrans; [apply Hm|apply Hm'].
    + intros c s [->|Hc]%elem_of_cons Hs; [|by apply Hl'].
      rewrite Hs0 in Hs. injection Hs as <-.
      etrans; [apply Hl|apply Hm'].
Qed.

Lemma rows_loop rows cols (w w' : gmap string nat) :
  foldM (λ w r, foldM (widen item str r) cols w) rows w = Returns w' →
  (∀ c, w !!! c ≤ w' !!! c)
  ∧ (∀ r c s, r ∈ rows → c ∈ cols → cell item str r c = Returns s →
              String.length s ≤ w' !!! c).
Proof.
  revert w. induction rows as [|r0 rows IH]; intros w; simpl.
  - intros [= <-]. split; [done|]. by intros r c s ?%elem_of_nil.
  - intros (w1 & [Hm Hl]%row_loop & H)%obind_Returns.
    destruct (IH _ H) as [Hm' Hl']. split.
    + intros c. etrans; [apply Hm|apply Hm'].
    + intros r c s [->|Hr]%elem_of_cons Hc Hs; [|by apply (Hl' r)].
      etrans; [by apply (Hl c s)|apply Hm'].
Qed.

(** X22. The table of [format_rows]: without rows the text
    [(inga rader)]; otherwise a header line, a rule and one line per row,
    in this order and separated by line feeds, all of the same length, so
    the columns stand below each other whatever the cells hold. *)
Theorem format_rows_is_aligned rows out :
  format_rows keys item str rows = Returns out →
  match rows with
  | [] => out = "(inga rader)"
  | _ =>
      ∃ header line body,
        out = header +:+ nl +:+ line +:+ nl +:+ join nl body
        ∧ length body = length rows
        ∧ String.length line = String.length header
        ∧ Forall (λ l, String.length l = String.length header) body
  end.
Proof.
  destruct rows as [|first rest]; [by intros [= <-]|].
  unfold format_rows. generalize (first :: rest). intros rows.
  set (cols := keys first).
  intros (w & Hw & (body & Hbody & [= <-])%obind_Returns)%obind_Returns.
  apply rows_loop in Hw as [Hm Hl].
  apply mapM_Returns in Hbody.
  assert (∀ c, c ∈ cols → String.length c ≤ w !!! c) as Hname.
  { intros c Hc. etrans; [|apply Hm].
    by rewrite widths0_lookup, decide_True. }
  eexists _, _, body. split_and!; [done| | |].
  - symmetry. by eapply Forall2_length.
  - apply join_length; [done|].
    apply Forall2_fmap, Forall_Forall2_diag, Forall_forall.
    intros c Hc. rewrite length_repeat_char, length_ljust; [done|].
    by apply Hname.
  - apply Forall_forall. intros l Hin.
    apply list_elem_of_lookup in Hin as [i Hi].
    destruct (Forall2_lookup_r _ _ _ _ _ Hbody Hi) as (r & Hr & Hline).
    apply obind_Returns in Hline as (parts & Hparts & [= <-]).
    apply mapM_Returns in Hparts.
    apply join_length; [done|].
    apply Forall2_fmap_r.
    apply Forall2_same_length_lookup_2;
      [symmetry; by eapply Forall2_length|].
    intros j p c Hp Hc.
    pose proof (Forall2_lookup_lr _ _ _ _ _ _ Hparts Hc Hp) as Hcell.
    apply obind_Returns in Hcell as (s & Hs & [= <-]).
    assert (r ∈ rows) as Hrin by (by eapply list_elem_of_lookup_2).
    assert (c ∈ cols) as Hcin by (by eapply list_elem_of_lookup_2).
    rewrite (length_ljust s) by (by apply (Hl r)).
    simpl. rewrite (length_ljust c) by (by apply Hname).
    done.
Qed.

End showdb_extras.


(** ** Numbers under the columns passed through [str] *)

Section numeral_facts.
Import Py Exc Norm Numeral.



Lemma digits_value_app (d rest : string) (a : N) :
  all_digits d = true →
  ∃ b, (∀ rest', digits_value a (d +:+ rest') = digits_value b rest').
Proof.
  revert a. induction d as [|c d IH]; intros a H.
  - by exists a.
  - simpl in H. apply andb_prop in H as [Hc Hd].
    destruct (IH (10 * a + N.of_nat (code c - 48))%N Hd) as [b Hb].
    exists b. intros rest'. rewrite app_cons. simpl. by rewrite Hc.
Qed.







End numeral_facts.

(** ** The normaliser on rows with and without numbers *)

Section normaliser_claim.
Import Py Exc Norm Naming Importer Numeral.
Implicit Types (m : gmap string pyval) (r : gmap string (option string)).


End normaliser_claim.


(** ** The further properties on the fixtures *)

Section extras_concrete.
Import Py Exc Norm Naming Importer Numeral Fixture MoreFixture.

Lemma report_counts_rows_read_witness :
  V85.unique (v85 stored)
  ∧ main stored csv_dir false
    = (Db [odin_written] [odin_result_written; odin_result_written],
       Ok (Report 1 1 1 2))
  ∧ cur_rows (Report 1 1 1 2)
    = length (matching_files CURRENT_RE csv_dir ≫= file_rows csv_dir).
Proof.
  assert (V85.unique (v85 stored)) as Hu by compute_done.
  assert (main stored csv_dir false
          = (Db [odin_written] [odin_result_written; odin_result_written],
             Ok (Report 1 1 1 2))) as Hm by (by vm_compute).
  split; [exact Hu|]. split; [exact Hm|].
  exact (proj1 (proj2 (report_counts_rows_read stored csv_dir false _ _ Hu Hm))).
Defined.

Lemma upsert_statement_witness :
  V85.unique (v85 stored)
  ∧ V85.find_key (V85.key odin_written) (V85.upsert odin_written (v85 stored))
    = Some odin_written.
Proof.
  assert (V85.unique (v85 stored)) as Hu by compute_done.
  split; [exact Hu|].
  exact (proj1 (upsert_statement odin_written (v85 stored) Hu)).
Defined.

Lemma unrelated_rows_survive_witness :
  let loke := V85.Row "2025-12-06" "3" "4" "Loke" "" "" "" "" "" "older.csv" in
  V85.unique [loke]
  ∧ main (Db [loke] []) csv_dir true
    = (Db [loke; odin_written] [], Ok (Report 1 1 0 0))
  ∧ (loke ∈ [loke] →
     (∀ p, p ∈ matching_files CURRENT_RE csv_dir →
           V85.source_file loke ≠ p
           ∧ V85.source_file loke ≠ legacy_current p) →
     V85.key loke ∉ V85.key <$> written_current csv_dir →
     loke ∈ [loke; odin_written]).
Proof.
  intros loke.
  assert (V85.unique [loke]) as Hu by compute_done.
  assert (main (Db [loke] []) csv_dir true
          = (Db [loke; odin_written] [], Ok (Report 1 1 0 0))) as Hm
    by (by vm_compute).
  split; [exact Hu|]. split; [exact Hm|].
  exact (proj1 (unrelated_rows_survive (Db [loke] []) csv_dir true _ _ Hu Hm)
           loke).
Defined.

Lemma nothing_recognized_nothing_done_witness :
  (∀ p, is_Some (({[ "notes.txt" := File (Raise ReadError) ]}
                   : gmap string entry) !! p) →
        classify p = Unrecognized)
  ∧ main stored {[ "notes.txt" := File (Raise ReadError) ]} false
    = (stored, Ok (Report 0 0 0 0)).
Proof.
  assert (∀ p, is_Some (({[ "notes.txt" := File (Raise ReadError) ]}
                          : gmap string entry) !! p) →
               classify p = Unrecognized) as H.
  { intros p [e [<- _]%lookup_singleton_Some]. reflexivity. }
  split; [exact H|].
  exact (nothing_recognized_nothing_done stored _ false H).
Defined.

Lemma yyyymmdd_to_iso_round_trip_witness :
  String.length "20260226" = 8
  ∧ String.length (yyyymmdd_to_iso "20260226") = 10.
Proof.
  assert (String.length "20260226" = 8) as H by reflexivity.
  split; [exact H|].
  exact (proj1 (yyyymmdd_to_iso_round_trip "20260226" H)).
Defined.

Lemma current_name_determined_by_key_witness :
  classify current_name = Current "2026-01-01" "1" "v86_20260101_1.csv"
  ∧ classify newline_name
    = Current "2026-01-01" "1" ("v86_20260101_1.csv" +:+ String newline "")
  ∧ (current_name = newline_name
     ∨ current_name = newline_name +:+ String newline ""
     ∨ newline_name = current_name +:+ String newline "").
Proof.
  assert (classify current_name
          = Current "2026-01-01" "1" "v86_20260101_1.csv") as H1
    by reflexivity.
  assert (classify newline_name
          = Current "2026-01-01" "1"
              ("v86_20260101_1.csv" +:+ String newline "")) as H2
    by reflexivity.
  split; [exact H1|]. split; [exact H2|].
  exact (current_name_determined_by_key _ _ _ _ _ _ H1 H2).
Defined.

Lemma default_current_name_is_an_alias_witness :
  String.length "20260226" = 8 ∧ all_digits "20260226" = true
  ∧ (1 ≤ 3 ≤ 8)%Z
  ∧ classify "v85_20260226_3.csv"
    = Current "2026-02-26" "3" "v86_20260226_3.csv".
Proof.
  assert (String.length "20260226" = 8) as Hl by reflexivity.
  assert (all_digits "20260226" = true) as Hd by reflexivity.
  assert (1 ≤ 3 ≤ 8)%Z as Ha by lia.
  split; [exact Hl|]. split; [exact Hd|]. split; [exact Ha|].
  exact (proj2 (default_current_name_is_an_alias "20260226" 3 Hl Hd Ha)).
Defined.

Lemma default_history_name_never_read_witness :
  String.length "20260226" = 8 ∧ String.length "143000" = 6
  ∧ all_digits "143000" = true
  ∧ classify "v85_history_20260226_143000.csv" = Unrecognized.
Proof.
  assert (String.length "20260226" = 8) as Hd by reflexivity.
  assert (String.length "143000" = 6) as Ht by reflexivity.
  assert (all_digits "143000" = true) as Hdig by reflexivity.
  split; [exact Hd|]. split; [exact Ht|]. split; [exact Hdig|].
  exact (proj2 (default_history_name_never_read "20260226" "143000" Hd Ht Hdig)).
Defined.

Lemma imported_rows_well_formed_witness :
  main stored csv_dir false
  = (Db [odin_written] [odin_result_written; odin_result_written],
     Ok (Report 1 1 1 2))
  ∧ (odin_written ∈ [odin_written] →
     V85.source_file odin_written ∈ matching_files CURRENT_RE csv_dir →
     Shape.dashed_date (V85.datum odin_written) = true).
Proof.
  assert (main stored csv_dir false
          = (Db [odin_written] [odin_result_written; odin_result_written],
             Ok (Report 1 1 1 2))) as Hm by (by vm_compute).
  split; [exact Hm|].
  intros Hin Hs.
  exact (proj1 (proj2 (proj1 (imported_rows_well_formed stored csv_dir false
                                _ _ Hm) odin_written Hin Hs))).
Defined.

Lemma at_most_cap_rows_per_name_witness :
  (0 ≤ 5)%Z
  ∧ length (filter (λ r, Collector.hastnamn r = "Odin")
              (Collector.collect_history_rows id no_cells eight_days
                 one_horse_race 5)) ≤ Z.to_nat 5.
Proof.
  assert (0 ≤ 5)%Z as Hn by lia.
  split; [exact Hn|].
  exact (proj1 (at_most_cap_rows_per_name id no_cells eight_days
                  one_horse_race 5 "Odin" Hn)).
Defined.

Lemma output_rows_come_from_the_race_witness :
  Collector.Row "Odin" "2026-01-08" tt
    ∈ Collector.collect_history_rows id no_cells eight_days one_horse_race 5
  ∧ Collector.hastnamn (Collector.Row "Odin" "2026-01-08" tt) ≠ "".
Proof.
  assert (Collector.Row "Odin" "2026-01-08" tt
            ∈ Collector.collect_history_rows id no_cells eight_days
                one_horse_race 5) as H by (vm_compute; left).
  split; [exact H|].
  exact (proj1 (output_rows_come_from_the_race id no_cells eight_days
                  one_horse_race 5 _ H)).
Defined.

Lemma normalised_value_is_kept_witness :
  (text_field numeric_result hastnamn_label = Ok "Odin"
   ∨ str_field numeric_result hastnamn_label = Ok "Odin")
  ∧ text_field (<["kusk" := PStr "Odin"]> ∅) "kusk" = Ok "Odin".
Proof.
  assert (text_field numeric_result hastnamn_label = Ok "Odin"
          ∨ str_field numeric_result hastnamn_label = Ok "Odin") as H
    by (left; by vm_compute).
  split; [exact H|].
  exact (proj1 (normalised_value_is_kept numeric_result ∅ hastnamn_label
                  "kusk" "Odin" H)).
Defined.

(** Two Current files and two History files that each write a row, taken
    in both orders. *)
Lemma processing_order_is_immaterial_witness :
  let cur := [current_name; "v85_20260108_2.csv"] in
  let cur' := ["v85_20260108_2.csv"; current_name] in
  let hist := [history_name; "v85_history_20260108_1.csv"] in
  let hist' := ["v85_history_20260108_1.csv"; history_name] in
  let thor :=
    V85.Row "2026-01-08" "2" "2" "Thor" "" "" "" "9.00" ""
            "v85_20260108_2.csv" in
  let thor_result :=
    V85History.Row "2025-12-31" "1" "Thor" "" "" "4" "" "" "" "" "" ""
                   "v85_history_20260108_1.csv" in
  V85.unique []
  ∧ NoDup cur ∧ Forall (λ p, is_Some (CURRENT_RE p)) cur
  ∧ (∀ p p', p ∈ cur → p' ∈ cur → ¬ Shape.twins p p')
  ∧ cur ≡ₚ cur'
  ∧ NoDup hist ∧ Forall (λ p, is_Some (HISTORY_RE p)) hist
  ∧ hist ≡ₚ hist'
  ∧ import_all_current two_by_two_dir cur [] = [odin_written; thor]
  ∧ import_all_current two_by_two_dir cur' [] = [thor; odin_written]
  ∧ import_all_history two_by_two_dir hist (v85_history stored)
    = [odin_result_written; odin_result_written; thor_result]
  ∧ import_all_history two_by_two_dir hist' (v85_history stored)
    = [thor_result; odin_result_written; odin_result_written]
  ∧ import_all_current two_by_two_dir cur []
    ≡ₚ import_all_current two_by_two_dir cur' []
  ∧ import_all_history two_by_two_dir hist (v85_history stored)
    ≡ₚ import_all_history two_by_two_dir hist' (v85_history stored).
Proof.
  intros cur cur' hist hist' thor thor_result.
  assert (V85.unique []) as Hu by compute_done.
  assert (NoDup cur) as Hnd by compute_done.
  assert (Forall (λ p, is_Some (CURRENT_RE p)) cur) as Hre
    by (repeat constructor; by eexists).
  assert (∀ p p', p ∈ cur → p' ∈ cur → ¬ Shape.twins p p') as Htw.
  { intros p p' Hp Hp'.
    apply elem_of_cons in Hp as [->|Hp];
      [|apply elem_of_cons in Hp as [->|Hp]; [|by apply elem_of_nil in Hp]];
      (apply elem_of_cons in Hp' as [->|Hp'];
        [|apply elem_of_cons in Hp' as [->|Hp'];
          [|by apply elem_of_nil in Hp']]);
      intros [H|H]; discriminate H. }
  assert (cur ≡ₚ cur') as Hp by apply perm_swap.
  assert (NoDup hist) as Hndh by compute_done.
  assert (Forall (λ p, is_Some (HISTORY_RE p)) hist) as Hreh
    by (repeat constructor; by eexists).
  assert (hist ≡ₚ hist') as Hph by apply perm_swap.
  split; [exact Hu|]. split; [exact Hnd|]. split; [exact Hre|].
  split; [exact Htw|]. split; [exact Hp|]. split; [exact Hndh|].
  split; [exact Hreh|]. split; [exact Hph|].
  split; [by vm_compute|]. split; [by vm_compute|].
  split; [by vm_compute|]. split; [by vm_compute|].
  exact (processing_order_is_immaterial two_by_two_dir cur cur' hist hist'
           [] (v85_history stored) Hu Hnd Hre Htw Hp Hndh Hreh Hph).
Defined.

(** Two horses listed [ada], [Zeus], with two and three results and a cap
    of two: each keeps its two newest results, and [Zeus] comes first. *)
Lemma retention_keeps_newest_witness :
  (1 ≤ 2)%Z
  ∧ NoDup (Collector.horses id no_cells two_horse_fetch two_horse_race).*1
  ∧ Collector.collect_history_rows id no_cells two_horse_fetch
      two_horse_race 2
    = [ Collector.Row "Zeus" "2026-01-09" tt;
        Collector.Row "Zeus" "2026-01-05" tt;
        Collector.Row "ada" "2026-01-10" tt;
        Collector.Row "ada" "2026-01-03" tt ]
  ∧ Collector.retention_policy id no_cells two_horse_fetch two_horse_race
      (Z.to_nat 2)
      (Collector.collect_history_rows id no_cells two_horse_fetch
         two_horse_race 2).
Proof.
  assert (1 ≤ 2)%Z as Hn by lia.
  assert (NoDup (Collector.horses id no_cells two_horse_fetch
                   two_horse_race).*1) as Hnd by compute_done.
  split; [exact Hn|]. split; [exact Hnd|]. split; [by vm_compute|].
  exact (proj1 (retention_keeps_newest id no_cells two_horse_fetch
                  two_horse_race 2 Hn Hnd)).
Defined.


(** A number under a column that is not passed through [str] makes the
    normaliser raise. *)
Example number_under_kusk_raises :
  history_args "1" history_name numeric_driver = Raise AttributeError.
Proof. by vm_compute. Qed.


End extras_concrete.


(** ** The choice of the game on the fixtures *)

Section game_concrete.
Import Outcome Json Game GameFixture.

Lemma chosen_game_is_the_earliest_witness :
  GetV85.choose_game_from_today fromisoformat today
    [past_game; later_game; next_game] = Returns next_game
  ∧ ∃ dt before after,
      [past_game; later_game; next_game] = before ++ next_game :: after
      ∧ from_today fromisoformat today next_game dt
      ∧ (∀ g' dt', g' ∈ before → from_today fromisoformat today g' dt' →
                   lt dt dt' = Returns true)
      ∧ (∀ g' dt', g' ∈ after → from_today fromisoformat today g' dt' →
                   lt dt' dt = Returns false).
Proof.
  assert (GetV85.choose_game_from_today fromisoformat today
            [past_game; later_game; next_game] = Returns next_game) as H
    by (by vm_compute).
  split; [exact H|].
  exact (chosen_game_is_the_earliest fromisoformat today _ _ H).
Defined.

Lemma chosen_game_or_first_listed_witness :
  GetV85History.choose_game_from_today fromisoformat today [past_game]
  = Returns past_game
  ∧ ((∃ dt before after,
        [past_game] = before ++ past_game :: after
        ∧ from_today fromisoformat today past_game dt
        ∧ (∀ g' dt', g' ∈ before → from_today fromisoformat today g' dt' →
                     lt dt dt' = Returns true)
        ∧ (∀ g' dt', g' ∈ after → from_today fromisoformat today g' dt' →
                     lt dt' dt = Returns false))
     ∨ (head [past_game] = Some past_game
        ∧ ∀ g' dt', g' ∈ [past_game] →
                    ¬ from_today fromisoformat today g' dt')).
Proof.
  assert (GetV85History.choose_game_from_today fromisoformat today [past_game]
          = Returns past_game) as H by (by vm_compute).
  split; [exact H|].
  exact (chosen_game_or_first_listed fromisoformat today _ _ H).
Defined.

Lemma unparsable_start_time_is_fatal_witness :
  broken_game ∈ [next_game; broken_game]
  ∧ get broken_game "startTime" = JStr "soon"
  ∧ "soon" ≠ ""
  ∧ fromisoformat "soon" = None
  ∧ (∃ e, GetV85.choose_game_from_today fromisoformat today
            [next_game; broken_game] = Raises e)
  ∧ (∃ e, GetV85History.choose_game_from_today fromisoformat today
            [next_game; broken_game] = Raises e).
Proof.
  assert (broken_game ∈ [next_game; broken_game]) as Hg by (right; left).
  assert (get broken_game "startTime" = JStr "soon") as Hs by reflexivity.
  assert ("soon" ≠ "") as Hne by discriminate.
  assert (fromisoformat "soon" = None) as Hp by reflexivity.
  split; [exact Hg|]. split; [exact Hs|]. split; [exact Hne|].
  split; [exact Hp|].
  exact (unparsable_start_time_is_fatal fromisoformat today _ _ _
           Hg Hs Hne Hp).
Defined.

End game_concrete.


(** ** The table on the fixture *)

Section showdb_concrete.
Import Py Outcome ShowDb ShowFixture.

Lemma format_rows_is_aligned_witness :
  format_rows keys item id two_rows = Returns two_rows_table
  ∧ ∃ header line body,
      two_rows_table = header +:+ nl +:+ line +:+ nl +:+ join nl body
      ∧ length body = length two_rows
      ∧ String.length line = String.length header
      ∧ Forall (λ l, String.length l = String.length header) body.
Proof.
  assert (format_rows keys item id two_rows = Returns two_rows_table) as H
    by (by vm_compute).
  split; [exact H|].
  exact (format_rows_is_aligned keys item id two_rows _ H).
Defined.

End showdb_concrete.
